(** * Structured Text validator ([performSTValidation])

    A shallow embedding of the rule-based Structured Text scanner of the
    validation panel (the [performSTValidation] arrow function of the
    [ValidationPanel] component) together with the properties its
    specification states about the report it returns.

    Modelling conventions.
    - A JavaScript string is a [string]; one [ascii] stands for one code
      unit, so the texts covered are those of code units U+0000 to
      U+00FF.  The character classes below ([isWhiteSpace],
      [isWordChar], [isLineTerminator]) are those of
      [String.prototype.trim] and of the regular expression classes [\s],
      [\w] and [.] on these code units, and [toUpperCase] and
      [toLowerCase] are the methods of [String.prototype] on them.
    - [results] is the object the source mutates; every assignment to one
      of its fields is a separate update function, so that
      [results.errors.push] and [results.isValid = false] stay two steps.
    - A [Set<string>] is a duplicate-free list in insertion order, which is
      the order [Set.prototype.forEach] visits.
    - [number]s are [Z] for scores and counters and [nat] for line
      numbers.
    - The initial [setTimeout] delay of the source has no effect on the
      value the promise resolves to and is left out. *)

From Stdlib Require Import String Ascii List ZArith Bool Arith Lia DecimalString.
Import ListNotations.
Open Scope string_scope.
Open Scope bool_scope.

(** ** Characters *)

Definition codeBetween (lo hi : nat) (c : ascii) : bool :=
  let n := nat_of_ascii c in (lo <=? n)%nat && (n <=? hi)%nat.

(** White space and line terminators stripped by [trim] and matched by
    [\s]: TAB, LF, VT, FF, CR, SPACE and NO-BREAK SPACE (U+00A0); the
    other members of the class lie above U+00FF. *)
Definition isWhiteSpace (c : ascii) : bool :=
  codeBetween 9 13 c || codeBetween 32 32 c || codeBetween 160 160 c.

Definition isUpper (c : ascii) : bool := codeBetween 65 90 c.
Definition isLower (c : ascii) : bool := codeBetween 97 122 c.
Definition isDigit (c : ascii) : bool := codeBetween 48 57 c.
Definition isLetter (c : ascii) : bool := isUpper c || isLower c.

(** The class [\w], that is [[A-Za-z0-9_]]. *)
Definition isWordChar (c : ascii) : bool :=
  isLetter c || isDigit c || codeBetween 95 95 c.

(** Line terminators, which [.] does not match: LF and CR. *)
Definition isLineTerminator (c : ascii) : bool :=
  codeBetween 10 10 c || codeBetween 13 13 c.

(** The small letters U+00E0 to U+00FE but the division sign U+00F7:
    their capitals lie 32 below. *)
Definition isLatin1Lower (c : ascii) : bool :=
  codeBetween 224 246 c || codeBetween 248 254 c.

(** The capital of one code unit, where it is one code unit.  U+00DF
    (sharp s) has the two-letter capital [SS] and keeps its place here;
    [toUpperCase] below expands it.  In upper-cased text the code units
    181 and 255 stand for U+039C and U+0178, the capitals of U+00B5 and
    U+00FF. *)
Definition upperChar (c : ascii) : ascii :=
  if isLower c || isLatin1Lower c then ascii_of_nat (nat_of_ascii c - 32)
  else c.

Definition sharpS : ascii :=
  Ascii true true true true true false true true.

Definition LF : ascii := ascii_of_nat 10.

(** ** String primitives *)

Definition isEmpty (s : string) : bool :=
  match s with EmptyString => true | String _ _ => false end.

(** [String.prototype.toUpperCase]. *)
Fixpoint toUpperCase (s : string) : string :=
  match s with
  | EmptyString => EmptyString
  | String c r =>
      if Ascii.eqb c sharpS then String "S" (String "S" (toUpperCase r))
      else String (upperChar c) (toUpperCase r)
  end.

(** The canonical form by which a [/.../i] expression compares
    characters: the capital of each code unit when that capital is one
    code unit, the code unit itself otherwise. *)
Fixpoint canonicalize (s : string) : string :=
  match s with
  | EmptyString => EmptyString
  | String c r => String (upperChar c) (canonicalize r)
  end.

Fixpoint startsWith (s p : string) : bool :=
  match p, s with
  | EmptyString, _ => true
  | String _ _, EmptyString => false
  | String b p', String a s' => Ascii.eqb a b && startsWith s' p'
  end.

Fixpoint includes (s p : string) : bool :=
  startsWith s p ||
  match s with
  | EmptyString => false
  | String _ r => includes r p
  end.

Fixpoint endsWith (s p : string) : bool :=
  String.eqb s p ||
  match s with
  | EmptyString => false
  | String _ r => endsWith r p
  end.

Fixpoint trimStart (s : string) : string :=
  match s with
  | EmptyString => EmptyString
  | String c r => if isWhiteSpace c then trimStart r else s
  end.

Fixpoint trimEnd (s : string) : string :=
  match s with
  | EmptyString => EmptyString
  | String c r =>
      match trimEnd r with
      | EmptyString => if isWhiteSpace c then EmptyString else String c EmptyString
      | String d r' => String c (String d r')
      end
  end.

Definition trim (s : string) : string := trimEnd (trimStart s).

(** [s.split('\n')]: the pieces between line feeds; never the empty
    list. *)
Fixpoint splitLines (s : string) : list string :=
  match s with
  | EmptyString => [EmptyString]
  | String c r =>
      if Ascii.eqb c LF then EmptyString :: splitLines r
      else match splitLines r with
           | [] => [String c EmptyString]
           | l :: ls => String c l :: ls
           end
  end.

(** Longest prefix of characters in a class, and what follows it. *)
Fixpoint span (p : ascii -> bool) (s : string) : string * string :=
  match s with
  | EmptyString => (EmptyString, EmptyString)
  | String c r =>
      if p c then let (w, t) := span p r in (String c w, t)
      else (EmptyString, s)
  end.

Fixpoint dropWhile (p : ascii -> bool) (s : string) : string :=
  match s with
  | EmptyString => EmptyString
  | String c r => if p c then dropWhile p r else s
  end.

Fixpoint takeWhile (p : ascii -> bool) (s : string) : string :=
  match s with
  | EmptyString => EmptyString
  | String c r => if p c then String c (takeWhile p r) else EmptyString
  end.

Fixpoint dropN (n : nat) (s : string) : string :=
  match n, s with
  | O, _ => s
  | S _, EmptyString => EmptyString
  | S m, String _ r => dropN m r
  end.

Fixpoint allChars (p : ascii -> bool) (s : string) : bool :=
  match s with
  | EmptyString => true
  | String c r => p c && allChars p r
  end.

(** [(s.match(/c/g) || []).length] for a single character [c]. *)
Fixpoint countChar (c : ascii) (s : string) : Z :=
  match s with
  | EmptyString => 0%Z
  | String a r => ((if Ascii.eqb a c then 1 else 0) + countChar c r)%Z
  end.

(** ** The regular expressions of the scanner *)

(** [/^(\w+)\s*:\s*(\w+)/]: both groups are greedy and what follows each
    of them is neither a word character nor white space, so the only
    successful match takes the longest runs. *)
Definition varMatch (s : string) : option (string * string) :=
  let (varName, r1) := span isWordChar s in
  if isEmpty varName then None
  else
    match dropWhile isWhiteSpace r1 with
    | String c r2 =>
        if Ascii.eqb c ":" then
          let (dataType, _) := span isWordChar (dropWhile isWhiteSpace r2) in
          if isEmpty dataType then None else Some (varName, dataType)
        else None
    | EmptyString => None
    end.

(** [/^[A-Za-z][A-Za-z0-9_]*$/.test(s)]. *)
Definition namingPattern (s : string) : bool :=
  match s with
  | EmptyString => false
  | String c r => isLetter c && allChars isWordChar r
  end.

(** [/(\w+)\s*:=/] tried at one start position. *)
Definition assignmentAt (s : string) : option string :=
  let (w, r) := span isWordChar s in
  if isEmpty w then None
  else if startsWith (dropWhile isWhiteSpace r) ":=" then Some w
  else None.

(** [s.match(/(\w+)\s*:=/)], group 1 of the leftmost match: the start
    positions are tried from left to right. *)
Fixpoint assignmentMatch (s : string) : option string :=
  match assignmentAt s with
  | Some w => Some w
  | None =>
      match s with
      | EmptyString => None
      | String _ r => assignmentMatch r
      end
  end.

(** A literal alternative of a [/.../i] expression: characters compare
    by their canonical form. *)
Definition includesI (s p : string) : bool :=
  includes (canonicalize s) (canonicalize p).

(** [/a.*b/i]: [a], then any characters other than line terminators,
    then [b]. *)
Fixpoint gapAt (a b s : string) : bool :=
  (startsWith s a &&
   includes (takeWhile (fun c => negb (isLineTerminator c))
                       (dropN (String.length a) s)) b) ||
  match s with
  | EmptyString => false
  | String _ r => gapAt a b r
  end.

Definition gapI (s a b : string) : bool :=
  gapAt (canonicalize a) (canonicalize b) (canonicalize s).

(** ** Data model *)

Inductive ResultType := error | warning | info.
Inductive Severity := critical | medium | low.
Inductive Category := syntax | semantics | safety | style | iec61131.

Record ValidationResult := {
  type : ResultType;
  message : string;
  line : option nat;
  column : option nat;
  severity : Severity;
  category : Category
}.

Record SafetyChecks := {
  emergencyStop : bool;
  safetyInterlocks : bool;
  failSafeMechanisms : bool;
  watchdogTimer : bool;
  inputValidation : bool
}.

Record IecCompliance := {
  variableDeclaration : bool;
  dataTypeUsage : bool;
  structureCompliance : bool;
  namingConvention : bool
}.

Record ValidationResults := {
  isValid : bool;
  errors : list ValidationResult;
  warnings : list ValidationResult;
  suggestions : list ValidationResult;
  safetyChecks : SafetyChecks;
  iecCompliance : IecCompliance;
  syntaxScore : Z;
  logicScore : Z;
  safetyScore : Z
}.

(** The local variables of [performSTValidation] that the line callback
    closes over. *)
Record ScanState := {
  results : ValidationResults;
  inVarSection : bool;
  inFunctionBlock : bool;
  braceCount : Z;
  declaredVariables : list string;
  usedVariables : list string
}.

Definition categoryEqb (a b : Category) : bool :=
  match a, b with
  | syntax, syntax | semantics, semantics | safety, safety
  | style, style | iec61131, iec61131 => true
  | _, _ => false
  end.

(** [Set.prototype.has] and [Set.prototype.add]. *)
Definition setHas (s : list string) (x : string) : bool :=
  existsb (String.eqb x) s.

Definition setAdd (s : list string) (x : string) : list string :=
  if setHas s x then s else s ++ [x].

(** [Array.prototype.includes] on an array of strings. *)
Definition arrayIncludes (a : list string) (x : string) : bool :=
  existsb (String.eqb x) a.

(** ** Field updates on [results] *)

Definition setIsValid (b : bool) (r : ValidationResults) : ValidationResults :=
  {| isValid := b; errors := errors r; warnings := warnings r;
     suggestions := suggestions r; safetyChecks := safetyChecks r;
     iecCompliance := iecCompliance r; syntaxScore := syntaxScore r;
     logicScore := logicScore r; safetyScore := safetyScore r |}.

Definition pushError (e : ValidationResult) (r : ValidationResults) : ValidationResults :=
  {| isValid := isValid r; errors := errors r ++ [e]; warnings := warnings r;
     suggestions := suggestions r; safetyChecks := safetyChecks r;
     iecCompliance := iecCompliance r; syntaxScore := syntaxScore r;
     logicScore := logicScore r; safetyScore := safetyScore r |}.

Definition pushWarning (w : ValidationResult) (r : ValidationResults) : ValidationResults :=
  {| isValid := isValid r; errors := errors r; warnings := warnings r ++ [w];
     suggestions := suggestions r; safetyChecks := safetyChecks r;
     iecCompliance := iecCompliance r; syntaxScore := syntaxScore r;
     logicScore := logicScore r; safetyScore := safetyScore r |}.

Definition pushSuggestion (s : ValidationResult) (r : ValidationResults) : ValidationResults :=
  {| isValid := isValid r; errors := errors r; warnings := warnings r;
     suggestions := suggestions r ++ [s]; safetyChecks := safetyChecks r;
     iecCompliance := iecCompliance r; syntaxScore := syntaxScore r;
     logicScore := logicScore r; safetyScore := safetyScore r |}.

Definition setSafetyChecks (c : SafetyChecks) (r : ValidationResults) : ValidationResults :=
  {| isValid := isValid r; errors := errors r; warnings := warnings r;
     suggestions := suggestions r; safetyChecks := c;
     iecCompliance := iecCompliance r; syntaxScore := syntaxScore r;
     logicScore := logicScore r; safetyScore := safetyScore r |}.

Definition setIecCompliance (c : IecCompliance) (r : ValidationResults) : ValidationResults :=
  {| isValid := isValid r; errors := errors r; warnings := warnings r;
     suggestions := suggestions r; safetyChecks := safetyChecks r;
     iecCompliance := c; syntaxScore := syntaxScore r;
     logicScore := logicScore r; safetyScore := safetyScore r |}.

Definition setScores (sy lo sa : Z) (r : ValidationResults) : ValidationResults :=
  {| isValid := isValid r; errors := errors r; warnings := warnings r;
     suggestions := suggestions r; safetyChecks := safetyChecks r;
     iecCompliance := iecCompliance r; syntaxScore := sy;
     logicScore := lo; safetyScore := sa |}.

Definition setEmergencyStop (c : SafetyChecks) : SafetyChecks :=
  {| emergencyStop := true; safetyInterlocks := safetyInterlocks c;
     failSafeMechanisms := failSafeMechanisms c; watchdogTimer := watchdogTimer c;
     inputValidation := inputValidation c |}.

Definition setSafetyInterlocks (c : SafetyChecks) : SafetyChecks :=
  {| emergencyStop := emergencyStop c; safetyInterlocks := true;
     failSafeMechanisms := failSafeMechanisms c; watchdogTimer := watchdogTimer c;
     inputValidation := inputValidation c |}.

Definition setFailSafeMechanisms (c : SafetyChecks) : SafetyChecks :=
  {| emergencyStop := emergencyStop c; safetyInterlocks := safetyInterlocks c;
     failSafeMechanisms := true; watchdogTimer := watchdogTimer c;
     inputValidation := inputValidation c |}.

Definition setWatchdogTimer (c : SafetyChecks) : SafetyChecks :=
  {| emergencyStop := emergencyStop c; safetyInterlocks := safetyInterlocks c;
     failSafeMechanisms := failSafeMechanisms c; watchdogTimer := true;
     inputValidation := inputValidation c |}.

Definition setInputValidation (c : SafetyChecks) : SafetyChecks :=
  {| emergencyStop := emergencyStop c; safetyInterlocks := safetyInterlocks c;
     failSafeMechanisms := failSafeMechanisms c; watchdogTimer := watchdogTimer c;
     inputValidation := true |}.

Definition setVariableDeclaration (c : IecCompliance) : IecCompliance :=
  {| variableDeclaration := true; dataTypeUsage := dataTypeUsage c;
     structureCompliance := structureCompliance c;
     namingConvention := namingConvention c |}.

Definition setDataTypeUsage (c : IecCompliance) : IecCompliance :=
  {| variableDeclaration := variableDeclaration c; dataTypeUsage := true;
     structureCompliance := structureCompliance c;
     namingConvention := namingConvention c |}.

Definition setStructureCompliance (c : IecCompliance) : IecCompliance :=
  {| variableDeclaration := variableDeclaration c; dataTypeUsage := dataTypeUsage c;
     structureCompliance := true;
     namingConvention := namingConvention c |}.

Definition clearNamingConvention (c : IecCompliance) : IecCompliance :=
  {| variableDeclaration := variableDeclaration c; dataTypeUsage := dataTypeUsage c;
     structureCompliance := structureCompliance c;
     namingConvention := false |}.

(** ** Updates on the scan state *)

Definition onResults (f : ValidationResults -> ValidationResults)
    (st : ScanState) : ScanState :=
  {| results := f (results st); inVarSection := inVarSection st;
     inFunctionBlock := inFunctionBlock st; braceCount := braceCount st;
     declaredVariables := declaredVariables st;
     usedVariables := usedVariables st |}.

Definition onSafety (f : SafetyChecks -> SafetyChecks) : ScanState -> ScanState :=
  onResults (fun r => setSafetyChecks (f (safetyChecks r)) r).

Definition onCompliance (f : IecCompliance -> IecCompliance) : ScanState -> ScanState :=
  onResults (fun r => setIecCompliance (f (iecCompliance r)) r).

Definition setInVarSection (b : bool) (st : ScanState) : ScanState :=
  {| results := results st; inVarSection := b;
     inFunctionBlock := inFunctionBlock st; braceCount := braceCount st;
     declaredVariables := declaredVariables st;
     usedVariables := usedVariables st |}.

Definition setInFunctionBlock (b : bool) (st : ScanState) : ScanState :=
  {| results := results st; inVarSection := inVarSection st;
     inFunctionBlock := b; braceCount := braceCount st;
     declaredVariables := declaredVariables st;
     usedVariables := usedVariables st |}.

Definition setBraceCount (n : Z) (st : ScanState) : ScanState :=
  {| results := results st; inVarSection := inVarSection st;
     inFunctionBlock := inFunctionBlock st; braceCount := n;
     declaredVariables := declaredVariables st;
     usedVariables := usedVariables st |}.

Definition addDeclared (x : string) (st : ScanState) : ScanState :=
  {| results := results st; inVarSection := inVarSection st;
     inFunctionBlock := inFunctionBlock st; braceCount := braceCount st;
     declaredVariables := setAdd (declaredVariables st) x;
     usedVariables := usedVariables st |}.

Definition addUsed (x : string) (st : ScanState) : ScanState :=
  {| results := results st; inVarSection := inVarSection st;
     inFunctionBlock := inFunctionBlock st; braceCount := braceCount st;
     declaredVariables := declaredVariables st;
     usedVariables := setAdd (usedVariables st) x |}.

(** [results.errors.push(e); results.isValid = false]. *)
Definition reportError (e : ValidationResult) (st : ScanState) : ScanState :=
  onResults (setIsValid false) (onResults (pushError e) st).

Definition reportWarning (w : ValidationResult) : ScanState -> ScanState :=
  onResults (pushWarning w).

(** ** Constant tables *)

Definition reservedWords : list string :=
  [ "VAR"; "END_VAR"; "VAR_INPUT"; "VAR_OUTPUT"; "VAR_IN_OUT"; "VAR_TEMP";
    "VAR_EXTERNAL"; "VAR_GLOBAL";
    "PROGRAM"; "END_PROGRAM"; "FUNCTION"; "END_FUNCTION"; "FUNCTION_BLOCK";
    "END_FUNCTION_BLOCK";
    "IF"; "THEN"; "ELSE"; "ELSIF"; "END_IF"; "CASE"; "OF"; "END_CASE";
    "FOR"; "TO"; "BY"; "DO"; "END_FOR"; "WHILE"; "END_WHILE"; "REPEAT";
    "UNTIL"; "END_REPEAT";
    "EXIT"; "RETURN"; "TRUE"; "FALSE"; "AND"; "OR"; "XOR"; "NOT"; "MOD" ].

Definition standardDataTypes : list string :=
  [ "BOOL"; "SINT"; "INT"; "DINT"; "LINT"; "USINT"; "UINT"; "UDINT"; "ULINT";
    "REAL"; "LREAL"; "TIME"; "DATE"; "TIME_OF_DAY"; "TOD"; "DATE_AND_TIME"; "DT";
    "STRING"; "WSTRING"; "BYTE"; "WORD"; "DWORD"; "LWORD" ].

Definition commentOpen : string := String "(" (String "*" EmptyString).
Definition commentClose : string := String "*" (String ")" EmptyString).

(** ** Diagnostics *)

Definition mkResult (t : ResultType) (m : string) (l : option nat)
    (s : Severity) (c : Category) : ValidationResult :=
  {| type := t; message := m; line := l; column := None;
     severity := s; category := c |}.

Definition nonStandardTypeWarning (dataType : string) (lineNum : nat) :=
  mkResult warning ("Non-standard data type '" ++ dataType ++ "' used")
           (Some lineNum) medium iec61131.

Definition namingWarning (varName : string) (lineNum : nat) :=
  mkResult warning
    ("Variable '" ++ varName ++ "' doesn't follow IEC 61131-3 naming convention")
    (Some lineNum) medium iec61131.

Definition reservedWordError (varName : string) (lineNum : nat) :=
  mkResult error
    ("'" ++ varName ++ "' is a reserved word and cannot be used as variable name")
    (Some lineNum) critical syntax.

Definition ifThenError (lineNum : nat) :=
  mkResult error "IF statement must be followed by THEN" (Some lineNum) critical syntax.

Definition forToError (lineNum : nat) :=
  mkResult error "FOR statement missing TO keyword" (Some lineNum) critical syntax.

Definition whileDoError (lineNum : nat) :=
  mkResult error "WHILE statement missing DO keyword" (Some lineNum) critical syntax.

Definition caseOfError (lineNum : nat) :=
  mkResult error "CASE statement missing OF keyword" (Some lineNum) critical syntax.

Definition assignmentWarning (lineNum : nat) :=
  mkResult warning "Use := for assignment, = is for comparison"
           (Some lineNum) medium syntax.

Definition semicolonWarning (lineNum : nat) :=
  mkResult warning "Statement should end with semicolon" (Some lineNum) medium style.

Definition unmatchedError :=
  mkResult error "Unmatched parentheses in code" None critical syntax.

Definition unusedWarning (varName : string) :=
  mkResult warning ("Variable '" ++ varName ++ "' declared but never used")
           None low style.

Definition commentSuggestion :=
  mkResult info
    ("Add comments using " ++ commentOpen ++ " " ++ commentClose ++
     " or // for better code documentation") None low style.

Definition emergencyStopSuggestion :=
  mkResult info "Consider implementing emergency stop logic for safety compliance"
           None medium safety.

Definition largeProgramSuggestion :=
  mkResult info "Consider breaking large programs into smaller function blocks"
           None low style.

(** ** The line callback, one definition per statement of the source *)

Section LineRules.

Variables (trimmedLine upperLine : string) (lineNum : nat).

(** Track sections. *)
Definition trackVarStart (st : ScanState) : ScanState :=
  if startsWith upperLine "VAR"
  then onCompliance setVariableDeclaration (setInVarSection true st)
  else st.

Definition trackVarEnd (st : ScanState) : ScanState :=
  if String.eqb upperLine "END_VAR" then setInVarSection false st else st.

Definition trackFunctionBlock (st : ScanState) : ScanState :=
  if includes upperLine "FUNCTION_BLOCK" || includes upperLine "PROGRAM"
  then setInFunctionBlock true st
  else st.

(** Variable declaration parsing. *)
Definition checkDataType (dataType : string) (st : ScanState) : ScanState :=
  if arrayIncludes standardDataTypes (toUpperCase dataType)
  then onCompliance setDataTypeUsage st
  else reportWarning (nonStandardTypeWarning dataType lineNum) st.

Definition checkNaming (varName : string) (st : ScanState) : ScanState :=
  if negb (namingPattern varName)
  then onCompliance clearNamingConvention
         (reportWarning (namingWarning varName lineNum) st)
  else st.

Definition checkReserved (varName : string) (st : ScanState) : ScanState :=
  if arrayIncludes reservedWords (toUpperCase varName)
  then reportError (reservedWordError varName lineNum) st
  else st.

Definition parseDeclaration (st : ScanState) : ScanState :=
  if inVarSection st && includes trimmedLine ":"
     && negb (startsWith upperLine "VAR")
  then
    match varMatch trimmedLine with
    | Some (varName, dataType) =>
        checkReserved varName
          (checkNaming varName
             (checkDataType dataType
                (addDeclared (toUpperCase varName) st)))
    | None => st
    end
  else st.

(** Syntax validation: the four keyword pairs. *)
Definition checkIf (st : ScanState) : ScanState :=
  if includes upperLine "IF " && negb (includes upperLine "THEN")
     && negb (includes trimmedLine ":=")
  then reportError (ifThenError lineNum) st
  else st.

Definition checkFor (st : ScanState) : ScanState :=
  if includes upperLine "FOR " && negb (includes upperLine "TO")
  then reportError (forToError lineNum) st
  else st.

Definition checkWhile (st : ScanState) : ScanState :=
  if includes upperLine "WHILE " && negb (includes upperLine "DO")
  then reportError (whileDoError lineNum) st
  else st.

Definition checkCase (st : ScanState) : ScanState :=
  if includes upperLine "CASE " && negb (includes upperLine "OF")
  then reportError (caseOfError lineNum) st
  else st.

(** Assignment operator validation. *)
Definition assignmentCondition : bool :=
  includes trimmedLine "=" && negb (includes trimmedLine ":=")
  && negb (includes trimmedLine "<=") && negb (includes trimmedLine ">=")
  && negb (includes trimmedLine "<>") && negb (includes upperLine "IF ").

Definition checkAssignmentOperator (st : ScanState) : ScanState :=
  if assignmentCondition
  then reportWarning (assignmentWarning lineNum) st
  else st.

(** Semicolon validation. *)
Definition checkSemicolon (st : ScanState) : ScanState :=
  if negb (inVarSection st)
     && (includes trimmedLine ":=" || startsWith upperLine "RETURN"
         || includes upperLine "EXIT")
     && negb (endsWith trimmedLine ";")
  then reportWarning (semicolonWarning lineNum) st
  else st.

(** Variable usage tracking. *)
Definition trackUsage (st : ScanState) : ScanState :=
  match assignmentMatch trimmedLine with
  | Some target => addUsed (toUpperCase target) st
  | None => st
  end.

(** Safety checks. *)
Definition emergencyPattern : bool :=
  includesI trimmedLine "emergency" || includesI trimmedLine "e_stop"
  || includesI trimmedLine "estop" || includesI trimmedLine "safety".

Definition interlockPattern : bool :=
  includesI trimmedLine "interlock" || includesI trimmedLine "safety_gate"
  || includesI trimmedLine "light_curtain" || includesI trimmedLine "safety_door".

Definition failSafePattern : bool :=
  includesI trimmedLine "fail_safe" || includesI trimmedLine "watchdog"
  || includesI trimmedLine "timeout" || includesI trimmedLine "safety_time".

Definition watchdogPattern : bool :=
  includesI trimmedLine "watchdog" || includesI trimmedLine "wdt"
  || gapI trimmedLine "timer" "reset".

Definition inputValidationPattern : bool :=
  gapI trimmedLine "input" "valid" || gapI trimmedLine "range" "check"
  || gapI trimmedLine "limit" "check".

Definition checkEmergencyStop (st : ScanState) : ScanState :=
  if emergencyPattern then onSafety setEmergencyStop st else st.

Definition checkSafetyInterlocks (st : ScanState) : ScanState :=
  if interlockPattern then onSafety setSafetyInterlocks st else st.

Definition checkFailSafe (st : ScanState) : ScanState :=
  if failSafePattern then onSafety setFailSafeMechanisms st else st.

Definition checkWatchdog (st : ScanState) : ScanState :=
  if watchdogPattern then onSafety setWatchdogTimer st else st.

Definition checkInputValidation (st : ScanState) : ScanState :=
  if inputValidationPattern then onSafety setInputValidation st else st.

(** Structure compliance. *)
Definition checkStructure (st : ScanState) : ScanState :=
  if includes upperLine "END_IF" || includes upperLine "END_FOR"
     || includes upperLine "END_WHILE" || includes upperLine "END_CASE"
  then onCompliance setStructureCompliance st
  else st.

(** Parentheses and bracket matching. *)
Definition countParentheses (st : ScanState) : ScanState :=
  setBraceCount
    (braceCount st + countChar "(" trimmedLine - countChar ")" trimmedLine)%Z
    st.

(** The statements after the early [return], in source order. *)
Definition processLine (st : ScanState) : ScanState :=
  countParentheses
    (checkStructure
       (checkInputValidation
          (checkWatchdog
             (checkFailSafe
                (checkSafetyInterlocks
                   (checkEmergencyStop
                      (trackUsage
                         (checkSemicolon
                            (checkAssignmentOperator
                               (checkCase
                                  (checkWhile
                                     (checkFor
                                        (checkIf
                                           (parseDeclaration
                                              (trackFunctionBlock
                                                 (trackVarEnd
                                                    (trackVarStart st))))))))))))))))).

End LineRules.

(** The guard of the early [return]. *)
Definition skipLine (trimmedLine : string) : bool :=
  isEmpty trimmedLine || startsWith trimmedLine commentOpen
  || startsWith trimmedLine "//".

Definition lineCallback (st : ScanState) (rawLine : string) (index : nat) : ScanState :=
  let lineNum := index + 1 in
  let trimmedLine := trim rawLine in
  let upperLine := toUpperCase trimmedLine in
  if skipLine trimmedLine then st
  else processLine trimmedLine upperLine lineNum st.

(** [lines.forEach((line, index) => ...)]. *)
Fixpoint forEachLine (lines : list string) (index : nat) (st : ScanState) : ScanState :=
  match lines with
  | [] => st
  | l :: ls => forEachLine ls (S index) (lineCallback st l index)
  end.

(** ** The validator *)

Definition initialResults : ValidationResults :=
  {| isValid := true; errors := []; warnings := []; suggestions := [];
     safetyChecks :=
       {| emergencyStop := false; safetyInterlocks := false;
          failSafeMechanisms := false; watchdogTimer := false;
          inputValidation := false |};
     iecCompliance :=
       {| variableDeclaration := false; dataTypeUsage := false;
          structureCompliance := false; namingConvention := true |};
     syntaxScore := 100; logicScore := 100; safetyScore := 0 |}.

Definition initialState : ScanState :=
  {| results := initialResults; inVarSection := false; inFunctionBlock := false;
     braceCount := 0; declaredVariables := []; usedVariables := [] |}.

(** The state once [lines.forEach] has returned. *)
Definition scan (code : string) : ScanState :=
  forEachLine (splitLines code) 0 initialState.

(** Check for unmatched parentheses. *)
Definition checkUnmatched (st : ScanState) : ScanState :=
  if negb (braceCount st =? 0)%Z then reportError unmatchedError st else st.

(** Check for unused variables: [declaredVariables.forEach]. *)
Fixpoint forEachDeclared (vars : list string) (st : ScanState) : ScanState :=
  match vars with
  | [] => st
  | varName :: rest =>
      forEachDeclared rest
        (if negb (setHas (usedVariables st) varName)
         then reportWarning (unusedWarning varName) st
         else st)
  end.

Definition checkUnused (st : ScanState) : ScanState :=
  forEachDeclared (declaredVariables st) st.

(** Additional suggestions. *)
Definition suggestComments (code : string) (r : ValidationResults) : ValidationResults :=
  if negb (includes code commentOpen) && negb (includes code "//")
  then pushSuggestion commentSuggestion r else r.

Definition suggestEmergencyStop (r : ValidationResults) : ValidationResults :=
  if negb (emergencyStop (safetyChecks r))
  then pushSuggestion emergencyStopSuggestion r else r.

Definition suggestDecomposition (code : string) (r : ValidationResults) : ValidationResults :=
  if (100 <? List.length (splitLines code))%nat
  then pushSuggestion largeProgramSuggestion r else r.

(** Calculate scores. *)
Definition countTrue (c : SafetyChecks) : Z :=
  Z.of_nat (List.length (filter (fun b : bool => b)
    [emergencyStop c; safetyInterlocks c; failSafeMechanisms c;
     watchdogTimer c; inputValidation c])).

Definition semanticsErrors (r : ValidationResults) : list ValidationResult :=
  filter (fun e => categoryEqb (category e) semantics) (errors r).

Definition calculateScores (r : ValidationResults) : ValidationResults :=
  let errorPenalty := (Z.of_nat (List.length (errors r)) * 15)%Z in
  let warningPenalty := (Z.of_nat (List.length (warnings r)) * 5)%Z in
  let safetyFeatures := countTrue (safetyChecks r) in
  setScores
    (Z.max 0 (100 - errorPenalty - warningPenalty))
    (Z.max 0 (100 - Z.of_nat (List.length (semanticsErrors r)) * 20))
    (Z.min 100 (safetyFeatures * 20))
    r.

(** Everything after the line loop. *)
Definition finalize (code : string) (st : ScanState) : ValidationResults :=
  calculateScores
    (suggestDecomposition code
       (suggestEmergencyStop
          (suggestComments code
             (results (checkUnused (checkUnmatched st)))))).

Definition performSTValidation (code : string) : ValidationResults :=
  finalize code (scan code).

(** Test inputs are written as lists of lines joined by line feeds. *)
Fixpoint joinLines (ls : list string) : string :=
  match ls with
  | [] => EmptyString
  | [l] => l
  | l :: rest => l ++ String LF (joinLines rest)
  end.

(** ** Notions used in the statements *)

Open Scope list_scope.

Definition isNil {A : Type} (l : list A) : bool :=
  match l with [] => true | _ :: _ => false end.

Definition syntaxError (e : ValidationResult) : Prop :=
  type e = error /\ severity e = critical /\ category e = syntax.

(** What the line callback pushes onto [errors]: a syntax error that
    carries its line number and is not the document-level one. *)
Definition lineError (e : ValidationResult) : Prop :=
  syntaxError e /\ line e <> None /\ message e <> message unmatchedError.

Definition warningResult (w : ValidationResult) : Prop := type w = warning.

Definition safetyLe (c c' : SafetyChecks) : Prop :=
  (emergencyStop c = true -> emergencyStop c' = true) /\
  (safetyInterlocks c = true -> safetyInterlocks c' = true) /\
  (failSafeMechanisms c = true -> failSafeMechanisms c' = true) /\
  (watchdogTimer c = true -> watchdogTimer c' = true) /\
  (inputValidation c = true -> inputValidation c' = true).

Definition infoResult (s : ValidationResult) : Prop := type s = info.

(** Nothing: the line callback pushes no suggestion. *)
Definition noResult (s : ValidationResult) : Prop := False.

(** [grows P Q r r']: [r'] comes from [r] by appending errors that satisfy
    [P], each of which clears [isValid], by appending warnings, by
    appending suggestions that satisfy [Q], and by raising safety
    flags. *)
Record grows (P Q : ValidationResult -> Prop) (r r' : ValidationResults) : Prop := {
  grows_errors :
    exists es, errors r' = errors r ++ es /\ Forall P es /\
               isValid r' = isValid r && isNil es;
  grows_warnings :
    exists ws, warnings r' = warnings r ++ ws /\ Forall warningResult ws;
  grows_suggestions :
    exists ss, suggestions r' = suggestions r ++ ss /\ Forall Q ss;
  grows_safety : safetyLe (safetyChecks r) (safetyChecks r')
}.

Class ResultsOnly (rule : ScanState -> ScanState) : Prop :=
  results_only :
    forall st, exists f,
      rule st = onResults f st /\ forall r, grows lineError noResult r (f r).

Definition unmatchedErrors (st : ScanState) : list ValidationResult :=
  if negb (braceCount st =? 0)%Z then [unmatchedError] else [].

Definition unusedVariables (st : ScanState) : list string :=
  filter (fun v => negb (setHas (usedVariables st) v)) (declaredVariables st).

Definition finalSuggestions (code : string) (st : ScanState) : list ValidationResult :=
  (if negb (includes code commentOpen) && negb (includes code "//")
   then [commentSuggestion] else [])
  ++ (if negb (emergencyStop (safetyChecks (results st)))
      then [emergencyStopSuggestion] else [])
  ++ (if (100 <? List.length (splitLines code))%nat
      then [largeProgramSuggestion] else []).

(** Scenario A of the specification. *)
Definition scenarioA : string := joinLines ["VAR"; "IF : BOOL;"; "END_VAR"].

(** What one raw line contributes to the balance. *)
Definition lineBalance (rawLine : string) : Z :=
  if skipLine (trim rawLine) then 0%Z
  else (countChar "(" (trim rawLine) - countChar ")" (trim rawLine))%Z.

(** Open parentheses minus close parentheses, summed over the lines that
    are not skipped. *)
Definition parenthesisBalance (code : string) : Z :=
  fold_right (fun rawLine acc => (lineBalance rawLine + acc)%Z) 0%Z
             (splitLines code).

(** Scenario B of the specification. *)
Definition scenarioB : string := "x := (a + b;".

(** Follows the specification's words: some [=] of the line is bare, that
    is, it is not the second character of [:=], [<=] or [>=] ([<>] holds
    no [=]).  [prev] is the character before the current position. *)
Fixpoint bareEqualsFrom (prev : option ascii) (s : string) : bool :=
  match s with
  | EmptyString => false
  | String c r =>
      (Ascii.eqb c "="
       && match prev with
          | Some p => negb (Ascii.eqb p ":" || Ascii.eqb p "<" || Ascii.eqb p ">")
          | None => true
          end)
      || bareEqualsFrom (Some c) r
  end.

Definition hasBareEquals (s : string) : bool := bareEqualsFrom None s.

(** Scenario C of the specification. *)
Definition scenarioC : string :=
  joinLines ["VAR"; "a : BOOL;"; "END_VAR"; "a = TRUE;"].

(** The names the callback adds on one trimmed line: group 1 of the
    leftmost match, in upper case. *)
Definition recordedTarget (tl : string) : option string :=
  option_map toUpperCase (assignmentMatch tl).

(** A source text with a defaulted declaration and a line of two
    assignments. *)
Definition usageExample : string :=
  joinLines ["VAR"; "x : INT := 5;"; "END_VAR"; "a := 1; b := 2;"].

(** Scenario E of the specification. *)
Definition scenarioE : string := joinLines ["VAR"; "unused_var : INT;"; "END_VAR"].

(** The shape every report has. *)
Definition wellFormed (r : ValidationResults) : Prop :=
  isValid r = isNil (errors r)
  /\ Forall (fun e => type e = error) (errors r)
  /\ Forall (fun w => type w = warning) (warnings r)
  /\ Forall (fun s => type s = info) (suggestions r)
  /\ (0 <= syntaxScore r <= 100)%Z
  /\ (0 <= logicScore r <= 100)%Z
  /\ (0 <= safetyScore r <= 100)%Z.

(** Plain prose, no Structured Text. *)
Definition proseExample : string := "what if it rains".

(** Blank lines of spaces and tabs. *)
Definition blankExample : string :=
  joinLines ["   "; String (ascii_of_nat 9) " "; EmptyString].

(** A block comment of three lines with an IF line inside. *)
Definition commentBlockExample : string :=
  joinLines [(commentOpen ++ " disabled for now")%string;
             "IF x > 1";
             ("end of the note " ++ commentClose)%string].

(** A line that names a safety door and nothing else. *)
Definition safetyDoorExample : string := "safety_door".

(** A watchdog line that also holds the word safety. *)
Definition watchdogExample : string :=
  joinLines ["PROGRAM Main"; "Safety_WatchDog := TRUE;"; "END_PROGRAM"].

(** The last character of a text, and whether a text ends in a word
    character, that is, in the middle or at the end of an identifier. *)
Fixpoint lastChar (s : string) : option ascii :=
  match s with
  | EmptyString => None
  | String c r => match r with EmptyString => Some c | String _ _ => lastChar r end
  end.

Definition endsInWordChar (s : string) : bool :=
  match lastChar s with
  | Some c => isWordChar c
  | None => false
  end.

(** ** The section tracker as a function of the lines *)

(** [inVarSection] once the two tracking statements have run on a line
    whose upper-cased trimmed text is [ul]. *)
Definition sectionAfterLine (inVar : bool) (ul : string) : bool :=
  if String.eqb ul "END_VAR" then false
  else if startsWith ul "VAR" then true
  else inVar.

Definition sectionStep (inVar : bool) (rawLine : string) : bool :=
  if skipLine (trim rawLine) then inVar
  else sectionAfterLine inVar (toUpperCase (trim rawLine)).

(** The section state after the given lines, starting outside. *)
Definition sectionAfter (lines : list string) : bool :=
  fold_left sectionStep lines false.

(** ** What one processed line can contribute *)

(** The condition of the structure-compliance rule. *)
Definition structurePattern (ul : string) : bool :=
  includes ul "END_IF" || includes ul "END_FOR"
  || includes ul "END_WHILE" || includes ul "END_CASE".

(** The condition of the semicolon rule, section state apart. *)
Definition statementPattern (tl ul : string) : bool :=
  includes tl ":=" || startsWith ul "RETURN" || includes ul "EXIT".

(** The trimmed line [tl] is parsed as the declaration of [v] with type
    token [ty]: the scanner is inside a section ([inVar], taken after the
    tracking statements), the line does not start with [VAR], and the
    declaration pattern matches. *)
Definition declares (inVar : bool) (tl ul v ty : string) : Prop :=
  inVar = true /\ startsWith ul "VAR" = false /\ varMatch tl = Some (v, ty).

(** The name the declaration parser adds, if any, on the trimmed line
    [tl] seen in section state [inVar]. *)
Definition declaredTarget (inVar : bool) (tl ul : string) : option string :=
  if inVar && includes tl ":" && negb (startsWith ul "VAR")
  then option_map (fun p => toUpperCase (fst p)) (varMatch tl)
  else None.

(** The errors the callback can push for the trimmed line [tl], its
    upper-case form [ul], its line number [n] and the section state
    [inVar], each with the condition its rule tests. *)
Definition lineErrorOf (inVar : bool) (tl ul : string) (n : nat)
    (e : ValidationResult) : Prop :=
  (exists v ty, declares inVar tl ul v ty
                /\ arrayIncludes reservedWords (toUpperCase v) = true
                /\ e = reservedWordError v n)
  \/ (includes ul "IF " = true /\ includes ul "THEN" = false
      /\ includes tl ":=" = false /\ e = ifThenError n)
  \/ (includes ul "FOR " = true /\ includes ul "TO" = false /\ e = forToError n)
  \/ (includes ul "WHILE " = true /\ includes ul "DO" = false /\ e = whileDoError n)
  \/ (includes ul "CASE " = true /\ includes ul "OF" = false /\ e = caseOfError n).

(** Likewise for the warnings. *)
Definition lineWarningOf (inVar : bool) (tl ul : string) (n : nat)
    (w : ValidationResult) : Prop :=
  (exists v ty, declares inVar tl ul v ty
                /\ arrayIncludes standardDataTypes (toUpperCase ty) = false
                /\ w = nonStandardTypeWarning ty n)
  \/ (exists v ty, declares inVar tl ul v ty
                   /\ namingPattern v = false
                   /\ w = namingWarning v n)
  \/ (assignmentCondition tl ul = true /\ w = assignmentWarning n)
  \/ (inVar = false /\ statementPattern tl ul = true /\ endsWith tl ";" = false
      /\ w = semicolonWarning n).

(** A safety flag is raised only by its own pattern. *)
Definition safetyFrom (tl : string) (c c' : SafetyChecks) : Prop :=
  (emergencyStop c' = true -> emergencyStop c = true \/ emergencyPattern tl = true)
  /\ (safetyInterlocks c' = true ->
      safetyInterlocks c = true \/ interlockPattern tl = true)
  /\ (failSafeMechanisms c' = true ->
      failSafeMechanisms c = true \/ failSafePattern tl = true)
  /\ (watchdogTimer c' = true -> watchdogTimer c = true \/ watchdogPattern tl = true)
  /\ (inputValidation c' = true ->
      inputValidation c = true \/ inputValidationPattern tl = true).

(** The first three compliance flags are only ever raised and
    [namingConvention] is only ever cleared. *)
Definition complianceLe (c c' : IecCompliance) : Prop :=
  (variableDeclaration c = true -> variableDeclaration c' = true)
  /\ (dataTypeUsage c = true -> dataTypeUsage c' = true)
  /\ (structureCompliance c = true -> structureCompliance c' = true)
  /\ (namingConvention c = false -> namingConvention c' = false).

(** A compliance flag changes only by its own rule. *)
Definition complianceFrom (inVar : bool) (tl ul : string)
    (c c' : IecCompliance) : Prop :=
  complianceLe c c'
  /\ (variableDeclaration c' = true ->
      variableDeclaration c = true \/ startsWith ul "VAR" = true)
  /\ (dataTypeUsage c' = true ->
      dataTypeUsage c = true
      \/ exists v ty, declares inVar tl ul v ty
                      /\ arrayIncludes standardDataTypes (toUpperCase ty) = true)
  /\ (structureCompliance c' = true ->
      structureCompliance c = true \/ structurePattern ul = true)
  /\ (namingConvention c' = false ->
      namingConvention c = false
      \/ exists v ty, declares inVar tl ul v ty /\ namingPattern v = false).

(** [lineStep inVar tl ul n r r']: [r'] comes from [r] by what the rules
    can do on the line [tl]. *)
Record lineStep (inVar : bool) (tl ul : string) (n : nat)
    (r r' : ValidationResults) : Prop := {
  step_errors :
    exists es, errors r' = errors r ++ es
               /\ Forall (lineErrorOf inVar tl ul n) es;
  step_warnings :
    exists ws, warnings r' = warnings r ++ ws
               /\ Forall (lineWarningOf inVar tl ul n) ws;
  step_safety : safetyFrom tl (safetyChecks r) (safetyChecks r');
  step_compliance :
    complianceFrom inVar tl ul (iecCompliance r) (iecCompliance r')
}.

(** Line [i] (from 0) of [lines] is [l] and the callback does not skip
    it. *)
Definition processedLine (lines : list string) (i : nat) (l : string) : Prop :=
  nth_error lines i = Some l /\ skipLine (trim l) = false.

(** Some processed line of [lines] satisfies [p], which is given the raw
    line, its 1-based number and the section state in which the rules
    after the tracking statements see it. *)
Definition someLine (lines : list string)
    (p : string -> nat -> bool -> Prop) : Prop :=
  exists i l, processedLine lines i l
              /\ p l (i + 1) (sectionAfter (firstn (S i) lines)).

(** Every diagnostic and every flag of [r] is accounted for by a
    processed line of [lines]. *)
Record traced (lines : list string) (r : ValidationResults) : Prop := {
  traced_errors :
    Forall (fun e => someLine lines (fun l n inVar =>
              lineErrorOf inVar (trim l) (toUpperCase (trim l)) n e)) (errors r);
  traced_warnings :
    Forall (fun w => someLine lines (fun l n inVar =>
              lineWarningOf inVar (trim l) (toUpperCase (trim l)) n w)) (warnings r);
  traced_emergencyStop :
    emergencyStop (safetyChecks r) = true ->
    someLine lines (fun l _ _ => emergencyPattern (trim l) = true);
  traced_safetyInterlocks :
    safetyInterlocks (safetyChecks r) = true ->
    someLine lines (fun l _ _ => interlockPattern (trim l) = true);
  traced_failSafeMechanisms :
    failSafeMechanisms (safetyChecks r) = true ->
    someLine lines (fun l _ _ => failSafePattern (trim l) = true);
  traced_watchdogTimer :
    watchdogTimer (safetyChecks r) = true ->
    someLine lines (fun l _ _ => watchdogPattern (trim l) = true);
  traced_inputValidation :
    inputValidation (safetyChecks r) = true ->
    someLine lines (fun l _ _ => inputValidationPattern (trim l) = true);
  traced_variableDeclaration :
    variableDeclaration (iecCompliance r) = true ->
    someLine lines (fun l _ _ => startsWith (toUpperCase (trim l)) "VAR" = true);
  traced_dataTypeUsage :
    dataTypeUsage (iecCompliance r) = true ->
    someLine lines (fun l _ inVar =>
      exists v ty, declares inVar (trim l) (toUpperCase (trim l)) v ty
                   /\ arrayIncludes standardDataTypes (toUpperCase ty) = true);
  traced_structureCompliance :
    structureCompliance (iecCompliance r) = true ->
    someLine lines (fun l _ _ => structurePattern (toUpperCase (trim l)) = true);
  traced_namingConvention :
    namingConvention (iecCompliance r) = false ->
    someLine lines (fun l _ inVar =>
      exists v ty, declares inVar (trim l) (toUpperCase (trim l)) v ty
                   /\ namingPattern v = false)
}.

(** ** The validation panel around the validator *)

Inductive ToastVariant := variantDefault | variantDestructive.

(** The argument of [toast]. *)
Record Toast := {
  toastTitle : string;
  toastDescription : string;
  toastVariant : ToastVariant
}.

(** A template literal prints a line count in decimal. *)
Definition numberToString (n : nat) : string :=
  NilEmpty.string_of_uint (Nat.to_uint n).

(** [onSuccess] of [validateCodeMutation]: the toast it shows for the
    results it stores. *)
Definition onSuccessToast (r : ValidationResults) : Toast :=
  {| toastTitle := "ST Code Validation Complete";
     toastDescription :=
       if isValid r then "Structured Text validation passed"
       else ("Found " ++ numberToString (List.length (errors r))
             ++ " errors and " ++ numberToString (List.length (warnings r))
             ++ " warnings")%string;
     toastVariant := if isValid r then variantDefault else variantDestructive |}.

Definition noCodeToast : Toast :=
  {| toastTitle := "No Code to Validate";
     toastDescription := "Please generate PLC Structured Text code first";
     toastVariant := variantDestructive |}.

(** What [handleValidateCode] does: it shows a toast and returns, or it
    hands the code to the mutation. *)
Inductive PanelAction :=
| showToast (t : Toast)
| mutate (code : string).

(** [generatedCode] is a string or [null]; the empty string is falsy. *)
Definition handleValidateCode (generatedCode : option string) : PanelAction :=
  match generatedCode with
  | None => showToast noCodeToast
  | Some g =>
      if isEmpty g || isEmpty (trim g) then showToast noCodeToast
      else mutate g
  end.

(** [Boolean(generatedCode && generatedCode.trim().length > 0)]. *)
Definition hasGeneratedCode (generatedCode : option string) : bool :=
  match generatedCode with
  | None => false
  | Some g => if isEmpty g then false else (0 <? String.length (trim g))%nat
  end.

(** ** The template list *)

(** The code units below 128. *)
Definition is7Bit (c : ascii) : bool := codeBetween 0 127 c.

(** The capitals U+00C0 to U+00DE but the multiplication sign U+00D7:
    their small letters lie 32 above. *)
Definition isLatin1Upper (c : ascii) : bool :=
  codeBetween 192 214 c || codeBetween 216 222 c.

Definition lowerChar (c : ascii) : ascii :=
  if isUpper c || isLatin1Upper c then ascii_of_nat (nat_of_ascii c + 32)
  else c.

(** [String.prototype.toLowerCase]. *)
Fixpoint toLowerCase (s : string) : string :=
  match s with
  | EmptyString => EmptyString
  | String c r => String (lowerChar c) (toLowerCase r)
  end.

Section Templates.

(** The records of the [variables] column; no function below looks
    inside them. *)
Variable VariableRecord : Type.

(** A row of the [templates] table. *)
Record Template := {
  templateId : string;
  templateName : string;
  templateCategory : string;
  templateDescription : option string;
  templateCode : string;
  templateLanguage : option string;
  templateVariables : option (list VariableRecord);
  templateIsBuiltIn : option bool
}.

(** [template.description?.toLowerCase().includes(...)] is [undefined],
    hence falsy, when the description is [null]. *)
Definition matchesSearch (searchTerm : string) (template : Template) : bool :=
  includes (toLowerCase (templateName template)) (toLowerCase searchTerm)
  || match templateDescription template with
     | Some d => includes (toLowerCase d) (toLowerCase searchTerm)
     | None => false
     end.

Definition matchesCategory (selectedCategory : string) (template : Template) : bool :=
  String.eqb selectedCategory "all"
  || String.eqb (templateCategory template) selectedCategory.

Definition filteredTemplates (allTemplates : list Template)
    (searchTerm selectedCategory : string) : list Template :=
  filter (fun template =>
            matchesSearch searchTerm template
            && matchesCategory selectedCategory template)
         allTemplates.

End Templates.

Arguments templateName {VariableRecord} _.
Arguments templateCategory {VariableRecord} _.
Arguments templateDescription {VariableRecord} _.
Arguments templateCode {VariableRecord} _.
Arguments templateLanguage {VariableRecord} _.
Arguments templateVariables {VariableRecord} _.
Arguments templateIsBuiltIn {VariableRecord} _.
Arguments matchesSearch {VariableRecord} _ _.
Arguments matchesCategory {VariableRecord} _ _.
Arguments filteredTemplates {VariableRecord} _ _ _.

(** ** The in-memory store ([server/storage.ts]) *)

(** A [Map<string, V>]: the entries in insertion order, one per key. *)
Definition JsMap (V : Type) : Type := list (string * V).

Fixpoint mapGet {V : Type} (m : JsMap V) (k : string) : option V :=
  match m with
  | [] => None
  | (k', v) :: r => if String.eqb k' k then Some v else mapGet r k
  end.

(** [m.set(k, v)]: a key that is present keeps its place. *)
Fixpoint mapSet {V : Type} (m : JsMap V) (k : string) (v : V) : JsMap V :=
  match m with
  | [] => [(k, v)]
  | (k', v') :: r =>
      if String.eqb k' k then (k, v) :: r else (k', v') :: mapSet r k v
  end.

(** [m.delete(k)], with the boolean it returns. *)
Fixpoint mapDelete {V : Type} (m : JsMap V) (k : string) : bool * JsMap V :=
  match m with
  | [] => (false, [])
  | (k', v') :: r =>
      if String.eqb k' k then (true, r)
      else let (deleted, r') := mapDelete r k in (deleted, (k', v') :: r')
  end.

Definition mapValues {V : Type} (m : JsMap V) : list V := map snd m.

Definition mapKeys {V : Type} (m : JsMap V) : list string := map fst m.

(** An optional, nullable property of an insert record: the key is
    missing or holds [undefined], it holds [null], or it holds a
    value. *)
Inductive Optional (A : Type) : Type :=
| Undefined
| Null
| Defined (a : A).

Arguments Undefined {A}.
Arguments Null {A}.
Arguments Defined {A} a.

(** [x || null] on a string: [undefined], [null] and the empty string
    are falsy. *)
Definition stringOrNull (x : Optional string) : option string :=
  match x with
  | Defined s => if isEmpty s then None else Some s
  | _ => None
  end.

(** [x || null] on an array: every array is truthy. *)
Definition arrayOrNull {A : Type} (x : Optional (list A)) : option (list A) :=
  match x with
  | Defined l => Some l
  | _ => None
  end.

(** [x || null] on a boolean. *)
Definition boolOrNull (x : Optional bool) : option bool :=
  match x with
  | Defined true => Some true
  | _ => None
  end.

(** [u !== undefined ? u : e]. *)
Definition definedOr {A : Type} (u : Optional A) (e : option A) : option A :=
  match u with
  | Undefined => e
  | Null => None
  | Defined a => Some a
  end.

(** What [schema.parse(req.body)] did: it threw, or it returned the
    validated data. *)
Inductive Parsed (A : Type) : Type :=
| parseError (message : string)
| parsedData (a : A).

Arguments parseError {A} message.
Arguments parsedData {A} a.

Section Storage.

(** The values of [new Date()] and the records of the [variables]
    column; the store only copies them. *)
Variables Date VariableRecord : Type.

Record InsertProject := {
  insertName : string;
  insertDescription : Optional string;
  insertCode : Optional string;
  insertLanguage : Optional string;
  insertVariables : Optional (list VariableRecord)
}.

(** [Partial<InsertProject>]; [updatesName] is [None] when the key is
    missing. *)
Record ProjectUpdates := {
  updatesName : option string;
  updatesDescription : Optional string;
  updatesCode : Optional string;
  updatesLanguage : Optional string;
  updatesVariables : Optional (list VariableRecord)
}.

(** A row of the [projects] table. *)
Record Project := {
  projectId : string;
  projectName : string;
  projectDescription : option string;
  projectCode : option string;
  projectLanguage : option string;
  projectVariables : option (list VariableRecord);
  projectCreatedAt : option Date;
  projectUpdatedAt : option Date
}.

Record InsertTemplate := {
  insertTemplateName : string;
  insertTemplateCategory : string;
  insertTemplateDescription : Optional string;
  insertTemplateCode : string;
  insertTemplateLanguage : Optional string;
  insertTemplateVariables : Optional (list VariableRecord);
  insertTemplateIsBuiltIn : Optional bool
}.

(** The [projects] and [templates] maps of [MemStorage]. *)
Record MemStorage := {
  projects : JsMap Project;
  templates : JsMap (Template VariableRecord)
}.

Definition setProjects (m : JsMap Project) (st : MemStorage) : MemStorage :=
  {| projects := m; templates := templates st |}.

Definition setTemplates (m : JsMap (Template VariableRecord)) (st : MemStorage)
  : MemStorage :=
  {| projects := projects st; templates := m |}.

(** The maps as [new Map()] leaves them. *)
Definition emptyStorage : MemStorage := {| projects := []; templates := [] |}.

Definition getProject (st : MemStorage) (id : string) : option Project :=
  mapGet (projects st) id.

Definition getAllProjects (st : MemStorage) : list Project :=
  mapValues (projects st).

(** [id] is the value of [randomUUID()], [now] that of [new Date()]. *)
Definition createProject (id : string) (now : Date)
    (insertProject : InsertProject) (st : MemStorage) : Project * MemStorage :=
  let project :=
    {| projectId := id;
       projectName := insertName insertProject;
       projectDescription := stringOrNull (insertDescription insertProject);
       projectCode := stringOrNull (insertCode insertProject);
       projectLanguage := stringOrNull (insertLanguage insertProject);
       projectVariables := arrayOrNull (insertVariables insertProject);
       projectCreatedAt := Some now;
       projectUpdatedAt := Some now |} in
  (project, setProjects (mapSet (projects st) id project) st).

Definition updatedProject (now : Date) (existing : Project)
    (updates : ProjectUpdates) : Project :=
  {| projectId := projectId existing;
     projectName := match updatesName updates with
                    | Some n => n
                    | None => projectName existing
                    end;
     projectDescription :=
       definedOr (updatesDescription updates) (projectDescription existing);
     projectCode := definedOr (updatesCode updates) (projectCode existing);
     projectLanguage :=
       definedOr (updatesLanguage updates) (projectLanguage existing);
     projectVariables :=
       definedOr (updatesVariables updates) (projectVariables existing);
     projectCreatedAt := projectCreatedAt existing;
     projectUpdatedAt := Some now |}.

Definition updateProject (now : Date) (id : string) (updates : ProjectUpdates)
    (st : MemStorage) : option Project * MemStorage :=
  match mapGet (projects st) id with
  | None => (None, st)
  | Some existing =>
      let updated := updatedProject now existing updates in
      (Some updated, setProjects (mapSet (projects st) id updated) st)
  end.

Definition deleteProject (id : string) (st : MemStorage) : bool * MemStorage :=
  let (deleted, m) := mapDelete (projects st) id in (deleted, setProjects m st).

Definition getTemplate (st : MemStorage) (id : string)
  : option (Template VariableRecord) :=
  mapGet (templates st) id.

Definition getAllTemplates (st : MemStorage) : list (Template VariableRecord) :=
  mapValues (templates st).

Definition getTemplatesByCategory (st : MemStorage) (category : string)
  : list (Template VariableRecord) :=
  filter (fun t => String.eqb (templateCategory t) category)
         (mapValues (templates st)).

Definition createTemplate (id : string) (insertTemplate : InsertTemplate)
    (st : MemStorage) : Template VariableRecord * MemStorage :=
  let template :=
    {| templateId := id;
       templateName := insertTemplateName insertTemplate;
       templateCategory := insertTemplateCategory insertTemplate;
       templateDescription :=
         stringOrNull (insertTemplateDescription insertTemplate);
       templateCode := insertTemplateCode insertTemplate;
       templateLanguage := stringOrNull (insertTemplateLanguage insertTemplate);
       templateVariables :=
         arrayOrNull (insertTemplateVariables insertTemplate);
       templateIsBuiltIn := boolOrNull (insertTemplateIsBuiltIn insertTemplate) |} in
  (template, setTemplates (mapSet (templates st) id template) st).

(** The loop of [seedTemplates], whose body stores a template as
    [createTemplate] does; [randomUUID k] is the value of the [k]-th
    call of [randomUUID()]. *)
Fixpoint forEachTemplate (randomUUID : nat -> string) (k : nat)
    (builtInTemplates : list InsertTemplate) (st : MemStorage) : MemStorage :=
  match builtInTemplates with
  | [] => st
  | template :: rest =>
      forEachTemplate randomUUID (S k) rest
        (snd (createTemplate (randomUUID k) template st))
  end.

(** ** The project and template routes ([server/routes.ts]) *)

Inductive Body : Type :=
| jsonProjects (l : list Project)
| jsonProject (p : Project)
| jsonTemplates (l : list (Template VariableRecord))
| jsonTemplate (t : Template VariableRecord)
| jsonMessage (message : string)
| emptyBody.

Record Response := { responseStatus : nat; responseBody : Body }.

(** [res.json(x)] and [res.status(n).json(x)]. *)
Definition json (b : Body) : Response := {| responseStatus := 200; responseBody := b |}.

Definition statusJson (n : nat) (b : Body) : Response :=
  {| responseStatus := n; responseBody := b |}.

(** The requests to the project and template routes, each with the
    values its handler draws from [randomUUID()] and [new Date()]. *)
Inductive Request : Type :=
| GetProjects
| GetProject (id : string)
| PostProject (uuid : string) (now : Date) (body : Parsed InsertProject)
| PutProject (now : Date) (id : string) (body : Parsed ProjectUpdates)
| DeleteProject (id : string)
| GetTemplates (category : option string)
| GetTemplate (id : string)
| PostTemplate (uuid : string) (body : Parsed InsertTemplate).

Definition registerRoutes (req : Request) (st : MemStorage)
  : Response * MemStorage :=
  match req with
  | GetProjects => (json (jsonProjects (getAllProjects st)), st)
  | GetProject id =>
      match getProject st id with
      | None => (statusJson 404 (jsonMessage "Project not found"), st)
      | Some project => (json (jsonProject project), st)
      end
  | PostProject uuid now body =>
      match body with
      | parseError message => (statusJson 400 (jsonMessage message), st)
      | parsedData validatedData =>
          let (project, st') := createProject uuid now validatedData st in
          (statusJson 201 (jsonProject project), st')
      end
  | PutProject now id body =>
      match body with
      | parseError message => (statusJson 400 (jsonMessage message), st)
      | parsedData validatedData =>
          match updateProject now id validatedData st with
          | (None, st') =>
              (statusJson 404 (jsonMessage "Project not found"), st')
          | (Some project, st') => (json (jsonProject project), st')
          end
      end
  | DeleteProject id =>
      match deleteProject id st with
      | (false, st') =>
          (statusJson 404 (jsonMessage "Project not found"), st')
      | (true, st') => (statusJson 204 emptyBody, st')
      end
  | GetTemplates category =>
      match category with
      | Some c =>
          if isEmpty c then (json (jsonTemplates (getAllTemplates st)), st)
          else (json (jsonTemplates (getTemplatesByCategory st c)), st)
      | None => (json (jsonTemplates (getAllTemplates st)), st)
      end
  | GetTemplate id =>
      match getTemplate st id with
      | None => (statusJson 404 (jsonMessage "Template not found"), st)
      | Some template => (json (jsonTemplate template), st)
      end
  | PostTemplate uuid body =>
      match body with
      | parseError message => (statusJson 400 (jsonMessage message), st)
      | parsedData validatedData =>
          let (template, st') := createTemplate uuid validatedData st in
          (statusJson 201 (jsonTemplate template), st')
      end
  end.

(** The server answering a sequence of requests. *)
Fixpoint serve (reqs : list Request) (st : MemStorage)
  : list Response * MemStorage :=
  match reqs with
  | [] => ([], st)
  | req :: rest =>
      let (response, st') := registerRoutes req st in
      let (responses, st'') := serve rest st' in
      (response :: responses, st'')
  end.

(** Every entry is filed under the id it carries, and no key occurs
    twice. *)
Definition keyedBy {V : Type} (idOf : V -> string) (m : JsMap V) : Prop :=
  NoDup (mapKeys m) /\ forall k v, In (k, v) m -> idOf v = k.

Definition storageInvariant (st : MemStorage) : Prop :=
  keyedBy projectId (projects st)
  /\ keyedBy (@templateId VariableRecord) (templates st).

End Storage.

Arguments projectId {Date VariableRecord} _.
Arguments projectName {Date VariableRecord} _.
Arguments projectDescription {Date VariableRecord} _.
Arguments projectCode {Date VariableRecord} _.
Arguments projectLanguage {Date VariableRecord} _.
Arguments projectVariables {Date VariableRecord} _.
Arguments projectCreatedAt {Date VariableRecord} _.
Arguments projectUpdatedAt {Date VariableRecord} _.
Arguments projects {Date VariableRecord} _.
Arguments templates {Date VariableRecord} _.
Arguments emptyStorage {Date VariableRecord}.
Arguments getProject {Date VariableRecord} _ _.
Arguments getAllProjects {Date VariableRecord} _.
Arguments createProject {Date VariableRecord} _ _ _ _.
Arguments updatedProject {Date VariableRecord} _ _ _.
Arguments updateProject {Date VariableRecord} _ _ _ _.
Arguments deleteProject {Date VariableRecord} _ _.
Arguments getTemplate {Date VariableRecord} _ _.
Arguments getAllTemplates {Date VariableRecord} _.
Arguments getTemplatesByCategory {Date VariableRecord} _ _.
Arguments createTemplate {Date VariableRecord} _ _ _.
Arguments forEachTemplate {Date VariableRecord} _ _ _ _.
Arguments registerRoutes {Date VariableRecord} _ _.
Arguments serve {Date VariableRecord} _ _.
Arguments storageInvariant {Date VariableRecord} _.
Arguments responseStatus {Date VariableRecord} _.
Arguments responseBody {Date VariableRecord} _.
Arguments templateId {VariableRecord} _.
Arguments setProjects {Date VariableRecord} _ _.
Arguments setTemplates {Date VariableRecord} _ _.
Arguments jsonProjects {Date VariableRecord} l.
Arguments jsonProject {Date VariableRecord} p.
Arguments jsonTemplates {Date VariableRecord} l.
Arguments jsonTemplate {Date VariableRecord} t.
Arguments jsonMessage {Date VariableRecord} message.
Arguments emptyBody {Date VariableRecord}.
Arguments json {Date VariableRecord} _.
Arguments statusJson {Date VariableRecord} _ _.
Arguments GetProjects {Date VariableRecord}.
Arguments GetProject {Date VariableRecord} id.
Arguments PostProject {Date VariableRecord} uuid now body.
Arguments PutProject {Date VariableRecord} now id body.
Arguments DeleteProject {Date VariableRecord} id.
Arguments GetTemplates {Date VariableRecord} category.
Arguments GetTemplate {Date VariableRecord} id.
Arguments PostTemplate {Date VariableRecord} uuid body.
Arguments insertName {VariableRecord} _.
Arguments insertDescription {VariableRecord} _.
Arguments insertCode {VariableRecord} _.
Arguments insertLanguage {VariableRecord} _.
Arguments insertVariables {VariableRecord} _.
Arguments updatesName {VariableRecord} _.
Arguments updatesDescription {VariableRecord} _.
Arguments updatesCode {VariableRecord} _.
Arguments updatesLanguage {VariableRecord} _.
Arguments updatesVariables {VariableRecord} _.
Arguments insertTemplateName {VariableRecord} _.
Arguments insertTemplateCategory {VariableRecord} _.
Arguments insertTemplateDescription {VariableRecord} _.
Arguments insertTemplateCode {VariableRecord} _.
Arguments insertTemplateLanguage {VariableRecord} _.
Arguments insertTemplateVariables {VariableRecord} _.
Arguments insertTemplateIsBuiltIn {VariableRecord} _.

(** ** The built-in templates ([seedTemplates]) *)

Section BuiltInTemplates.

(** The type of [number]; no function below computes with it. *)
Variable Number : Type.

Inductive VariableValue : Type :=
| stringValue (s : string)
| numberValue (n : Number)
| booleanValue (b : bool).

(** The type [Variable] of [shared/schema.ts]. *)
Record PlcVariable := {
  variableName : string;
  variableType : string;
  variableValue : option VariableValue;
  variableDescription : option string;
  variableAddress : option string
}.

(** [{ name, type, description }]. *)
Definition describedVariable (name type description : string) : PlcVariable :=
  {| variableName := name;
     variableType := type;
     variableValue := None;
     variableDescription := Some description;
     variableAddress := None |}.

Definition motorStartStopCode : string :=
  joinLines
    [ "PROGRAM MotorControl";
      "VAR";
      "    start_button : BOOL;";
      "    stop_button : BOOL;";
      "    motor_running : BOOL;";
      "    motor_output : BOOL;";
      "END_VAR";
      EmptyString;
      "// Motor control logic";
      "IF start_button AND NOT stop_button THEN";
      "    motor_running := TRUE;";
      "ELSIF stop_button THEN";
      "    motor_running := FALSE;";
      "END_IF;";
      EmptyString;
      "motor_output := motor_running;";
      EmptyString;
      "END_PROGRAM" ].

Definition motorStartStop : InsertTemplate PlcVariable :=
  {| insertTemplateName := "Motor Start/Stop";
     insertTemplateCategory := "motor_control";
     insertTemplateDescription := Defined "Basic motor control with start/stop functionality";
     insertTemplateCode := motorStartStopCode;
     insertTemplateLanguage := Defined "structured_text";
     insertTemplateVariables :=
       Defined
         [ describedVariable "start_button" "BOOL" "Motor start button input";
           describedVariable "stop_button" "BOOL" "Motor stop button input";
           describedVariable "motor_running" "BOOL" "Motor running status";
           describedVariable "motor_output" "BOOL" "Motor control output" ];
     insertTemplateIsBuiltIn := Defined true |}.

Definition tankLevelControlCode : string :=
  joinLines
    [ "PROGRAM TankLevelControl";
      "VAR";
      "    tank_level : REAL;";
      "    high_level_alarm : BOOL;";
      "    low_level_alarm : BOOL;";
      "    fill_valve : BOOL;";
      "    drain_valve : BOOL;";
      "    high_setpoint : REAL := 90.0;";
      "    low_setpoint : REAL := 10.0;";
      "END_VAR";
      EmptyString;
      "// High level alarm";
      "IF tank_level > high_setpoint THEN";
      "    high_level_alarm := TRUE;";
      "    fill_valve := FALSE;";
      "ELSE";
      "    high_level_alarm := FALSE;";
      "END_IF;";
      EmptyString;
      "// Low level alarm";
      "IF tank_level < low_setpoint THEN";
      "    low_level_alarm := TRUE;";
      "    drain_valve := FALSE;";
      "ELSE";
      "    low_level_alarm := FALSE;";
      "END_IF;";
      EmptyString;
      "END_PROGRAM" ].

Definition tankLevelControl : InsertTemplate PlcVariable :=
  {| insertTemplateName := "Tank Level Control";
     insertTemplateCategory := "valve_control";
     insertTemplateDescription := Defined "Tank level control with high/low alarms";
     insertTemplateCode := tankLevelControlCode;
     insertTemplateLanguage := Defined "structured_text";
     insertTemplateVariables :=
       Defined
         [ describedVariable "tank_level" "REAL" "Current tank level";
           describedVariable "high_level_alarm" "BOOL" "High level alarm output";
           describedVariable "low_level_alarm" "BOOL" "Low level alarm output";
           describedVariable "fill_valve" "BOOL" "Fill valve control";
           describedVariable "drain_valve" "BOOL" "Drain valve control" ];
     insertTemplateIsBuiltIn := Defined true |}.

Definition conveyorSystemCode : string :=
  joinLines
    [ "PROGRAM ConveyorControl";
      "VAR";
      "    conveyor_start : BOOL;";
      "    conveyor_stop : BOOL;";
      "    emergency_stop : BOOL;";
      "    safety_guard : BOOL;";
      "    conveyor_motor : BOOL;";
      "    conveyor_running : BOOL;";
      "END_VAR";
      EmptyString;
      "// Safety interlocks";
      "IF NOT emergency_stop AND safety_guard THEN";
      "    // Normal operation";
      "    IF conveyor_start AND NOT conveyor_stop THEN";
      "        conveyor_running := TRUE;";
      "    ELSIF conveyor_stop THEN";
      "        conveyor_running := FALSE;";
      "    END_IF;";
      "ELSE";
      "    // Safety stop";
      "    conveyor_running := FALSE;";
      "END_IF;";
      EmptyString;
      "conveyor_motor := conveyor_running;";
      EmptyString;
      "END_PROGRAM" ].

Definition conveyorSystem : InsertTemplate PlcVariable :=
  {| insertTemplateName := "Conveyor System";
     insertTemplateCategory := "conveyor";
     insertTemplateDescription := Defined "Basic conveyor belt control with safety interlocks";
     insertTemplateCode := conveyorSystemCode;
     insertTemplateLanguage := Defined "structured_text";
     insertTemplateVariables :=
       Defined
         [ describedVariable "conveyor_start" "BOOL" "Conveyor start button";
           describedVariable "conveyor_stop" "BOOL" "Conveyor stop button";
           describedVariable "emergency_stop" "BOOL" "Emergency stop button";
           describedVariable "safety_guard" "BOOL" "Safety guard status";
           describedVariable "conveyor_motor" "BOOL" "Conveyor motor output" ];
     insertTemplateIsBuiltIn := Defined true |}.

Definition builtInTemplates : list (InsertTemplate PlcVariable) :=
  [motorStartStop; tankLevelControl; conveyorSystem].

Variable Date : Type.

(** [seedTemplates]; [randomUUID k] is the value of the [k]-th call of
    [randomUUID()]. *)
Definition seedTemplates (randomUUID : nat -> string)
    (st : MemStorage Date PlcVariable) : MemStorage Date PlcVariable :=
  forEachTemplate randomUUID 0 builtInTemplates st.

(** [new MemStorage()]. *)
Definition newMemStorage (randomUUID : nat -> string)
  : MemStorage Date PlcVariable :=
  seedTemplates randomUUID emptyStorage.

End BuiltInTemplates.

Arguments seedTemplates {Number Date} _ _.
Arguments newMemStorage {Number Date} _.
Arguments builtInTemplates {Number}.
Arguments motorStartStop {Number}.
Arguments tankLevelControl {Number}.
Arguments conveyorSystem {Number}.

(** A store that just started, and its templates as the panel receives
    them. *)
Definition storeExample : MemStorage unit (PlcVariable unit) :=
  newMemStorage numberToString.

Definition searchExample : list (Template (PlcVariable unit)) :=
  getAllTemplates storeExample.

(** A [PUT] body that only clears the description. *)
Definition updatesExample : ProjectUpdates (PlcVariable unit) :=
  {| updatesName := None;
     updatesDescription := Null;
     updatesCode := Undefined;
     updatesLanguage := Undefined;
     updatesVariables := Undefined |}.

(** A [POST] body with a name and an empty description. *)
Definition insertExample : InsertProject (PlcVariable unit) :=
  {| insertName := "Pump station";
     insertDescription := Defined EmptyString;
     insertCode := Undefined;
     insertLanguage := Defined "structured_text";
     insertVariables := Defined [] |}.

(** ** Further examples and notions used in the statements *)

(** A section in which one name starts with [var] and one does not. *)
Definition varNameExample : string :=
  joinLines ["VAR"; "var_speed : REAL;"; "speed : REAL;"; "END_VAR"].

(** Two raw lines the callback cannot tell apart: equal after trimming,
    or both skipped. *)
Definition alikeLines (a b : string) : Prop :=
  trim a = trim b \/ (skipLine (trim a) = true /\ skipLine (trim b) = true).

(** The same program, once bare and once indented, with other
    comments. *)
Definition bareExample : string := joinLines ["x := (1;"; "// first"].

Definition indentedExample : string :=
  joinLines ["    x := (1;  "; (commentOpen ++ " second " ++ commentClose)%string].


(** * Properties *)

(** ** How [results] evolves *)

Section Grows.

Variables P Q : ValidationResult -> Prop.

Lemma safetyLe_refl c : safetyLe c c.
Proof. unfold safetyLe; tauto. Qed.

Lemma safetyLe_trans c1 c2 c3 :
  safetyLe c1 c2 -> safetyLe c2 c3 -> safetyLe c1 c3.
Proof. unfold safetyLe; tauto. Qed.

Lemma grows_same r r' :
  errors r' = errors r -> isValid r' = isValid r ->
  warnings r' = warnings r -> suggestions r' = suggestions r ->
  safetyLe (safetyChecks r) (safetyChecks r') ->
  grows P Q r r'.
Proof.
  intros He Hv Hw Hg Hs; split; trivial.
  - exists []; rewrite app_nil_r, He, Hv, andb_true_r; auto.
  - exists []; rewrite app_nil_r; auto.
  - exists []; rewrite app_nil_r; auto.
Qed.

Lemma grows_refl r : grows P Q r r.
Proof. apply grows_same; auto using safetyLe_refl. Qed.

Lemma grows_trans r1 r2 r3 : grows P Q r1 r2 -> grows P Q r2 r3 -> grows P Q r1 r3.
Proof.
  intros [(es1 & E1 & F1 & V1) (ws1 & W1 & G1) (ss1 & U1 & H1) S1]
         [(es2 & E2 & F2 & V2) (ws2 & W2 & G2) (ss2 & U2 & H2) S2].
  split.
  - exists (es1 ++ es2); repeat split.
    + now rewrite E2, E1, app_assoc.
    + apply Forall_app; auto.
    + rewrite V2, V1; destruct es1; simpl; now rewrite ?andb_false_r, ?andb_true_r.
  - exists (ws1 ++ ws2); split.
    + now rewrite W2, W1, app_assoc.
    + apply Forall_app; auto.
  - exists (ss1 ++ ss2); split.
    + now rewrite U2, U1, app_assoc.
    + apply Forall_app; auto.
  - eapply safetyLe_trans; eauto.
Qed.

Lemma grows_error e r : P e -> grows P Q r (setIsValid false (pushError e r)).
Proof.
  intro He; split; simpl.
  - exists [e]; repeat split; auto. now rewrite andb_false_r.
  - exists []; now rewrite app_nil_r.
  - exists []; now rewrite app_nil_r.
  - apply safetyLe_refl.
Qed.

Lemma grows_warning w r : warningResult w -> grows P Q r (pushWarning w r).
Proof.
  intro Hw; split; simpl.
  - exists []; rewrite app_nil_r, andb_true_r; auto.
  - exists [w]; auto.
  - exists []; now rewrite app_nil_r.
  - apply safetyLe_refl.
Qed.

Lemma grows_safetyChecks c r :
  safetyLe (safetyChecks r) c -> grows P Q r (setSafetyChecks c r).
Proof. intro; apply grows_same; auto. Qed.

Lemma grows_iecCompliance c r : grows P Q r (setIecCompliance c r).
Proof. apply grows_same; auto using safetyLe_refl. Qed.

End Grows.

Lemma lineError_syntaxError e : lineError e -> syntaxError e.
Proof. now intros [H _]. Qed.

(** ** Rules that only touch [results] *)

Lemma ro_skip st :
  exists f, st = onResults f st /\ forall r, grows lineError noResult r (f r).
Proof.
  exists (fun r => r); split; [now destruct st | intro; apply grows_refl].
Qed.

Lemma ro_reportError e st :
  lineError e ->
  exists f, reportError e st = onResults f st /\ forall r, grows lineError noResult r (f r).
Proof.
  intro He; exists (fun r => setIsValid false (pushError e r)); split;
    [reflexivity | intro; now apply grows_error].
Qed.

Lemma ro_reportWarning w st :
  warningResult w ->
  exists f, reportWarning w st = onResults f st /\ forall r, grows lineError noResult r (f r).
Proof.
  intro Hw; exists (pushWarning w); split;
    [reflexivity | intro; now apply grows_warning].
Qed.

Lemma ro_onSafety g st :
  (forall c, safetyLe c (g c)) ->
  exists f, onSafety g st = onResults f st /\ forall r, grows lineError noResult r (f r).
Proof.
  intro Hg; eexists; split; [reflexivity | intro; now apply grows_safetyChecks].
Qed.

Lemma ro_onCompliance g st :
  exists f, onCompliance g st = onResults f st /\ forall r, grows lineError noResult r (f r).
Proof.
  eexists; split; [reflexivity | intro; apply grows_iecCompliance].
Qed.

Lemma ro_compose (g h : ScanState -> ScanState) :
  ResultsOnly g -> ResultsOnly h -> ResultsOnly (fun st => g (h st)).
Proof.
  intros Hg Hh st.
  destruct (Hh st) as (fh & Eh & Gh).
  destruct (Hg (h st)) as (fg & Eg & Gg).
  exists (fun r => fg (fh r)); split.
  - rewrite Eg, Eh; reflexivity.
  - intro r; eapply grows_trans; eauto.
Qed.

Section ResultsOnlyFacts.

Context (rule : ScanState -> ScanState) `{ResultsOnly rule}.

Lemma ro_grows st : grows lineError noResult (results st) (results (rule st)).
Proof. destruct (results_only st) as (f & -> & G); apply G. Qed.

Lemma ro_braceCount st : braceCount (rule st) = braceCount st.
Proof. now destruct (results_only st) as (f & -> & _). Qed.

Lemma ro_usedVariables st : usedVariables (rule st) = usedVariables st.
Proof. now destruct (results_only st) as (f & -> & _). Qed.

End ResultsOnlyFacts.

Lemma lineError_intro m n :
  m <> message unmatchedError ->
  lineError (mkResult error m (Some n) critical syntax).
Proof. intro; repeat split; simpl; auto; discriminate. Qed.

Ltac line_error := apply lineError_intro; simpl; discriminate.

Ltac results_only_rule :=
  intro;
  match goal with
  | |- context [if ?c then _ else _] => destruct c
  end;
  first [ apply ro_skip
        | apply ro_reportError; line_error
        | apply ro_reportWarning; reflexivity
        | apply ro_onCompliance
        | apply ro_onSafety; intro; unfold safetyLe; simpl; tauto ].

#[export] Instance checkDataType_ro n ty : ResultsOnly (checkDataType n ty).
Proof. unfold checkDataType; results_only_rule. Qed.

#[export] Instance checkNaming_ro n v : ResultsOnly (checkNaming n v).
Proof.
  unfold checkNaming; intro st; destruct (negb _); [|apply ro_skip].
  apply (ro_compose (onCompliance clearNamingConvention)
                    (reportWarning (namingWarning v n))).
  - intro; apply ro_onCompliance.
  - intro; now apply ro_reportWarning.
Qed.

#[export] Instance checkReserved_ro n v : ResultsOnly (checkReserved n v).
Proof. unfold checkReserved; results_only_rule. Qed.

#[export] Instance checkIf_ro tl ul n : ResultsOnly (checkIf tl ul n).
Proof. unfold checkIf; results_only_rule. Qed.

#[export] Instance checkFor_ro ul n : ResultsOnly (checkFor ul n).
Proof. unfold checkFor; results_only_rule. Qed.

#[export] Instance checkWhile_ro ul n : ResultsOnly (checkWhile ul n).
Proof. unfold checkWhile; results_only_rule. Qed.

#[export] Instance checkCase_ro ul n : ResultsOnly (checkCase ul n).
Proof. unfold checkCase; results_only_rule. Qed.

#[export] Instance checkAssignmentOperator_ro tl ul n :
  ResultsOnly (checkAssignmentOperator tl ul n).
Proof. unfold checkAssignmentOperator; results_only_rule. Qed.

#[export] Instance checkSemicolon_ro tl ul n : ResultsOnly (checkSemicolon tl ul n).
Proof. unfold checkSemicolon; results_only_rule. Qed.

#[export] Instance checkEmergencyStop_ro tl : ResultsOnly (checkEmergencyStop tl).
Proof. unfold checkEmergencyStop; results_only_rule. Qed.

#[export] Instance checkSafetyInterlocks_ro tl : ResultsOnly (checkSafetyInterlocks tl).
Proof. unfold checkSafetyInterlocks; results_only_rule. Qed.

#[export] Instance checkFailSafe_ro tl : ResultsOnly (checkFailSafe tl).
Proof. unfold checkFailSafe; results_only_rule. Qed.

#[export] Instance checkWatchdog_ro tl : ResultsOnly (checkWatchdog tl).
Proof. unfold checkWatchdog; results_only_rule. Qed.

#[export] Instance checkInputValidation_ro tl : ResultsOnly (checkInputValidation tl).
Proof. unfold checkInputValidation; results_only_rule. Qed.

#[export] Instance checkStructure_ro ul : ResultsOnly (checkStructure ul).
Proof. unfold checkStructure; results_only_rule. Qed.

(** ** The remaining rules of the line callback *)

Ltac split_rule :=
  repeat match goal with
         | |- context [if ?c then _ else _] => destruct c
         | |- context [match ?c with Some _ => _ | None => _ end] => destruct c
         | |- context [let (_, _) := ?c in _] => destruct c
         end.

Lemma trackVarStart_grows ul st :
  grows lineError noResult (results st) (results (trackVarStart ul st)).
Proof.
  unfold trackVarStart; split_rule;
    [apply grows_iecCompliance | apply grows_refl].
Qed.

Lemma trackVarEnd_results ul st : results (trackVarEnd ul st) = results st.
Proof. unfold trackVarEnd; now split_rule. Qed.

Lemma trackFunctionBlock_results ul st :
  results (trackFunctionBlock ul st) = results st.
Proof. unfold trackFunctionBlock; now split_rule. Qed.

Lemma trackUsage_results tl st : results (trackUsage tl st) = results st.
Proof. unfold trackUsage; now split_rule. Qed.

Lemma countParentheses_results tl st :
  results (countParentheses tl st) = results st.
Proof. reflexivity. Qed.

Lemma parseDeclaration_grows tl ul n st :
  grows lineError noResult (results st) (results (parseDeclaration tl ul n st)).
Proof.
  unfold parseDeclaration; split_rule; try apply grows_refl.
  do 3 (eapply grows_trans; [|apply (ro_grows _)]).
  apply grows_refl.
Qed.

Lemma processLine_grows tl ul n st :
  grows lineError noResult (results st) (results (processLine tl ul n st)).
Proof.
  unfold processLine.
  rewrite countParentheses_results.
  repeat (eapply grows_trans; [|apply (ro_grows _)]).
  rewrite trackUsage_results.
  repeat (eapply grows_trans; [|apply (ro_grows _)]).
  eapply grows_trans; [|apply parseDeclaration_grows].
  rewrite trackFunctionBlock_results, trackVarEnd_results.
  apply trackVarStart_grows.
Qed.

Lemma lineCallback_grows st rawLine index :
  grows lineError noResult (results st) (results (lineCallback st rawLine index)).
Proof.
  unfold lineCallback; destruct (skipLine _);
    [apply grows_refl | apply processLine_grows].
Qed.

Lemma forEachLine_grows lines :
  forall index st,
    grows lineError noResult (results st) (results (forEachLine lines index st)).
Proof.
  induction lines as [|l ls IH]; intros index st; simpl.
  - apply grows_refl.
  - eapply grows_trans; [apply lineCallback_grows | apply IH].
Qed.

Lemma scan_grows code :
  grows lineError noResult initialResults (results (scan code)).
Proof. apply (forEachLine_grows (splitLines code) 0 initialState). Qed.

(** ** After the line loop *)

Lemma checkUnmatched_fields st :
  errors (results (checkUnmatched st)) = errors (results st) ++ unmatchedErrors st /\
  isValid (results (checkUnmatched st)) = isValid (results st) && (braceCount st =? 0)%Z /\
  warnings (results (checkUnmatched st)) = warnings (results st) /\
  safetyChecks (results (checkUnmatched st)) = safetyChecks (results st) /\
  suggestions (results (checkUnmatched st)) = suggestions (results st) /\
  declaredVariables (checkUnmatched st) = declaredVariables st /\
  usedVariables (checkUnmatched st) = usedVariables st.
Proof.
  unfold checkUnmatched, unmatchedErrors.
  destruct (braceCount st =? 0)%Z; simpl;
    rewrite ?app_nil_r, ?andb_true_r, ?andb_false_r; auto 10.
Qed.

Lemma forEachDeclared_fields vars :
  forall st,
    errors (results (forEachDeclared vars st)) = errors (results st) /\
    isValid (results (forEachDeclared vars st)) = isValid (results st) /\
    safetyChecks (results (forEachDeclared vars st)) = safetyChecks (results st) /\
    suggestions (results (forEachDeclared vars st)) = suggestions (results st) /\
    warnings (results (forEachDeclared vars st)) =
      warnings (results st) ++
      map unusedWarning
          (filter (fun v => negb (setHas (usedVariables st) v)) vars).
Proof.
  induction vars as [|v vs IH]; intro st; simpl.
  - now rewrite app_nil_r.
  - destruct (negb (setHas (usedVariables st) v)); [|apply IH].
    destruct (IH (reportWarning (unusedWarning v) st)) as (E & V & S & G & W).
    rewrite E, V, S, G, W; simpl.
    now rewrite <- app_assoc.
Qed.

Lemma suggestComments_fields code r :
  errors (suggestComments code r) = errors r /\
  isValid (suggestComments code r) = isValid r /\
  warnings (suggestComments code r) = warnings r /\
  safetyChecks (suggestComments code r) = safetyChecks r /\
  suggestions (suggestComments code r) =
    suggestions r ++ (if negb (includes code commentOpen) && negb (includes code "//")
                      then [commentSuggestion] else []).
Proof.
  unfold suggestComments; split_rule; simpl; now rewrite ?app_nil_r.
Qed.

Lemma suggestEmergencyStop_fields r :
  errors (suggestEmergencyStop r) = errors r /\
  isValid (suggestEmergencyStop r) = isValid r /\
  warnings (suggestEmergencyStop r) = warnings r /\
  safetyChecks (suggestEmergencyStop r) = safetyChecks r /\
  suggestions (suggestEmergencyStop r) =
    suggestions r ++ (if negb (emergencyStop (safetyChecks r))
                      then [emergencyStopSuggestion] else []).
Proof.
  unfold suggestEmergencyStop; split_rule; simpl; now rewrite ?app_nil_r.
Qed.

Lemma suggestDecomposition_fields code r :
  errors (suggestDecomposition code r) = errors r /\
  isValid (suggestDecomposition code r) = isValid r /\
  warnings (suggestDecomposition code r) = warnings r /\
  safetyChecks (suggestDecomposition code r) = safetyChecks r /\
  suggestions (suggestDecomposition code r) =
    suggestions r ++ (if (100 <? List.length (splitLines code))%nat
                      then [largeProgramSuggestion] else []).
Proof.
  unfold suggestDecomposition; split_rule; simpl; now rewrite ?app_nil_r.
Qed.

Lemma finalize_fields code st :
  errors (finalize code st) = errors (results st) ++ unmatchedErrors st /\
  isValid (finalize code st) = isValid (results st) && (braceCount st =? 0)%Z /\
  warnings (finalize code st) =
    warnings (results st) ++ map unusedWarning (unusedVariables st) /\
  safetyChecks (finalize code st) = safetyChecks (results st) /\
  suggestions (finalize code st) = suggestions (results st) ++ finalSuggestions code st.
Proof.
  destruct (checkUnmatched_fields st) as (E & V & W & S & G & D & U).
  destruct (forEachDeclared_fields (declaredVariables (checkUnmatched st))
              (checkUnmatched st)) as (E' & V' & S' & G' & W').
  fold (checkUnused (checkUnmatched st)) in *.
  set (r0 := results (checkUnused (checkUnmatched st))) in *.
  destruct (suggestComments_fields code r0) as (E1 & V1 & W1 & S1 & G1).
  set (r1 := suggestComments code r0) in *.
  destruct (suggestEmergencyStop_fields r1) as (E2 & V2 & W2 & S2 & G2).
  set (r2 := suggestEmergencyStop r1) in *.
  destruct (suggestDecomposition_fields code r2) as (E3 & V3 & W3 & S3 & G3).
  unfold finalize, calculateScores, unusedVariables, finalSuggestions; simpl.
  fold r0; fold r1; fold r2.
  rewrite E3, E2, E1, E', E, V3, V2, V1, V', V, W3, W2, W1, W', W, U, D,
    S3, S2, G3, G2, S1, G1, S', S, G', G.
  now rewrite <- !app_assoc.
Qed.

(** The three scores are those computed from the returned lists and
    flags. *)
Lemma finalize_scores code st :
  syntaxScore (finalize code st) =
    Z.max 0 (100 - Z.of_nat (List.length (errors (finalize code st))) * 15
                 - Z.of_nat (List.length (warnings (finalize code st))) * 5) /\
  logicScore (finalize code st) =
    Z.max 0 (100 - Z.of_nat (List.length (semanticsErrors (finalize code st))) * 20) /\
  safetyScore (finalize code st) =
    Z.min 100 (countTrue (safetyChecks (finalize code st)) * 20).
Proof.
  unfold finalize, calculateScores, suggestDecomposition,
    suggestEmergencyStop, suggestComments, semanticsErrors.
  split_rule; simpl; auto.
Qed.

Lemma unmatchedError_syntaxError : syntaxError unmatchedError.
Proof. repeat split. Qed.

Lemma finalSuggestions_info code st : Forall infoResult (finalSuggestions code st).
Proof.
  unfold finalSuggestions; split_rule; repeat constructor.
Qed.

(** From any state of the loop to the report. *)
Lemma scan_reaches_report code st1 :
  grows lineError noResult (results st1) (results (scan code)) ->
  grows syntaxError infoResult (results st1) (performSTValidation code).
Proof.
  intros [(es & E1 & F1 & V1) (ws & W1 & G1) (ss & U1 & H1) S1].
  destruct (finalize_fields code (scan code)) as (E & V & W & S & U).
  fold (performSTValidation code) in *.
  split.
  - exists (es ++ unmatchedErrors (scan code)); repeat split.
    + now rewrite E, E1, app_assoc.
    + apply Forall_app; split.
      * eapply Forall_impl; [|exact F1]. apply lineError_syntaxError.
      * unfold unmatchedErrors; destruct (negb _); auto using unmatchedError_syntaxError.
    + rewrite V, V1; unfold unmatchedErrors.
      destruct es, (braceCount (scan code) =? 0)%Z; simpl;
        now rewrite ?andb_true_r, ?andb_false_r.
  - exists (ws ++ map unusedWarning (unusedVariables (scan code))); split.
    + now rewrite W, W1, app_assoc.
    + apply Forall_app; split; auto.
      apply Forall_forall; intros w Hw; apply in_map_iff in Hw.
      now destruct Hw as (v & <- & _).
  - exists (ss ++ finalSuggestions code (scan code)); split.
    + now rewrite U, U1, app_assoc.
    + apply Forall_app; split; [|apply finalSuggestions_info].
      eapply Forall_impl; [|exact H1]. intros ? [].
  - now rewrite S.
Qed.

(** The report grows out of the initial one by syntax errors only. *)
Lemma performSTValidation_grows code :
  grows syntaxError infoResult initialResults (performSTValidation code).
Proof. apply (scan_reaches_report code initialState), scan_grows. Qed.

Lemma performSTValidation_errors code :
  Forall syntaxError (errors (performSTValidation code)).
Proof.
  destruct (performSTValidation_grows code) as [(es & E & F & _) _ _ _].
  now rewrite E.
Qed.

Lemma performSTValidation_no_semantics code :
  semanticsErrors (performSTValidation code) = [].
Proof.
  unfold semanticsErrors.
  pose proof (performSTValidation_errors code) as F.
  induction F as [|e es (_ & _ & C) _ IH]; simpl; auto.
  now rewrite C.
Qed.

Lemma countTrue_bounds c : (0 <= countTrue c <= 5)%Z.
Proof.
  unfold countTrue.
  destruct c as [[] [] [] [] []]; simpl; lia.
Qed.

(** ** Validity, errors and scores *)

(** C1.  For every source text the returned report has
    [isValid == (errors.length == 0)]: [isValid] is true exactly when the
    list of errors is empty. *)
Theorem isValid_iff_no_errors (code : string) :
  isValid (performSTValidation code)
  = (List.length (errors (performSTValidation code)) =? 0)%nat
  /\ (isValid (performSTValidation code) = true
      <-> errors (performSTValidation code) = []).
Proof.
  destruct (performSTValidation_grows code) as [(es & E & _ & V) _ _ _].
  rewrite E, V.
  destruct es; simpl; split; try reflexivity; split; intro; congruence.
Qed.

(** C3.  For every source text the returned report has
    [logicScore = 100]: no rule produces an error of category
    [semantics], and [logicScore] is [max(0, 100 - 20 * n)] for [n] the
    number of errors of that category. *)
Theorem logicScore_always_100 (code : string) :
  logicScore (performSTValidation code) = 100%Z
  /\ Forall (fun e => category e <> semantics) (errors (performSTValidation code))
  /\ logicScore (performSTValidation code)
     = Z.max 0 (100 - 20 * Z.of_nat
         (List.length
            (filter (fun e => categoryEqb (category e) semantics)
                    (errors (performSTValidation code))))).
Proof.
  destruct (finalize_scores code (scan code)) as (_ & L & _).
  pose proof (performSTValidation_no_semantics code) as N.
  fold (performSTValidation code) in L.
  repeat split.
  - now rewrite L, N.
  - eapply Forall_impl; [|apply performSTValidation_errors].
    intros e (_ & _ & C); rewrite C; discriminate.
  - rewrite L; unfold semanticsErrors; f_equal; lia.
Qed.

Lemma countTrue_flags c :
  countTrue c
  = (Z.b2z (emergencyStop c) + Z.b2z (safetyInterlocks c)
     + Z.b2z (failSafeMechanisms c) + Z.b2z (watchdogTimer c)
     + Z.b2z (inputValidation c))%Z.
Proof. destruct c as [[] [] [] [] []]; reflexivity. Qed.

(** C4.  For every source text, [syntaxScore] is
    [max(0, 100 - 15 * |errors| - 5 * |warnings|)], [safetyScore] is
    [min(100, 20 * n)] for [n] the number of true flags among the five
    of the safety audit, each counting one, and the three scores are
    integers between 0 and 100; with exactly two errors and one warning,
    [syntaxScore] is 65 and [logicScore] is 100. *)
Theorem score_arithmetic (code : string) :
  let r := performSTValidation code in
  syntaxScore r
    = Z.max 0 (100 - 15 * Z.of_nat (List.length (errors r))
                   - 5 * Z.of_nat (List.length (warnings r)))
  /\ safetyScore r
     = Z.min 100
         (20 * (Z.b2z (emergencyStop (safetyChecks r))
                + Z.b2z (safetyInterlocks (safetyChecks r))
                + Z.b2z (failSafeMechanisms (safetyChecks r))
                + Z.b2z (watchdogTimer (safetyChecks r))
                + Z.b2z (inputValidation (safetyChecks r))))
  /\ (0 <= syntaxScore r <= 100)%Z
  /\ (0 <= logicScore r <= 100)%Z
  /\ (0 <= safetyScore r <= 100)%Z
  /\ (List.length (errors r) = 2 -> List.length (warnings r) = 1 ->
      syntaxScore r = 65%Z /\ logicScore r = 100%Z).
Proof.
  cbv zeta.
  destruct (finalize_scores code (scan code)) as (Sy & Lo & Sa).
  pose proof (performSTValidation_no_semantics code) as N.
  pose proof (countTrue_bounds (safetyChecks (performSTValidation code))) as B.
  pose proof (countTrue_flags (safetyChecks (performSTValidation code))) as C.
  unfold performSTValidation in *.
  rewrite N in Lo; change (Z.of_nat (List.length [])) with 0%Z in Lo.
  rewrite <- C.
  split; [|split; [|split; [|split; [|split]]]]; try lia.
Qed.

(** A source text with two errors and one warning, and one that sets
    two of the five flags. *)
Lemma score_arithmetic_witness :
  List.length (errors (performSTValidation scenarioA)) = 2
  /\ List.length (warnings (performSTValidation scenarioA)) = 1
  /\ syntaxScore (performSTValidation scenarioA) = 65%Z
  /\ logicScore (performSTValidation scenarioA) = 100%Z
  /\ safetyChecks (performSTValidation safetyDoorExample)
     = {| emergencyStop := true; safetyInterlocks := true;
          failSafeMechanisms := false; watchdogTimer := false;
          inputValidation := false |}
  /\ safetyScore (performSTValidation safetyDoorExample) = 40%Z.
Proof.
  assert (E : List.length (errors (performSTValidation scenarioA)) = 2)
    by (vm_compute; reflexivity).
  assert (W : List.length (warnings (performSTValidation scenarioA)) = 1)
    by (vm_compute; reflexivity).
  assert (F : safetyChecks (performSTValidation safetyDoorExample)
              = {| emergencyStop := true; safetyInterlocks := true;
                   failSafeMechanisms := false; watchdogTimer := false;
                   inputValidation := false |})
    by (vm_compute; reflexivity).
  pose proof (score_arithmetic scenarioA) as H; cbv zeta in H.
  destruct H as (_ & _ & _ & _ & _ & H); destruct (H E W) as (H1 & H2).
  pose proof (score_arithmetic safetyDoorExample) as D; cbv zeta in D.
  destruct D as (_ & D & _); rewrite F in D.
  split; [exact E | split; [exact W | split; [exact H1 | split; [exact H2|]]]].
  split; [exact F | exact D].
Defined.

(** C2, as the specification states it: on scenario A the report holds
    exactly one error, of category syntax and severity critical, about a
    reserved word, and [isValid] is false.  It does not hold: the report
    has two errors. *)
Lemma scenarioA_not_a_single_error :
  ~ (exists e,
        errors (performSTValidation scenarioA) = [e]
        /\ category e = syntax /\ severity e = critical
        /\ includes (message e) "reserved word" = true
        /\ isValid (performSTValidation scenarioA) = false).
Proof. intros (e & E & _); vm_compute in E; discriminate. Qed.

(** C2, amended.  On scenario A the report is invalid and holds exactly
    two errors, both on line 2, of category syntax and severity critical:
    the reserved-word error for [IF], then the error of the IF rule, which
    also fires on the declaration line. *)
Theorem scenarioA_report :
  errors (performSTValidation scenarioA)
    = [reservedWordError "IF" 2; ifThenError 2]
  /\ isValid (performSTValidation scenarioA) = false
  /\ Forall (fun e => type e = error /\ category e = syntax
                      /\ severity e = critical /\ line e = Some 2)
            (errors (performSTValidation scenarioA))
  /\ message (reservedWordError "IF" 2)
     = "'IF' is a reserved word and cannot be used as variable name"
  /\ includes (message (reservedWordError "IF" 2)) "reserved word" = true
  /\ message (ifThenError 2) = "IF statement must be followed by THEN".
Proof.
  assert (E : errors (performSTValidation scenarioA)
              = [reservedWordError "IF" 2; ifThenError 2]) by reflexivity.
  split; [exact E|].
  split; [reflexivity|].
  split; [rewrite E; repeat constructor|].
  repeat split.
Qed.

(** ** The parenthesis counter *)

Lemma trackVarStart_braceCount ul st : braceCount (trackVarStart ul st) = braceCount st.
Proof. unfold trackVarStart; now split_rule. Qed.

Lemma trackVarEnd_braceCount ul st : braceCount (trackVarEnd ul st) = braceCount st.
Proof. unfold trackVarEnd; now split_rule. Qed.

Lemma trackFunctionBlock_braceCount ul st :
  braceCount (trackFunctionBlock ul st) = braceCount st.
Proof. unfold trackFunctionBlock; now split_rule. Qed.

Lemma trackUsage_braceCount tl st : braceCount (trackUsage tl st) = braceCount st.
Proof. unfold trackUsage; now split_rule. Qed.

Lemma parseDeclaration_braceCount tl ul n st :
  braceCount (parseDeclaration tl ul n st) = braceCount st.
Proof.
  unfold parseDeclaration; split_rule; trivial.
  now rewrite !(ro_braceCount _).
Qed.

Lemma processLine_braceCount tl ul n st :
  braceCount (processLine tl ul n st)
  = (braceCount st + countChar "(" tl - countChar ")" tl)%Z.
Proof.
  unfold processLine, countParentheses; simpl.
  rewrite !(ro_braceCount _), trackUsage_braceCount, !(ro_braceCount _).
  now rewrite parseDeclaration_braceCount, trackFunctionBlock_braceCount,
    trackVarEnd_braceCount, trackVarStart_braceCount.
Qed.

Lemma lineCallback_braceCount st rawLine index :
  braceCount (lineCallback st rawLine index) = (braceCount st + lineBalance rawLine)%Z.
Proof.
  unfold lineCallback, lineBalance; destruct (skipLine _).
  - lia.
  - rewrite processLine_braceCount; lia.
Qed.

Lemma forEachLine_braceCount lines :
  forall index st,
    braceCount (forEachLine lines index st)
    = (braceCount st
       + fold_right (fun rawLine acc => (lineBalance rawLine + acc)%Z) 0%Z lines)%Z.
Proof.
  induction lines as [|l ls IH]; intros index st; simpl.
  - lia.
  - rewrite IH, lineCallback_braceCount; lia.
Qed.

Lemma scan_braceCount code : braceCount (scan code) = parenthesisBalance code.
Proof. unfold scan; now rewrite forEachLine_braceCount. Qed.

(** C5.  Whenever the parenthesis balance of the processed lines is not
    zero, the report is invalid and its last error is the document-level
    one: message [Unmatched parentheses in code] (the specification
    quotes it in lower case), category syntax, severity critical, no line
    number; every other error carries a line number and another message,
    so the report holds exactly one such error.  On [x := (a + b;] it is
    the only error. *)
Theorem unmatched_parentheses_error :
  (forall code,
      parenthesisBalance code <> 0%Z ->
      isValid (performSTValidation code) = false
      /\ In unmatchedError (errors (performSTValidation code))
      /\ exists es,
           errors (performSTValidation code) = es ++ [unmatchedError]
           /\ Forall (fun e => line e <> None
                               /\ message e <> message unmatchedError) es)
  /\ (errors (performSTValidation scenarioB) = [unmatchedError]
      /\ isValid (performSTValidation scenarioB) = false)
  /\ (type unmatchedError = error
      /\ message unmatchedError = "Unmatched parentheses in code"
      /\ toUpperCase (message unmatchedError)
         = toUpperCase "unmatched parentheses in code"
      /\ category unmatchedError = syntax
      /\ severity unmatchedError = critical
      /\ line unmatchedError = None).
Proof.
  split; [|split; [split; vm_compute; reflexivity
                  | do 5 (split; [vm_compute; reflexivity|]); reflexivity]].
  intros code Hb.
  destruct (finalize_fields code (scan code)) as (E & V & _).
  fold (performSTValidation code) in E, V.
  destruct (scan_grows code) as [(es & E1 & F1 & _) _ _ _].
  rewrite <- scan_braceCount in Hb.
  apply Z.eqb_neq in Hb.
  unfold unmatchedErrors in E; rewrite Hb in E, V.
  change (if negb false then [unmatchedError] else []) with [unmatchedError] in E.
  rewrite E, V, andb_false_r.
  split; [reflexivity|].
  split; [apply in_or_app; right; now left|].
  exists (errors (results (scan code))); split; [reflexivity|].
  rewrite E1.
  eapply Forall_impl; [|exact F1].
  now intros e (_ & L & M).
Qed.

(** The balance of scenario B is one. *)
Lemma unmatched_parentheses_error_witness :
  parenthesisBalance scenarioB <> 0%Z
  /\ isValid (performSTValidation scenarioB) = false
  /\ In unmatchedError (errors (performSTValidation scenarioB)).
Proof.
  assert (H : parenthesisBalance scenarioB <> 0%Z) by (vm_compute; discriminate).
  split; [exact H|].
  destruct (proj1 unmatched_parentheses_error scenarioB H) as (V & I & _).
  split; assumption.
Defined.

(** ** Diagnostics and flags persist *)

Lemma grows_In_warning P Q r r' w :
  grows P Q r r' -> In w (warnings r) -> In w (warnings r').
Proof.
  intros [_ (ws & W & _) _ _] H; rewrite W; apply in_or_app; now left.
Qed.

(** The state in which the callback runs on line [i], and the growth of
    [results] from there to the end of the loop. *)
Lemma forEachLine_nth lines :
  forall index st i rawLine,
    nth_error lines i = Some rawLine ->
    exists st1,
      grows lineError noResult (results (lineCallback st1 rawLine (index + i)))
            (results (forEachLine lines index st)).
Proof.
  induction lines as [|l ls IH]; intros index st [|i] rawLine H; simpl in H;
    try discriminate.
  - injection H as ->; exists st; rewrite Nat.add_0_r; simpl.
    apply forEachLine_grows.
  - destruct (IH (S index) (lineCallback st l index) i rawLine H) as (st1 & G).
    exists st1; simpl.
    now replace (index + S i) with (S index + i) by lia.
Qed.

(** Every processed line leaves its trace in the report. *)
Lemma processed_line_reaches_report code i rawLine :
  nth_error (splitLines code) i = Some rawLine ->
  skipLine (trim rawLine) = false ->
  exists st1,
    grows syntaxError infoResult
      (results (processLine (trim rawLine) (toUpperCase (trim rawLine)) (i + 1) st1))
      (performSTValidation code).
Proof.
  intros Hn Hs.
  destruct (forEachLine_nth (splitLines code) 0 initialState i rawLine Hn)
    as (st1 & G).
  exists st1; apply scan_reaches_report.
  unfold lineCallback in G; now rewrite Hs in G.
Qed.

(** ** The assignment-operator rule *)

Lemma checkAssignmentOperator_fires tl ul n st :
  assignmentCondition tl ul = true ->
  In (assignmentWarning n)
     (warnings (results (checkAssignmentOperator tl ul n st))).
Proof.
  intro H; unfold checkAssignmentOperator; rewrite H; simpl.
  apply in_or_app; right; now left.
Qed.

Lemma processLine_assignmentWarning tl ul n st :
  assignmentCondition tl ul = true ->
  In (assignmentWarning n) (warnings (results (processLine tl ul n st))).
Proof.
  intro H; unfold processLine.
  rewrite countParentheses_results.
  do 6 (eapply grows_In_warning; [apply (ro_grows _)|]).
  rewrite trackUsage_results.
  eapply grows_In_warning; [apply (ro_grows (checkSemicolon tl ul n))|].
  now apply checkAssignmentOperator_fires.
Qed.

(** C6, as the specification states it: a processed line that holds a
    bare [=] outside [:=], [<=], [>=] and is not an IF line gets the
    warning.  It does not hold: in [y := x = 1;] the second [=] is bare,
    the line is processed and is no IF line, and the report has no
    warning at all, because the rule is silent as soon as the line holds
    [:=] anywhere. *)
Lemma bare_equals_without_warning :
  let rawLine := "y := x = 1;" in
  nth_error (splitLines rawLine) 0 = Some rawLine
  /\ skipLine (trim rawLine) = false
  /\ hasBareEquals (trim rawLine) = true
  /\ includes (toUpperCase (trim rawLine)) "IF " = false
  /\ warnings (performSTValidation rawLine) = []
  /\ ~ In (assignmentWarning 1) (warnings (performSTValidation rawLine)).
Proof.
  cbv zeta.
  assert (W : warnings (performSTValidation "y := x = 1;") = [])
    by (vm_compute; reflexivity).
  rewrite W.
  split; [vm_compute; reflexivity|].
  split; [vm_compute; reflexivity|].
  split; [vm_compute; reflexivity|].
  split; [vm_compute; reflexivity|].
  split; [reflexivity | intros []].
Qed.

(** C6, amended.  Every processed line that holds [=] and holds none of
    [:=], [<=], [>=], [<>] anywhere, and whose upper-cased text does not
    hold [IF ] (this is [assignmentCondition]), adds to the report a
    warning with its line number, category syntax, severity medium and
    message [Use := for assignment, = is for comparison] (the
    specification quotes it in lower case); the rule that pushes it
    leaves [isValid] and [errors] as they are. *)
Theorem assignment_operator_warning :
  (forall code i rawLine,
      nth_error (splitLines code) i = Some rawLine ->
      skipLine (trim rawLine) = false ->
      includes (trim rawLine) "=" = true ->
      includes (trim rawLine) ":=" = false ->
      includes (trim rawLine) "<=" = false ->
      includes (trim rawLine) ">=" = false ->
      includes (trim rawLine) "<>" = false ->
      includes (toUpperCase (trim rawLine)) "IF " = false ->
      In (assignmentWarning (i + 1)) (warnings (performSTValidation code)))
  /\ (forall n,
        type (assignmentWarning n) = warning
        /\ category (assignmentWarning n) = syntax
        /\ severity (assignmentWarning n) = medium
        /\ line (assignmentWarning n) = Some n
        /\ message (assignmentWarning n) = "Use := for assignment, = is for comparison"
        /\ toUpperCase (message (assignmentWarning n))
           = toUpperCase "use := for assignment, = is for comparison")
  /\ (forall tl ul n st,
        isValid (results (checkAssignmentOperator tl ul n st)) = isValid (results st)
        /\ errors (results (checkAssignmentOperator tl ul n st)) = errors (results st)).
Proof.
  split; [|split].
  - intros code i rawLine Hn Hs H1 H2 H3 H4 H5 H6.
    destruct (processed_line_reaches_report code i rawLine Hn Hs) as (st1 & G).
    eapply grows_In_warning; [exact G|].
    apply processLine_assignmentWarning.
    unfold assignmentCondition; now rewrite H1, H2, H3, H4, H5, H6.
  - intro n; do 5 (split; [reflexivity|]).
    vm_compute; reflexivity.
  - intros tl ul n st; unfold checkAssignmentOperator.
    destruct (assignmentCondition tl ul); split; reflexivity.
Qed.

(** Line 4 of scenario C. *)
Lemma assignment_operator_warning_witness :
  In (assignmentWarning 4) (warnings (performSTValidation scenarioC))
  /\ isValid (performSTValidation scenarioC) = true.
Proof.
  split; [|reflexivity].
  apply (proj1 assignment_operator_warning scenarioC 3 "a = TRUE;");
    reflexivity.
Defined.

(** ** The set of used variables *)

Lemma setHas_In s x : setHas s x = true <-> In x s.
Proof.
  unfold setHas; rewrite existsb_exists; split.
  - intros (y & Hy & E); apply String.eqb_eq in E; now subst.
  - intro H; exists x; split; [assumption | apply String.eqb_refl].
Qed.

Lemma In_setAdd s x u : In u (setAdd s x) <-> In u s \/ u = x.
Proof.
  unfold setAdd; destruct (setHas s x) eqn:E.
  - apply setHas_In in E; split; [now left | intros [H | ->]; assumption].
  - rewrite in_app_iff; simpl; split;
      [intros [H | [H | []]]; auto | intros [H | ->]; auto].
Qed.

Lemma trackVarStart_usedVariables ul st :
  usedVariables (trackVarStart ul st) = usedVariables st.
Proof. unfold trackVarStart; now split_rule. Qed.

Lemma trackVarEnd_usedVariables ul st :
  usedVariables (trackVarEnd ul st) = usedVariables st.
Proof. unfold trackVarEnd; now split_rule. Qed.

Lemma trackFunctionBlock_usedVariables ul st :
  usedVariables (trackFunctionBlock ul st) = usedVariables st.
Proof. unfold trackFunctionBlock; now split_rule. Qed.

Lemma parseDeclaration_usedVariables tl ul n st :
  usedVariables (parseDeclaration tl ul n st) = usedVariables st.
Proof.
  unfold parseDeclaration; split_rule; trivial.
  now rewrite !(ro_usedVariables _).
Qed.

Lemma processLine_usedVariables tl ul n st :
  usedVariables (processLine tl ul n st)
  = match recordedTarget tl with
    | Some u => setAdd (usedVariables st) u
    | None => usedVariables st
    end.
Proof.
  unfold processLine, countParentheses, recordedTarget; simpl.
  rewrite !(ro_usedVariables _).
  unfold trackUsage; destruct (assignmentMatch tl); simpl;
    rewrite !(ro_usedVariables _);
    now rewrite parseDeclaration_usedVariables, trackFunctionBlock_usedVariables,
      trackVarEnd_usedVariables, trackVarStart_usedVariables.
Qed.

Lemma lineCallback_usedVariables st rawLine index u :
  In u (usedVariables (lineCallback st rawLine index))
  <-> In u (usedVariables st)
      \/ (skipLine (trim rawLine) = false
          /\ recordedTarget (trim rawLine) = Some u).
Proof.
  unfold lineCallback; destruct (skipLine _).
  - split; [now left | intros [H | (H & _)]; [assumption | discriminate]].
  - rewrite processLine_usedVariables.
    destruct (recordedTarget _) as [v|].
    + rewrite In_setAdd; split; intros [H | H]; auto.
      * subst; auto.
      * destruct H as (_ & H); injection H as ->; auto.
    + split; [now left | intros [H | (_ & H)]; [assumption | discriminate]].
Qed.

Lemma forEachLine_usedVariables lines u :
  forall index st,
    In u (usedVariables (forEachLine lines index st))
    <-> In u (usedVariables st)
        \/ exists rawLine,
             In rawLine lines /\ skipLine (trim rawLine) = false
             /\ recordedTarget (trim rawLine) = Some u.
Proof.
  induction lines as [|l ls IH]; intros index st; simpl.
  - split; [now left | intros [H | (x & [] & _)]; assumption].
  - rewrite IH, lineCallback_usedVariables; split.
    + intros [[H | (H1 & H2)] | (x & H1 & H2)]; eauto 6.
    + intros [H | (x & [<- | H1] & H2)]; eauto 6.
Qed.

(** ** Messages *)

Lemma includes_app_r a b p :
  includes b p = true -> includes (a ++ b)%string p = true.
Proof.
  intro H; induction a as [|c a IH]; simpl; [assumption|].
  rewrite IH; apply orb_true_r.
Qed.

Lemma unusedWarning_message v :
  includes (message (unusedWarning v)) "declared but never used" = true.
Proof.
  apply (includes_app_r "Variable '" (v ++ "' declared but never used")).
  now apply includes_app_r.
Qed.

(** ** Used and unused variables *)

Lemma scan_usedVariables code u :
  In u (usedVariables (scan code))
  <-> exists rawLine,
        In rawLine (splitLines code) /\ skipLine (trim rawLine) = false
        /\ recordedTarget (trim rawLine) = Some u.
Proof.
  unfold scan; rewrite forEachLine_usedVariables; simpl.
  split; [intros [[] | H]; assumption | now right].
Qed.

Lemma unused_variable_reported code v :
  In v (declaredVariables (scan code)) ->
  ~ In v (usedVariables (scan code)) ->
  In (unusedWarning v) (warnings (performSTValidation code)).
Proof.
  intros Hd Hu.
  destruct (finalize_fields code (scan code)) as (_ & _ & W & _).
  fold (performSTValidation code) in W; rewrite W.
  apply in_or_app; right; apply in_map.
  unfold unusedVariables; apply filter_In; split; [assumption|].
  destruct (setHas (usedVariables (scan code)) v) eqn:E; [|reflexivity].
  now apply setHas_In in E.
Qed.

(** ** The shape of an assignment target *)

Lemma append_assoc (a b c : string) :
  ((a ++ b) ++ c)%string = (a ++ b ++ c)%string.
Proof. induction a as [|x a IH]; simpl; [reflexivity | now rewrite IH]. Qed.

Lemma span_app p s : s = (fst (span p s) ++ snd (span p s))%string.
Proof.
  induction s as [|c s IH]; simpl; [reflexivity|].
  destruct (p c); [|reflexivity].
  destruct (span p s) as (w, t); simpl in *; now rewrite <- IH.
Qed.

Lemma span_allChars p s : allChars p (fst (span p s)) = true.
Proof.
  induction s as [|c s IH]; simpl; [reflexivity|].
  destruct (p c) eqn:C; [|reflexivity].
  destruct (span p s) as (w, t); simpl in *; now rewrite C, IH.
Qed.

Lemma whiteSpace_not_wordChar c : isWhiteSpace c = true -> isWordChar c = false.
Proof. destruct c as [[] [] [] [] [] [] [] []]; vm_compute; congruence. Qed.

Lemma append_empty_r (s : string) : (s ++ EmptyString)%string = s.
Proof. induction s as [|c s IH]; simpl; [reflexivity | now rewrite IH]. Qed.

Lemma dropWhile_app p s :
  exists w, allChars p w = true /\ s = (w ++ dropWhile p s)%string.
Proof.
  induction s as [|c s (w & A & E)]; simpl.
  - now exists EmptyString.
  - destruct (p c) eqn:C.
    + exists (String c w); simpl; rewrite C, A; split; [reflexivity|].
      now rewrite <- E.
    + now exists EmptyString.
Qed.

Lemma startsWith_append s p :
  startsWith s p = true -> exists rest, s = (p ++ rest)%string.
Proof.
  revert s; induction p as [|b p IH]; intros s H.
  - now exists s.
  - destruct s as [|a s]; simpl in H; [discriminate|].
    apply andb_prop in H; destruct H as (E & H).
    apply Ascii.eqb_eq in E; subst b.
    destruct (IH _ H) as (rest & ->); now exists rest.
Qed.

Lemma span_word_run p w t :
  allChars p w = true ->
  match t with EmptyString => True | String c _ => p c = false end ->
  span p (w ++ t) = (w, t).
Proof.
  intros A T; induction w as [|c w IH]; simpl in *.
  - destruct t as [|c t]; simpl; [reflexivity | now rewrite T].
  - apply andb_prop in A; destruct A as (C & A); now rewrite C, IH.
Qed.

Lemma dropWhile_run p w t :
  allChars p w = true ->
  match t with EmptyString => True | String c _ => p c = false end ->
  dropWhile p (w ++ t) = t.
Proof.
  intros A T; induction w as [|c w IH]; simpl in *.
  - destruct t as [|c t]; simpl; [reflexivity | now rewrite T].
  - apply andb_prop in A; destruct A as (C & A); now rewrite C, IH.
Qed.

Lemma assignmentAt_shape s w :
  assignmentAt s = Some w ->
  exists ws rest,
    s = (w ++ ws ++ ":=" ++ rest)%string
    /\ isEmpty w = false
    /\ allChars isWordChar w = true
    /\ allChars isWhiteSpace ws = true.
Proof.
  unfold assignmentAt.
  pose proof (span_app isWordChar s) as E.
  pose proof (span_allChars isWordChar s) as A.
  destruct (span isWordChar s) as (v, r); simpl in E, A.
  destruct (isEmpty v) eqn:N; [discriminate|].
  destruct (startsWith (dropWhile isWhiteSpace r) ":=") eqn:S; [|discriminate].
  intro H; injection H as <-.
  destruct (dropWhile_app isWhiteSpace r) as (ws & W & R).
  destruct (startsWith_append _ _ S) as (rest & D).
  exists ws, rest; rewrite E, R at 1; rewrite D; auto.
Qed.

Lemma assignmentMatch_eq s :
  assignmentMatch s
  = match assignmentAt s with
    | Some w => Some w
    | None => match s with
              | EmptyString => None
              | String _ r => assignmentMatch r
              end
    end.
Proof. now destruct s. Qed.

Lemma assignmentMatch_shape s w :
  assignmentMatch s = Some w ->
  exists pre ws rest,
    s = (pre ++ w ++ ws ++ ":=" ++ rest)%string
    /\ isEmpty w = false
    /\ allChars isWordChar w = true
    /\ allChars isWhiteSpace ws = true.
Proof.
  induction s as [|c s IH]; rewrite assignmentMatch_eq.
  - destruct (assignmentAt EmptyString) eqn:E; [|discriminate].
    intro H; injection H as ->.
    destruct (assignmentAt_shape _ _ E) as (ws & rest & S & R).
    now exists EmptyString, ws, rest.
  - destruct (assignmentAt (String c s)) eqn:E.
    + intro H; injection H as ->.
      destruct (assignmentAt_shape _ _ E) as (ws & rest & S & R).
      now exists EmptyString, ws, rest.
    + intro H; destruct (IH H) as (pre & ws & rest & -> & R).
      now exists (String c pre), ws, rest.
Qed.

Lemma target_tail ws rest :
  allChars isWhiteSpace ws = true ->
  match (ws ++ ":=" ++ rest)%string with
  | EmptyString => True
  | String c _ => isWordChar c = false
  end.
Proof.
  destruct ws as [|c ws]; simpl; [reflexivity|].
  intro H; apply andb_prop in H; now apply whiteSpace_not_wordChar.
Qed.

Lemma assignmentAt_target w ws rest :
  isEmpty w = false ->
  allChars isWordChar w = true ->
  allChars isWhiteSpace ws = true ->
  assignmentAt (w ++ ws ++ ":=" ++ rest) = Some w.
Proof.
  intros N A W; unfold assignmentAt.
  rewrite (span_word_run isWordChar w _ A (target_tail ws rest W)), N.
  rewrite (dropWhile_run isWhiteSpace ws (":=" ++ rest) W); [|reflexivity].
  now destruct rest.
Qed.

Lemma endsInWordChar_cons c s :
  endsInWordChar (String c s)
  = match s with EmptyString => isWordChar c | String _ _ => endsInWordChar s end.
Proof. unfold endsInWordChar; simpl; now destruct s. Qed.

Lemma allChars_endsInWordChar s :
  allChars isWordChar s = true -> isEmpty s = false -> endsInWordChar s = true.
Proof.
  induction s as [|c s IH]; [discriminate|].
  intros A _; simpl in A; apply andb_prop in A; destruct A as (C & A).
  rewrite endsInWordChar_cons; destruct s; [exact C | now apply IH].
Qed.

Lemma includes_cons_false c s p :
  includes (String c s) p = false -> includes s p = false.
Proof. cbn [includes]; intro H; now apply orb_false_elim in H. Qed.

Lemma includes_app_false a b p :
  includes (a ++ b) p = false -> includes b p = false.
Proof.
  induction a as [|c a IH]; [trivial|].
  intro H; apply IH; exact (includes_cons_false _ _ _ H).
Qed.

(** No match starts inside [pre]. *)
Lemma assignmentAt_before c pre x t :
  includes (String c pre) ":=" = false ->
  endsInWordChar (String c pre) = false ->
  isWordChar x = true ->
  assignmentAt (String c pre ++ String x t) = None.
Proof.
  intros I L X; unfold assignmentAt.
  pose proof (span_app isWordChar (String c pre)) as E.
  pose proof (span_allChars isWordChar (String c pre)) as A.
  destruct (span isWordChar (String c pre)) as (a, b) eqn:Sp; simpl in E, A.
  destruct b as [|d b].
  - rewrite append_empty_r in E; subst a.
    rewrite allChars_endsInWordChar in L; [discriminate | exact A | reflexivity].
  - assert (D : isWordChar d = false).
    { destruct (isWordChar d) eqn:D; [|reflexivity].
      clear -Sp D; exfalso; revert a Sp.
      generalize (String c pre) as s; induction s as [|e s IH]; intros a Sp;
        simpl in Sp; [discriminate|].
      destruct (isWordChar e) eqn:Ee.
      - destruct (span isWordChar s) as (w, t); injection Sp as _ ->.
        now apply (IH w).
      - injection Sp as _ Hd _; congruence. }
    rewrite E, append_assoc.
    rewrite (span_word_run isWordChar a (String d b ++ String x t) A D).
    destruct (isEmpty a); [reflexivity|].
    assert (Ib : includes (String d b) ":=" = false)
      by (rewrite E in I; exact (includes_app_false _ _ _ I)).
    destruct (dropWhile_app isWhiteSpace (String d b)) as (ws & W & R).
    destruct (dropWhile isWhiteSpace (String d b)) as [|g f] eqn:Dr.
    + rewrite append_empty_r in R; rewrite R.
      rewrite (dropWhile_run isWhiteSpace ws (String x t) W).
      * simpl; destruct (Ascii.eqb x ":") eqn:Q; [|reflexivity].
        apply Ascii.eqb_eq in Q; subst x; vm_compute in X; discriminate X.
      * destruct (isWhiteSpace x) eqn:Wx; [|reflexivity].
        apply whiteSpace_not_wordChar in Wx; congruence.
    + assert (G : isWhiteSpace g = false).
      { clear -Dr; revert Dr; generalize (String d b) as s.
        induction s as [|e s IH]; simpl; [discriminate|].
        destruct (isWhiteSpace e) eqn:Ee; [exact IH|].
        intro H; injection H as -> _; exact Ee. }
      rewrite R, append_assoc.
      rewrite (dropWhile_run isWhiteSpace ws (String g f ++ String x t) W G).
      rewrite R in Ib; apply includes_app_false in Ib.
      cbn [includes] in Ib; apply orb_false_elim in Ib; destruct Ib as (Ib & _).
      simpl in Ib |- *.
      destruct (Ascii.eqb g ":"); [|reflexivity]; simpl in *.
      destruct f as [|h f]; simpl in *.
      * destruct (Ascii.eqb x "=") eqn:Q; [|reflexivity].
        apply Ascii.eqb_eq in Q; subst x; vm_compute in X; discriminate X.
      * destruct (Ascii.eqb h "="); [|reflexivity].
        destruct f; discriminate.
Qed.

Lemma assignmentMatch_first pre w ws rest :
  isEmpty w = false ->
  allChars isWordChar w = true ->
  allChars isWhiteSpace ws = true ->
  includes pre ":=" = false ->
  endsInWordChar pre = false ->
  assignmentMatch (pre ++ w ++ ws ++ ":=" ++ rest) = Some w.
Proof.
  intros N A W; induction pre as [|c pre IH]; intros I L.
  - change (assignmentMatch (w ++ ws ++ ":=" ++ rest) = Some w).
    rewrite assignmentMatch_eq; now rewrite assignmentAt_target.
  - rewrite assignmentMatch_eq.
    destruct w as [|x w]; [discriminate|].
    assert (X : isWordChar x = true)
      by (simpl in A; apply andb_prop in A; tauto).
    change (String c pre ++ String x w ++ ws ++ ":=" ++ rest)%string
      with (String c pre ++ String x (w ++ ws ++ ":=" ++ rest))%string.
    rewrite (assignmentAt_before c pre x _ I L X).
    change (String c pre ++ String x (w ++ ws ++ ":=" ++ rest))%string
      with (String c (pre ++ String x w ++ ws ++ ":=" ++ rest))%string.
    cbv iota; apply IH.
    + exact (includes_cons_false _ _ _ I).
    + rewrite endsInWordChar_cons in L; destruct pre; [reflexivity | exact L].
Qed.

(** C7, as the specification states it: the upper-cased identifier of
    every assignment target is recorded, and only on lines outside
    declaration parsing.  It does not hold on [usageExample]: line 2 is
    parsed as the declaration of [x] while the scanner is inside the
    section, and it records [INT]; line 4 lies outside, has the two
    targets [a] and [b], and only [A] is recorded. *)
Lemma usage_tracking_counterexample :
  splitLines usageExample = ["VAR"; "x : INT := 5;"; "END_VAR"; "a := 1; b := 2;"]
  /\ usedVariables (scan usageExample) = ["INT"; "A"]
  /\ inVarSection (forEachLine ["VAR"] 0 initialState) = true
  /\ varMatch "x : INT := 5;" = Some ("x", "INT")
  /\ declaredVariables (forEachLine ["VAR"; "x : INT := 5;"] 0 initialState) = ["X"]
  /\ usedVariables (forEachLine ["VAR"; "x : INT := 5;"] 0 initialState) = ["INT"]
  /\ inVarSection (forEachLine ["VAR"; "x : INT := 5;"; "END_VAR"] 0 initialState) = false
  /\ assignmentAt "b := 2;" = Some "b"
  /\ ~ In "B" (usedVariables (scan usageExample)).
Proof.
  repeat split.
  intro H; vm_compute in H; intuition discriminate.
Qed.

(** C7, amended.  On every processed line, inside or outside a
    declaration section, usage tracking records the upper-cased
    identifier of the leftmost assignment target [<identifier> :=] of the
    line, and nothing else is ever recorded.  A recorded name is the
    upper-cased form of a non-empty run of word characters that some
    processed line holds just before [:=], white space apart; and the
    run that stands in this way before the first [:=] of a processed
    line, not being the tail of a longer identifier, is recorded.  After
    all lines, every name of [declaredVariables] that is absent from
    [usedVariables] produces a warning of category style and severity
    low, without line number, whose message holds
    [declared but never used]; such a warning is never among the
    errors. *)
Theorem usage_tracking_and_unused_variables :
  (forall code u,
      In u (usedVariables (scan code))
      <-> exists rawLine target,
            In rawLine (splitLines code)
            /\ skipLine (trim rawLine) = false
            /\ assignmentMatch (trim rawLine) = Some target
            /\ u = toUpperCase target)
  /\ (forall code u,
        In u (usedVariables (scan code)) ->
        exists rawLine pre w ws rest,
          In rawLine (splitLines code)
          /\ skipLine (trim rawLine) = false
          /\ trim rawLine = (pre ++ w ++ ws ++ ":=" ++ rest)%string
          /\ isEmpty w = false
          /\ allChars isWordChar w = true
          /\ allChars isWhiteSpace ws = true
          /\ u = toUpperCase w)
  /\ (forall code rawLine pre w ws rest,
        In rawLine (splitLines code) ->
        skipLine (trim rawLine) = false ->
        trim rawLine = (pre ++ w ++ ws ++ ":=" ++ rest)%string ->
        isEmpty w = false ->
        allChars isWordChar w = true ->
        allChars isWhiteSpace ws = true ->
        includes pre ":=" = false ->
        endsInWordChar pre = false ->
        In (toUpperCase w) (usedVariables (scan code)))
  /\ (forall code v,
        In v (declaredVariables (scan code)) ->
        ~ In v (usedVariables (scan code)) ->
        In (unusedWarning v) (warnings (performSTValidation code)))
  /\ (forall v,
        type (unusedWarning v) = warning
        /\ category (unusedWarning v) = style
        /\ severity (unusedWarning v) = low
        /\ line (unusedWarning v) = None
        /\ includes (message (unusedWarning v)) "declared but never used" = true)
  /\ (forall code v, ~ In (unusedWarning v) (errors (performSTValidation code))).
Proof.
  split; [|split; [|split; [|split; [|split]]]].
  - intros code u; rewrite scan_usedVariables; unfold recordedTarget.
    split.
    + intros (l & Hl & Hs & Ht).
      destruct (assignmentMatch (trim l)) as [t|] eqn:E; [|discriminate].
      injection Ht as <-; now exists l, t.
    + intros (l & t & Hl & Hs & Ht & ->).
      exists l; now rewrite Ht.
  - intros code u H; apply scan_usedVariables in H.
    destruct H as (l & Hl & Hs & Ht); unfold recordedTarget in Ht.
    destruct (assignmentMatch (trim l)) as [t|] eqn:E; [|discriminate].
    injection Ht as <-.
    destruct (assignmentMatch_shape _ _ E) as (pre & ws & rest & S & N & A & W).
    exists l, pre, t, ws, rest; auto 10.
  - intros code l pre w ws rest Hl Hs S N A W I L.
    apply scan_usedVariables; exists l; split; [exact Hl|]; split; [exact Hs|].
    unfold recordedTarget; rewrite S.
    now rewrite (assignmentMatch_first pre w ws rest N A W I L).
  - apply unused_variable_reported.
  - intro v; repeat split; apply unusedWarning_message.
  - intros code v H.
    pose proof (performSTValidation_errors code) as F.
    rewrite Forall_forall in F.
    destruct (F _ H) as (T & _); discriminate.
Qed.

(** Line 4 of [usageExample] starts with the target [a], which is
    recorded; the one declared name of scenario E is never assigned. *)
Lemma usage_tracking_and_unused_variables_witness :
  In "a := 1; b := 2;" (splitLines usageExample)
  /\ In "A" (usedVariables (scan usageExample))
  /\ In "UNUSED_VAR" (declaredVariables (scan scenarioE))
  /\ ~ In "UNUSED_VAR" (usedVariables (scan scenarioE))
  /\ In (unusedWarning "UNUSED_VAR") (warnings (performSTValidation scenarioE))
  /\ errors (performSTValidation scenarioE) = [].
Proof.
  assert (Hl : In "a := 1; b := 2;" (splitLines usageExample))
    by (vm_compute; tauto).
  assert (Hd : In "UNUSED_VAR" (declaredVariables (scan scenarioE)))
    by (vm_compute; left; reflexivity).
  assert (Hu : ~ In "UNUSED_VAR" (usedVariables (scan scenarioE)))
    by (intro H; vm_compute in H; exact H).
  split; [exact Hl|].
  split.
  { apply (proj1 (proj2 (proj2 usage_tracking_and_unused_variables))
             usageExample "a := 1; b := 2;" EmptyString "a" " " " 1; b := 2;");
      [exact Hl | vm_compute; reflexivity ..]. }
  split; [exact Hd | split; [exact Hu | split; [|vm_compute; reflexivity]]].
  exact (proj1 (proj2 (proj2 (proj2 usage_tracking_and_unused_variables)))
           scenarioE _ Hd Hu).
Defined.

(** ** Degenerate input *)

Lemma trimStart_whiteSpace s :
  allChars isWhiteSpace s = true -> trimStart s = EmptyString.
Proof.
  induction s as [|c s IH]; simpl; [reflexivity|].
  intro H; apply andb_prop in H; destruct H as (Hc & Hs).
  rewrite Hc; auto.
Qed.

Lemma trim_whiteSpace s : allChars isWhiteSpace s = true -> trim s = EmptyString.
Proof. intro H; unfold trim; now rewrite trimStart_whiteSpace. Qed.

Lemma splitLines_whiteSpace s :
  allChars isWhiteSpace s = true ->
  Forall (fun l => allChars isWhiteSpace l = true) (splitLines s).
Proof.
  induction s as [|c s IH]; simpl; intro H.
  - now constructor.
  - apply andb_prop in H; destruct H as (Hc & Hs); specialize (IH Hs).
    destruct (Ascii.eqb c LF).
    + now constructor.
    + destruct (splitLines s) as [|l ls]; constructor; simpl;
        rewrite ?Hc; auto; inversion IH; auto.
Qed.

Lemma forEachLine_skipped lines :
  Forall (fun l => skipLine (trim l) = true) lines ->
  forall index st, forEachLine lines index st = st.
Proof.
  induction 1 as [|l ls Hl _ IH]; intros index st; simpl; [reflexivity|].
  unfold lineCallback; rewrite Hl; apply IH.
Qed.

Lemma scan_whiteSpace code :
  allChars isWhiteSpace code = true -> scan code = initialState.
Proof.
  intro H; unfold scan; apply forEachLine_skipped.
  eapply Forall_impl; [|apply splitLines_whiteSpace, H].
  intros l Hl; simpl in Hl; now rewrite trim_whiteSpace.
Qed.

Lemma performSTValidation_wellFormed code : wellFormed (performSTValidation code).
Proof.
  destruct (performSTValidation_grows code)
    as [(es & E & F & V) (ws & W & G) (ss & U & H) _].
  destruct (finalize_scores code (scan code)) as (Sy & Lo & Sa).
  pose proof (performSTValidation_no_semantics code) as N.
  pose proof (countTrue_bounds (safetyChecks (performSTValidation code))) as B.
  fold (performSTValidation code) in Sy, Lo, Sa.
  rewrite N in Lo; change (Z.of_nat (List.length [])) with 0%Z in Lo.
  repeat split; try lia.
  - now rewrite V, E.
  - rewrite E; eapply Forall_impl; [|exact F]; now intros e (T & _).
  - now rewrite W.
  - now rewrite U.
Qed.

(** C8, as the specification states it: degenerate input, text that is
    not Structured Text included, yields zero errors and the default
    scores.  It does not hold: the line-local IF rule fires on an
    English sentence. *)
Lemma prose_yields_an_error :
  errors (performSTValidation proseExample) = [ifThenError 1]
  /\ errors (performSTValidation proseExample) <> []
  /\ isValid (performSTValidation proseExample) = false
  /\ syntaxScore (performSTValidation proseExample) = 85%Z.
Proof.
  assert (E : errors (performSTValidation proseExample) = [ifThenError 1])
    by (vm_compute; reflexivity).
  rewrite E.
  split; [reflexivity|].
  split; [discriminate|].
  split; vm_compute; reflexivity.
Qed.

(** C8, amended.  [performSTValidation] is a total function: on every
    source text it returns a well-formed report ([isValid] agrees with
    [errors], every diagnostic sits in the list of its kind, scores lie
    in [0,100]).  On the empty string and on white-space-only text the
    scan declares no variable and the report has no error, no warning,
    [isValid = true], [syntaxScore = 100], [logicScore = 100] and
    [safetyScore = 0].  Text that is not Structured Text goes through the
    same line rules as any other text. *)
Theorem total_and_degenerate_input :
  (forall code, exists r, performSTValidation code = r /\ wellFormed r)
  /\ (forall code,
        allChars isWhiteSpace code = true ->
        declaredVariables (scan code) = []
        /\ errors (performSTValidation code) = []
        /\ warnings (performSTValidation code) = []
        /\ isValid (performSTValidation code) = true
        /\ syntaxScore (performSTValidation code) = 100%Z
        /\ logicScore (performSTValidation code) = 100%Z
        /\ safetyScore (performSTValidation code) = 0%Z).
Proof.
  split.
  - intro code; eexists; split; [reflexivity | apply performSTValidation_wellFormed].
  - intros code H.
    pose proof (scan_whiteSpace code H) as Hs.
    destruct (finalize_fields code (scan code)) as (E & V & W & S & _).
    destruct (finalize_scores code (scan code)) as (Sy & Lo & Sa).
    pose proof (performSTValidation_no_semantics code) as N.
    fold (performSTValidation code) in *.
    rewrite Hs in E, V, W, S |- *.
    rewrite E, W in Sy; rewrite N in Lo; rewrite S in Sa.
    repeat split; assumption.
Qed.

Lemma total_and_degenerate_input_witness :
  allChars isWhiteSpace blankExample = true
  /\ allChars isWhiteSpace EmptyString = true
  /\ errors (performSTValidation blankExample) = []
  /\ syntaxScore (performSTValidation blankExample) = 100%Z
  /\ errors (performSTValidation EmptyString) = [].
Proof.
  split; [reflexivity | split; [reflexivity|]].
  destruct (proj2 total_and_degenerate_input blankExample eq_refl)
    as (_ & E & _ & _ & Sy & _).
  destruct (proj2 total_and_degenerate_input EmptyString eq_refl)
    as (_ & E0 & _).
  repeat split; assumption.
Defined.

(** ** Comment blocks *)

(** C9.  The callback skips a line exactly when its trimmed text is
    empty or starts with the comment opener or with [//]; the test looks
    at the line alone, so the lines after the opener of a block comment
    are processed as code.  In [commentBlockExample] the IF line inside
    the block yields [IF statement must be followed by THEN] and the
    report is invalid. *)
Theorem comment_block_interior_is_processed :
  (forall st rawLine index,
      lineCallback st rawLine index
      = if isEmpty (trim rawLine)
           || startsWith (trim rawLine) commentOpen
           || startsWith (trim rawLine) "//"
        then st
        else processLine (trim rawLine) (toUpperCase (trim rawLine)) (index + 1) st)
  /\ (exists opener closer,
        splitLines commentBlockExample = [opener; "IF x > 1"; closer]
        /\ startsWith (trim opener) commentOpen = true
        /\ endsWith (trim closer) commentClose = true
        /\ skipLine (trim opener) = true
        /\ skipLine (trim "IF x > 1") = false
        /\ skipLine (trim closer) = false)
  /\ In (ifThenError 2) (errors (performSTValidation commentBlockExample))
  /\ message (ifThenError 2) = "IF statement must be followed by THEN"
  /\ isValid (performSTValidation commentBlockExample) = false.
Proof.
  split; [reflexivity|].
  split; [do 2 eexists; repeat split|].
  split; [vm_compute; left; reflexivity | split; vm_compute; reflexivity].
Qed.

(** ** Safety keyword families *)

Section FlagsPersist.

Context (rule : ScanState -> ScanState) `{ResultsOnly rule}.

Lemma ro_emergencyStop st :
  emergencyStop (safetyChecks (results st)) = true ->
  emergencyStop (safetyChecks (results (rule st))) = true.
Proof. apply (grows_safety _ _ _ _ (ro_grows rule st)). Qed.

Lemma ro_failSafeMechanisms st :
  failSafeMechanisms (safetyChecks (results st)) = true ->
  failSafeMechanisms (safetyChecks (results (rule st))) = true.
Proof. apply (grows_safety _ _ _ _ (ro_grows rule st)). Qed.

Lemma ro_watchdogTimer st :
  watchdogTimer (safetyChecks (results st)) = true ->
  watchdogTimer (safetyChecks (results (rule st))) = true.
Proof. apply (grows_safety _ _ _ _ (ro_grows rule st)). Qed.

End FlagsPersist.

Lemma processLine_emergencyStop tl ul n st :
  includesI tl "safety" = true ->
  emergencyStop (safetyChecks (results (processLine tl ul n st))) = true.
Proof.
  intro H; unfold processLine; rewrite countParentheses_results.
  do 5 apply (ro_emergencyStop _).
  unfold checkEmergencyStop, emergencyPattern; rewrite H, !orb_true_r.
  reflexivity.
Qed.

Lemma processLine_failSafeMechanisms tl ul n st :
  includesI tl "watchdog" = true ->
  failSafeMechanisms (safetyChecks (results (processLine tl ul n st))) = true.
Proof.
  intro H; unfold processLine; rewrite countParentheses_results.
  do 3 apply (ro_failSafeMechanisms _).
  unfold checkFailSafe, failSafePattern; rewrite H, !orb_true_r.
  reflexivity.
Qed.

Lemma processLine_watchdogTimer tl ul n st :
  includesI tl "watchdog" = true ->
  watchdogTimer (safetyChecks (results (processLine tl ul n st))) = true.
Proof.
  intro H; unfold processLine; rewrite countParentheses_results.
  do 2 apply (ro_watchdogTimer _).
  unfold checkWatchdog, watchdogPattern; rewrite H.
  reflexivity.
Qed.

Lemma scan_suggestions code : suggestions (results (scan code)) = [].
Proof.
  destruct (scan_grows code) as [_ _ (ss & U & F) _].
  rewrite U; destruct F as [|s ss []]; reflexivity.
Qed.

Lemma emergencyStop_suppresses_suggestion code :
  emergencyStop (safetyChecks (performSTValidation code)) = true ->
  ~ In emergencyStopSuggestion (suggestions (performSTValidation code)).
Proof.
  destruct (finalize_fields code (scan code)) as (_ & _ & _ & S & U).
  fold (performSTValidation code) in S, U.
  rewrite U, S, scan_suggestions; unfold finalSuggestions; intros ->.
  simpl; split_rule; simpl; intuition discriminate.
Qed.

(** C10.  A processed line that matches [watchdog], in any letter case,
    raises both [failSafeMechanisms] and [watchdogTimer]; one that holds
    [safety] raises [emergencyStop]; and a report with [emergencyStop]
    raised never carries the emergency-stop suggestion.  So the single
    line [safety_door], which holds none of [emergency], [e_stop] and
    [estop], is reported with [emergencyStop = true] and without that
    suggestion. *)
Theorem safety_families_overlap :
  (forall code rawLine,
      In rawLine (splitLines code) ->
      skipLine (trim rawLine) = false ->
      (includesI (trim rawLine) "watchdog" = true ->
       failSafeMechanisms (safetyChecks (performSTValidation code)) = true
       /\ watchdogTimer (safetyChecks (performSTValidation code)) = true)
      /\ (includesI (trim rawLine) "safety" = true ->
          emergencyStop (safetyChecks (performSTValidation code)) = true))
  /\ (forall code,
        emergencyStop (safetyChecks (performSTValidation code)) = true ->
        ~ In emergencyStopSuggestion (suggestions (performSTValidation code)))
  /\ (includesI safetyDoorExample "emergency" = false
      /\ includesI safetyDoorExample "e_stop" = false
      /\ includesI safetyDoorExample "estop" = false
      /\ emergencyStop (safetyChecks (performSTValidation safetyDoorExample)) = true
      /\ suggestions (performSTValidation safetyDoorExample) = [commentSuggestion]
      /\ ~ In emergencyStopSuggestion
              (suggestions (performSTValidation safetyDoorExample))).
Proof.
  split; [|split; [apply emergencyStop_suppresses_suggestion|]].
  - intros code rawLine Hin Hs.
    destruct (In_nth_error _ _ Hin) as (i & Hn).
    destruct (processed_line_reaches_report code i rawLine Hn Hs) as (st1 & G).
    destruct (grows_safety _ _ _ _ G) as (He & _ & Hf & Hw & _).
    split.
    + intro H; split.
      * now apply Hf, processLine_failSafeMechanisms.
      * now apply Hw, processLine_watchdogTimer.
    + intro H; now apply He, processLine_emergencyStop.
  - repeat split.
    apply emergencyStop_suppresses_suggestion; reflexivity.
Qed.

Lemma safety_families_overlap_witness :
  In "Safety_WatchDog := TRUE;" (splitLines watchdogExample)
  /\ failSafeMechanisms (safetyChecks (performSTValidation watchdogExample)) = true
  /\ watchdogTimer (safetyChecks (performSTValidation watchdogExample)) = true
  /\ emergencyStop (safetyChecks (performSTValidation watchdogExample)) = true.
Proof.
  assert (Hin : In "Safety_WatchDog := TRUE;" (splitLines watchdogExample))
    by (vm_compute; right; left; reflexivity).
  destruct (proj1 safety_families_overlap watchdogExample _ Hin eq_refl)
    as (Hw & He).
  destruct (Hw eq_refl) as (H1 & H2).
  split; [exact Hin | split; [exact H1 | split; [exact H2 | exact (He eq_refl)]]].
Defined.

(** ** The section tracker *)

Ltac bool_facts :=
  repeat match goal with
         | H : _ && _ = true |- _ => apply andb_prop in H; destruct H
         | H : negb _ = true |- _ => apply negb_true_iff in H
         | H : negb _ = false |- _ => apply negb_false_iff in H
         end.

Section ResultsOnlyKeeps.

Context (rule : ScanState -> ScanState) `{ResultsOnly rule}.

Lemma ro_keeps_inVarSection st : inVarSection (rule st) = inVarSection st.
Proof. now destruct (results_only st) as (f & -> & _). Qed.

Lemma ro_keeps_declaredVariables st :
  declaredVariables (rule st) = declaredVariables st.
Proof. now destruct (results_only st) as (f & -> & _). Qed.

End ResultsOnlyKeeps.

Lemma tracking_inVarSection ul st :
  inVarSection (trackVarEnd ul (trackVarStart ul st))
  = sectionAfterLine (inVarSection st) ul.
Proof.
  unfold trackVarEnd, trackVarStart, sectionAfterLine.
  destruct (String.eqb ul "END_VAR"), (startsWith ul "VAR"); reflexivity.
Qed.

Lemma trackFunctionBlock_inVarSection ul st :
  inVarSection (trackFunctionBlock ul st) = inVarSection st.
Proof. unfold trackFunctionBlock; now split_rule. Qed.

Lemma trackUsage_inVarSection tl st :
  inVarSection (trackUsage tl st) = inVarSection st.
Proof. unfold trackUsage; now split_rule. Qed.

Lemma parseDeclaration_inVarSection tl ul n st :
  inVarSection (parseDeclaration tl ul n st) = inVarSection st.
Proof.
  unfold parseDeclaration; split_rule; trivial.
  now rewrite !(ro_keeps_inVarSection _).
Qed.

Lemma processLine_inVarSection tl ul n st :
  inVarSection (processLine tl ul n st) = sectionAfterLine (inVarSection st) ul.
Proof.
  unfold processLine, countParentheses; simpl.
  rewrite !(ro_keeps_inVarSection _), trackUsage_inVarSection,
    !(ro_keeps_inVarSection _).
  now rewrite parseDeclaration_inVarSection, trackFunctionBlock_inVarSection,
    tracking_inVarSection.
Qed.

Lemma lineCallback_inVarSection st rawLine index :
  inVarSection (lineCallback st rawLine index)
  = sectionStep (inVarSection st) rawLine.
Proof.
  unfold lineCallback, sectionStep; destruct (skipLine _);
    [reflexivity | apply processLine_inVarSection].
Qed.

Lemma forEachLine_inVarSection lines :
  forall index st,
    inVarSection (forEachLine lines index st)
    = fold_left sectionStep lines (inVarSection st).
Proof.
  induction lines as [|l ls IH]; intros index st; simpl; [reflexivity|].
  now rewrite IH, lineCallback_inVarSection.
Qed.

(** ** Every diagnostic and flag has its line *)

Section LineStep.

Variables (inVar : bool) (tl ul : string) (n : nat).

Lemma safetyFrom_refl c : safetyFrom tl c c.
Proof. unfold safetyFrom; tauto. Qed.

Lemma safetyFrom_trans c1 c2 c3 :
  safetyFrom tl c1 c2 -> safetyFrom tl c2 c3 -> safetyFrom tl c1 c3.
Proof. unfold safetyFrom; tauto. Qed.

Lemma complianceFrom_refl c : complianceFrom inVar tl ul c c.
Proof. unfold complianceFrom, complianceLe; tauto. Qed.

Lemma complianceFrom_trans c1 c2 c3 :
  complianceFrom inVar tl ul c1 c2 -> complianceFrom inVar tl ul c2 c3 ->
  complianceFrom inVar tl ul c1 c3.
Proof. unfold complianceFrom, complianceLe; tauto. Qed.

Lemma lineStep_same r r' :
  errors r' = errors r -> warnings r' = warnings r ->
  safetyFrom tl (safetyChecks r) (safetyChecks r') ->
  complianceFrom inVar tl ul (iecCompliance r) (iecCompliance r') ->
  lineStep inVar tl ul n r r'.
Proof.
  intros He Hw Hs Hc; split; trivial.
  - exists []; now rewrite app_nil_r.
  - exists []; now rewrite app_nil_r.
Qed.

Lemma lineStep_refl r : lineStep inVar tl ul n r r.
Proof.
  apply lineStep_same; auto using safetyFrom_refl, complianceFrom_refl.
Qed.

Lemma lineStep_trans r1 r2 r3 :
  lineStep inVar tl ul n r1 r2 -> lineStep inVar tl ul n r2 r3 ->
  lineStep inVar tl ul n r1 r3.
Proof.
  intros [(es1 & E1 & F1) (ws1 & W1 & G1) S1 C1]
         [(es2 & E2 & F2) (ws2 & W2 & G2) S2 C2].
  split.
  - exists (es1 ++ es2); split;
      [now rewrite E2, E1, app_assoc | apply Forall_app; auto].
  - exists (ws1 ++ ws2); split;
      [now rewrite W2, W1, app_assoc | apply Forall_app; auto].
  - eapply safetyFrom_trans; eauto.
  - eapply complianceFrom_trans; eauto.
Qed.

Lemma lineStep_error e st :
  lineErrorOf inVar tl ul n e ->
  lineStep inVar tl ul n (results st) (results (reportError e st)).
Proof.
  intro He; split; simpl;
    auto using safetyFrom_refl, complianceFrom_refl.
  - exists [e]; auto.
  - exists []; now rewrite app_nil_r.
Qed.

Lemma lineStep_warning w st :
  lineWarningOf inVar tl ul n w ->
  lineStep inVar tl ul n (results st) (results (reportWarning w st)).
Proof.
  intro Hw; split; simpl;
    auto using safetyFrom_refl, complianceFrom_refl.
  - exists []; now rewrite app_nil_r.
  - exists [w]; auto.
Qed.

Lemma lineStep_onSafety f st :
  safetyFrom tl (safetyChecks (results st)) (f (safetyChecks (results st))) ->
  lineStep inVar tl ul n (results st) (results (onSafety f st)).
Proof. intro; apply lineStep_same; simpl; auto using complianceFrom_refl. Qed.

Lemma lineStep_onCompliance f st :
  complianceFrom inVar tl ul (iecCompliance (results st))
                 (f (iecCompliance (results st))) ->
  lineStep inVar tl ul n (results st) (results (onCompliance f st)).
Proof. intro; apply lineStep_same; simpl; auto using safetyFrom_refl. Qed.

Lemma trackVarStart_step st :
  lineStep inVar tl ul n (results st) (results (trackVarStart ul st)).
Proof.
  unfold trackVarStart; destruct (startsWith ul "VAR") eqn:C;
    [|apply lineStep_refl].
  apply (lineStep_onCompliance setVariableDeclaration (setInVarSection true st)).
  unfold complianceFrom, complianceLe; simpl; tauto.
Qed.

Lemma checkDataType_step v ty st :
  declares inVar tl ul v ty ->
  lineStep inVar tl ul n (results st) (results (checkDataType n ty st)).
Proof.
  intros Hd; unfold checkDataType.
  destruct (arrayIncludes standardDataTypes (toUpperCase ty)) eqn:C.
  - apply lineStep_onCompliance; unfold complianceFrom, complianceLe; simpl.
    repeat split; auto; intros _; right; now exists v, ty.
  - apply lineStep_warning; left; now exists v, ty.
Qed.

Lemma checkNaming_step v ty st :
  declares inVar tl ul v ty ->
  lineStep inVar tl ul n (results st) (results (checkNaming n v st)).
Proof.
  intros Hd; unfold checkNaming.
  destruct (negb (namingPattern v)) eqn:C; [|apply lineStep_refl].
  bool_facts.
  eapply lineStep_trans.
  - apply (lineStep_warning (namingWarning v n)); right; left; now exists v, ty.
  - apply lineStep_onCompliance; unfold complianceFrom, complianceLe; simpl.
    repeat split; auto; intros _; right; now exists v, ty.
Qed.

Lemma checkReserved_step v ty st :
  declares inVar tl ul v ty ->
  lineStep inVar tl ul n (results st) (results (checkReserved n v st)).
Proof.
  intros Hd; unfold checkReserved.
  destruct (arrayIncludes reservedWords (toUpperCase v)) eqn:C;
    [|apply lineStep_refl].
  apply lineStep_error; left; now exists v, ty.
Qed.

Lemma parseDeclaration_step st :
  inVarSection st = inVar ->
  lineStep inVar tl ul n (results st) (results (parseDeclaration tl ul n st)).
Proof.
  intro Hin; unfold parseDeclaration.
  destruct (inVarSection st && includes tl ":" && negb (startsWith ul "VAR")) eqn:C;
    [|apply lineStep_refl].
  bool_facts.
  destruct (varMatch tl) as [[v ty]|] eqn:Hm; [|apply lineStep_refl].
  assert (Hd : declares inVar tl ul v ty) by (repeat split; congruence).
  eapply lineStep_trans; [|now apply (checkReserved_step v ty)].
  eapply lineStep_trans; [|now apply (checkNaming_step v ty)].
  eapply lineStep_trans; [|now apply (checkDataType_step v ty)].
  apply lineStep_refl.
Qed.

Lemma checkIf_step st :
  lineStep inVar tl ul n (results st) (results (checkIf tl ul n st)).
Proof.
  unfold checkIf; destruct (_ && _) eqn:C; [|apply lineStep_refl].
  bool_facts; apply lineStep_error; right; left; auto.
Qed.

Lemma checkFor_step st :
  lineStep inVar tl ul n (results st) (results (checkFor ul n st)).
Proof.
  unfold checkFor; destruct (_ && _) eqn:C; [|apply lineStep_refl].
  bool_facts; apply lineStep_error; do 2 right; left; auto.
Qed.

Lemma checkWhile_step st :
  lineStep inVar tl ul n (results st) (results (checkWhile ul n st)).
Proof.
  unfold checkWhile; destruct (_ && _) eqn:C; [|apply lineStep_refl].
  bool_facts; apply lineStep_error; do 3 right; left; auto.
Qed.

Lemma checkCase_step st :
  lineStep inVar tl ul n (results st) (results (checkCase ul n st)).
Proof.
  unfold checkCase; destruct (_ && _) eqn:C; [|apply lineStep_refl].
  bool_facts; apply lineStep_error; do 4 right; auto.
Qed.

Lemma checkAssignmentOperator_step st :
  lineStep inVar tl ul n (results st)
           (results (checkAssignmentOperator tl ul n st)).
Proof.
  unfold checkAssignmentOperator; destruct (assignmentCondition tl ul) eqn:C;
    [|apply lineStep_refl].
  apply lineStep_warning; do 2 right; left; auto.
Qed.

Lemma checkSemicolon_step st :
  inVarSection st = inVar ->
  lineStep inVar tl ul n (results st) (results (checkSemicolon tl ul n st)).
Proof.
  intro Hin; unfold checkSemicolon; destruct (_ && _) eqn:C;
    [|apply lineStep_refl].
  bool_facts; apply lineStep_warning; do 3 right.
  repeat split; auto; congruence.
Qed.

Ltac safety_step :=
  match goal with
  | |- context [if ?c then _ else _] => destruct c eqn:?
  end;
  [ apply lineStep_onSafety; unfold safetyFrom; simpl; tauto
  | apply lineStep_refl ].

Lemma checkEmergencyStop_step st :
  lineStep inVar tl ul n (results st) (results (checkEmergencyStop tl st)).
Proof. unfold checkEmergencyStop; safety_step. Qed.

Lemma checkSafetyInterlocks_step st :
  lineStep inVar tl ul n (results st) (results (checkSafetyInterlocks tl st)).
Proof. unfold checkSafetyInterlocks; safety_step. Qed.

Lemma checkFailSafe_step st :
  lineStep inVar tl ul n (results st) (results (checkFailSafe tl st)).
Proof. unfold checkFailSafe; safety_step. Qed.

Lemma checkWatchdog_step st :
  lineStep inVar tl ul n (results st) (results (checkWatchdog tl st)).
Proof. unfold checkWatchdog; safety_step. Qed.

Lemma checkInputValidation_step st :
  lineStep inVar tl ul n (results st) (results (checkInputValidation tl st)).
Proof. unfold checkInputValidation; safety_step. Qed.

Lemma checkStructure_step st :
  lineStep inVar tl ul n (results st) (results (checkStructure ul st)).
Proof.
  unfold checkStructure.
  destruct (includes ul "END_IF" || includes ul "END_FOR"
            || includes ul "END_WHILE" || includes ul "END_CASE") eqn:C;
    [|apply lineStep_refl].
  apply lineStep_onCompliance;
    unfold complianceFrom, complianceLe, structurePattern; simpl.
  tauto.
Qed.

(** The rules that follow the declaration parser. *)
Lemma processLine_after_declaration st :
  inVar = sectionAfterLine (inVarSection st) ul ->
  lineStep inVar tl ul n
    (results (parseDeclaration tl ul n
                (trackFunctionBlock ul (trackVarEnd ul (trackVarStart ul st)))))
    (results (processLine tl ul n st)).
Proof.
  intro Hin; unfold processLine.
  rewrite countParentheses_results.
  eapply lineStep_trans; [|apply checkStructure_step].
  eapply lineStep_trans; [|apply checkInputValidation_step].
  eapply lineStep_trans; [|apply checkWatchdog_step].
  eapply lineStep_trans; [|apply checkFailSafe_step].
  eapply lineStep_trans; [|apply checkSafetyInterlocks_step].
  eapply lineStep_trans; [|apply checkEmergencyStop_step].
  rewrite trackUsage_results.
  eapply lineStep_trans;
    [|apply checkSemicolon_step;
      rewrite !(ro_keeps_inVarSection _), parseDeclaration_inVarSection,
        trackFunctionBlock_inVarSection, tracking_inVarSection; now symmetry].
  eapply lineStep_trans; [|apply checkAssignmentOperator_step].
  eapply lineStep_trans; [|apply checkCase_step].
  eapply lineStep_trans; [|apply checkWhile_step].
  eapply lineStep_trans; [|apply checkFor_step].
  eapply lineStep_trans; [|apply checkIf_step].
  apply lineStep_refl.
Qed.

Lemma processLine_step st :
  inVar = sectionAfterLine (inVarSection st) ul ->
  lineStep inVar tl ul n (results st) (results (processLine tl ul n st)).
Proof.
  intro Hin.
  eapply lineStep_trans; [|now apply processLine_after_declaration].
  eapply lineStep_trans;
    [|apply parseDeclaration_step;
      rewrite trackFunctionBlock_inVarSection, tracking_inVarSection;
      now symmetry].
  rewrite trackFunctionBlock_results, trackVarEnd_results.
  apply trackVarStart_step.
Qed.

End LineStep.

Lemma processedLine_bound lines i l :
  processedLine lines i l -> (i < List.length lines)%nat.
Proof. intros (H & _); apply nth_error_Some; congruence. Qed.

Lemma firstn_within (done rest : list string) i :
  (i < List.length done)%nat -> firstn (S i) (done ++ rest) = firstn (S i) done.
Proof.
  intro H; rewrite firstn_app.
  replace (S i - List.length done) with 0 by lia.
  now rewrite app_nil_r.
Qed.

Lemma firstn_next (done rest : list string) l :
  firstn (S (List.length done)) (done ++ l :: rest) = done ++ [l].
Proof.
  rewrite firstn_app, firstn_all2 by lia.
  now replace (S (List.length done) - List.length done) with 1 by lia.
Qed.

Lemma sectionAfter_next done l :
  sectionAfter (done ++ [l]) = sectionStep (sectionAfter done) l.
Proof. unfold sectionAfter; now rewrite fold_left_app. Qed.

Lemma processedLine_app done rest i l :
  processedLine done i l -> processedLine (done ++ rest) i l.
Proof.
  intros (H & Hs); split; [|assumption].
  rewrite nth_error_app1; [assumption|].
  apply nth_error_Some; congruence.
Qed.

Lemma processedLine_next done rest l :
  skipLine (trim l) = false ->
  processedLine (done ++ l :: rest) (List.length done) l.
Proof.
  intro Hs; split; [|assumption].
  rewrite nth_error_app2, Nat.sub_diag; [reflexivity | lia].
Qed.

Lemma someLine_app done rest p : someLine done p -> someLine (done ++ rest) p.
Proof.
  intros (i & l & H & Hp); exists i, l; split; [now apply processedLine_app|].
  rewrite firstn_within; [exact Hp | eapply processedLine_bound; eauto].
Qed.

Lemma someLine_next done rest l (p : string -> nat -> bool -> Prop) :
  skipLine (trim l) = false ->
  p l (List.length done + 1) (sectionAfter (done ++ [l])) ->
  someLine (done ++ l :: rest) p.
Proof.
  intros Hs Hp; exists (List.length done), l; split;
    [now apply processedLine_next | now rewrite firstn_next].
Qed.

Lemma someLine_step (A A' P : Prop) done l (p : string -> nat -> bool -> Prop) :
  (A' -> A \/ P) -> (A -> someLine done p) ->
  skipLine (trim l) = false ->
  (P -> p l (List.length done + 1) (sectionAfter (done ++ [l]))) ->
  A' -> someLine (done ++ [l]) p.
Proof.
  intros Hstep Hold Hs Hnew HA'.
  destruct (Hstep HA') as [HA | HP].
  - now apply someLine_app, Hold.
  - now apply someLine_next, Hnew.
Qed.

Lemma someLine_impl lines (p q : string -> nat -> bool -> Prop) :
  (forall l n b, p l n b -> q l n b) -> someLine lines p -> someLine lines q.
Proof.
  intros H (i & l & P & Hp); exists i, l; split; [exact P | now apply H].
Qed.

Lemma traced_app done rest r : traced done r -> traced (done ++ rest) r.
Proof.
  intros [E W F1 F2 F3 F4 F5 C1 C2 C3 C4]; split;
    try (intro H; apply someLine_app; auto).
  - eapply Forall_impl; [|exact E]; intros e; apply someLine_app.
  - eapply Forall_impl; [|exact W]; intros w; apply someLine_app.
Qed.

Lemma traced_step done l r r' :
  traced done r ->
  skipLine (trim l) = false ->
  lineStep (sectionAfter (done ++ [l])) (trim l) (toUpperCase (trim l))
           (List.length done + 1) r r' ->
  traced (done ++ [l]) r'.
Proof.
  intros [E W F1 F2 F3 F4 F5 C1 C2 C3 C4] Hs
         [(es & He & Fe) (ws & Hw & Fw)
          (S1 & S2 & S3 & S4 & S5) (_ & D1 & D2 & D3 & D4)].
  split.
  - rewrite He; apply Forall_app; split.
    + eapply Forall_impl; [|exact E]; intros e; apply someLine_app.
    + eapply Forall_impl; [|exact Fe]; intros e H.
      now apply someLine_next.
  - rewrite Hw; apply Forall_app; split.
    + eapply Forall_impl; [|exact W]; intros w; apply someLine_app.
    + eapply Forall_impl; [|exact Fw]; intros w H.
      now apply someLine_next.
  - eapply someLine_step; eauto.
  - eapply someLine_step; eauto.
  - eapply someLine_step; eauto.
  - eapply someLine_step; eauto.
  - eapply someLine_step; eauto.
  - eapply someLine_step; eauto.
  - eapply someLine_step; eauto.
  - eapply someLine_step; eauto.
  - eapply someLine_step; eauto.
Qed.

Lemma forEachLine_traced rest :
  forall done st,
    traced done (results st) ->
    inVarSection st = sectionAfter done ->
    traced (done ++ rest) (results (forEachLine rest (List.length done) st)).
Proof.
  induction rest as [|l rest IH]; intros done st H Hin; simpl.
  - now rewrite app_nil_r.
  - replace (done ++ l :: rest) with ((done ++ [l]) ++ rest)
      by now rewrite <- app_assoc.
    replace (S (List.length done)) with (List.length (done ++ [l]))
      by (rewrite length_app; simpl; lia).
    apply IH.
    + unfold lineCallback; destruct (skipLine (trim l)) eqn:Hs.
      * now apply traced_app.
      * eapply traced_step; eauto.
        apply processLine_step.
        rewrite sectionAfter_next, Hin; unfold sectionStep; now rewrite Hs.
    + now rewrite lineCallback_inVarSection, sectionAfter_next, Hin.
Qed.

Lemma initialResults_traced : traced [] initialResults.
Proof. split; simpl; auto; discriminate. Qed.

Lemma scan_traced code : traced (splitLines code) (results (scan code)).
Proof.
  apply (forEachLine_traced (splitLines code) [] initialState);
    [apply initialResults_traced | reflexivity].
Qed.

Lemma scan_inVarSection code :
  inVarSection (scan code) = sectionAfter (splitLines code).
Proof. apply (forEachLine_inVarSection (splitLines code) 0 initialState). Qed.

(** ** The scan seen from one of its lines *)

Lemma complianceLe_refl c : complianceLe c c.
Proof. unfold complianceLe; tauto. Qed.

Lemma complianceLe_trans c1 c2 c3 :
  complianceLe c1 c2 -> complianceLe c2 c3 -> complianceLe c1 c3.
Proof. unfold complianceLe; tauto. Qed.

Lemma lineStep_keeps_error inVar tl ul n r r' e :
  lineStep inVar tl ul n r r' -> In e (errors r) -> In e (errors r').
Proof.
  intros [(es & E & _) _ _ _] H; rewrite E; apply in_or_app; now left.
Qed.

Lemma lineStep_keeps_warning inVar tl ul n r r' w :
  lineStep inVar tl ul n r r' -> In w (warnings r) -> In w (warnings r').
Proof.
  intros [_ (ws & W & _) _ _] H; rewrite W; apply in_or_app; now left.
Qed.

Lemma lineStep_complianceLe inVar tl ul n r r' :
  lineStep inVar tl ul n r r' -> complianceLe (iecCompliance r) (iecCompliance r').
Proof. now intros [_ _ _ (H & _)]. Qed.

Lemma trackVarStart_declaredVariables ul st :
  declaredVariables (trackVarStart ul st) = declaredVariables st.
Proof. unfold trackVarStart; now split_rule. Qed.

Lemma trackVarEnd_declaredVariables ul st :
  declaredVariables (trackVarEnd ul st) = declaredVariables st.
Proof. unfold trackVarEnd; now split_rule. Qed.

Lemma trackFunctionBlock_declaredVariables ul st :
  declaredVariables (trackFunctionBlock ul st) = declaredVariables st.
Proof. unfold trackFunctionBlock; now split_rule. Qed.

Lemma trackUsage_declaredVariables tl st :
  declaredVariables (trackUsage tl st) = declaredVariables st.
Proof. unfold trackUsage; now split_rule. Qed.

Lemma parseDeclaration_declaredVariables tl ul n st :
  declaredVariables (parseDeclaration tl ul n st)
  = match declaredTarget (inVarSection st) tl ul with
    | Some x => setAdd (declaredVariables st) x
    | None => declaredVariables st
    end.
Proof.
  unfold parseDeclaration, declaredTarget.
  destruct (inVarSection st && includes tl ":" && negb (startsWith ul "VAR"));
    [|reflexivity].
  destruct (varMatch tl) as [[v ty]|]; [|reflexivity].
  now rewrite !(ro_keeps_declaredVariables _).
Qed.

Lemma processLine_declaredVariables tl ul n st :
  declaredVariables (processLine tl ul n st)
  = match declaredTarget (sectionAfterLine (inVarSection st) ul) tl ul with
    | Some x => setAdd (declaredVariables st) x
    | None => declaredVariables st
    end.
Proof.
  unfold processLine, countParentheses; simpl.
  rewrite !(ro_keeps_declaredVariables _), trackUsage_declaredVariables,
    !(ro_keeps_declaredVariables _), parseDeclaration_declaredVariables.
  now rewrite trackFunctionBlock_inVarSection, tracking_inVarSection,
    trackFunctionBlock_declaredVariables, trackVarEnd_declaredVariables,
    trackVarStart_declaredVariables.
Qed.

Lemma lineCallback_declaredVariables st rawLine index x :
  In x (declaredVariables (lineCallback st rawLine index))
  <-> In x (declaredVariables st)
      \/ (skipLine (trim rawLine) = false
          /\ declaredTarget (sectionStep (inVarSection st) rawLine)
               (trim rawLine) (toUpperCase (trim rawLine)) = Some x).
Proof.
  unfold lineCallback, sectionStep; destruct (skipLine _).
  - split; [now left | intros [H | (H & _)]; [assumption | discriminate]].
  - rewrite processLine_declaredVariables.
    destruct (declaredTarget _ _ _) as [v|].
    + rewrite In_setAdd; split; intros [H | H]; auto.
      * subst; auto.
      * destruct H as (_ & H); injection H as ->; auto.
    + split; [now left | intros [H | (_ & H)]; [assumption | discriminate]].
Qed.

Lemma forEachLine_declaredVariables lines x :
  forall index st,
    In x (declaredVariables (forEachLine lines index st))
    <-> In x (declaredVariables st)
        \/ exists i l,
             processedLine lines i l
             /\ declaredTarget
                  (fold_left sectionStep (firstn (S i) lines) (inVarSection st))
                  (trim l) (toUpperCase (trim l)) = Some x.
Proof.
  induction lines as [|a ls IH]; intros index st; simpl.
  - split; [now left | intros [H | (i & l & (H & _) & _)]; [assumption|]].
    now destruct i.
  - rewrite IH, lineCallback_declaredVariables, lineCallback_inVarSection; split.
    + intros [[H | (Hs & Ht)] | (i & l & (Hn & Hs) & Ht)].
      * now left.
      * right; exists 0, a; split; [now split | exact Ht].
      * right; exists (S i), l; split; [now split | exact Ht].
    + intros [H | (i & l & (Hn & Hs) & Ht)]; [now left; left|].
      destruct i as [|i]; simpl in Hn, Ht.
      * injection Hn as ->; left; right; now split.
      * right; exists i, l; split; [now split | exact Ht].
Qed.

Lemma includes_dropWhile q s p :
  includes (dropWhile q s) p = true -> includes s p = true.
Proof.
  induction s as [|c s IH]; simpl; [trivial|].
  destruct (q c); [|trivial].
  intro H; rewrite (IH H); apply orb_true_r.
Qed.

Lemma varMatch_includes_colon s v ty :
  varMatch s = Some (v, ty) -> includes s ":" = true.
Proof.
  unfold varMatch; intro H.
  rewrite (span_app isWordChar s).
  destruct (span isWordChar s) as (w, r1); simpl.
  destruct (isEmpty w); [discriminate|].
  apply includes_app_r, (includes_dropWhile isWhiteSpace).
  destruct (dropWhile isWhiteSpace r1) as [|c r2]; [discriminate|].
  destruct (Ascii.eqb c ":") eqn:C; [|discriminate].
  apply Ascii.eqb_eq in C; subst c; simpl.
  now destruct r2.
Qed.

Lemma declaredTarget_declares inVar tl ul x :
  declaredTarget inVar tl ul = Some x
  <-> exists v ty, declares inVar tl ul v ty /\ x = toUpperCase v.
Proof.
  unfold declaredTarget, declares; split.
  - destruct (inVar && includes tl ":" && negb (startsWith ul "VAR")) eqn:C;
      [|discriminate].
    bool_facts.
    destruct (varMatch tl) as [[v ty]|]; [|discriminate].
    simpl; intro Hx; injection Hx as <-; exists v, ty.
    destruct inVar; [auto | discriminate].
  - intros (v & ty & (-> & Hv & Hm) & ->).
    now rewrite (varMatch_includes_colon _ _ _ Hm), Hv, Hm.
Qed.

Lemma firstn_S_nth (lines : list string) i l :
  nth_error lines i = Some l -> firstn (S i) lines = firstn i lines ++ [l].
Proof.
  revert i; induction lines as [|a ls IH]; intros [|i] H; simpl in *;
    try discriminate.
  - now injection H as ->.
  - now rewrite (IH i H).
Qed.

Lemma sectionAfter_at lines i l :
  processedLine lines i l ->
  sectionAfter (firstn (S i) lines)
  = sectionAfterLine (sectionAfter (firstn i lines)) (toUpperCase (trim l)).
Proof.
  intros (Hn & Hs).
  rewrite (firstn_S_nth _ _ _ Hn), sectionAfter_next.
  unfold sectionStep; now rewrite Hs.
Qed.

(** The state in which the callback meets line [i], and the rest of the
    loop. *)
Lemma forEachLine_at lines :
  forall index st i l,
    nth_error lines i = Some l ->
    exists st1 rest,
      inVarSection st1 = fold_left sectionStep (firstn i lines) (inVarSection st)
      /\ forEachLine lines index st
         = forEachLine rest (S (index + i)) (lineCallback st1 l (index + i)).
Proof.
  induction lines as [|a ls IH]; intros index st [|i] l H; simpl in H;
    try discriminate.
  - injection H as ->; exists st, ls; rewrite Nat.add_0_r; auto.
  - destruct (IH (S index) (lineCallback st a index) i l H) as (st1 & rest & Hin & E).
    exists st1, rest; simpl.
    rewrite <- lineCallback_inVarSection with (index := index).
    replace (index + S i) with (S index + i) by lia; auto.
Qed.

Lemma forEachDeclared_iecCompliance vars :
  forall st,
    iecCompliance (results (forEachDeclared vars st)) = iecCompliance (results st).
Proof.
  induction vars as [|v vs IH]; intro st; simpl; [reflexivity|].
  destruct (negb _); now rewrite IH.
Qed.

Lemma finalize_iecCompliance code st :
  iecCompliance (finalize code st) = iecCompliance (results st).
Proof.
  unfold finalize, calculateScores, suggestDecomposition, suggestEmergencyStop,
    suggestComments, checkUnused.
  split_rule; simpl; rewrite forEachDeclared_iecCompliance;
    unfold checkUnmatched; now split_rule.
Qed.

Lemma lineCallback_complianceLe st rawLine index :
  complianceLe (iecCompliance (results st))
               (iecCompliance (results (lineCallback st rawLine index))).
Proof.
  unfold lineCallback; destruct (skipLine _); [apply complianceLe_refl|].
  eapply lineStep_complianceLe, processLine_step; reflexivity.
Qed.

Lemma forEachLine_complianceLe lines :
  forall index st,
    complianceLe (iecCompliance (results st))
                 (iecCompliance (results (forEachLine lines index st))).
Proof.
  induction lines as [|l ls IH]; intros index st; simpl;
    [apply complianceLe_refl|].
  eapply complianceLe_trans; [apply lineCallback_complianceLe | apply IH].
Qed.

(** What the report keeps of the state right after a processed line. *)
Lemma processed_line_state code i l :
  processedLine (splitLines code) i l ->
  exists st1,
    sectionAfterLine (inVarSection st1) (toUpperCase (trim l))
    = sectionAfter (firstn (S i) (splitLines code))
    /\ grows syntaxError infoResult
         (results (processLine (trim l) (toUpperCase (trim l)) (i + 1) st1))
         (performSTValidation code)
    /\ complianceLe
         (iecCompliance
            (results (processLine (trim l) (toUpperCase (trim l)) (i + 1) st1)))
         (iecCompliance (performSTValidation code)).
Proof.
  intros P; pose proof P as (Hn & Hs).
  destruct (forEachLine_at (splitLines code) 0 initialState i l Hn)
    as (st1 & rest & Hin & E).
  simpl in Hin, E.
  exists st1; split; [|split].
  - rewrite (sectionAfter_at _ _ _ P); unfold sectionAfter; now rewrite Hin.
  - apply scan_reaches_report; unfold scan; rewrite E.
    unfold lineCallback; rewrite Hs; apply forEachLine_grows.
  - unfold performSTValidation; rewrite finalize_iecCompliance.
    unfold scan; rewrite E.
    unfold lineCallback; rewrite Hs; apply forEachLine_complianceLe.
Qed.

(** ** Rules that fire *)

Lemma grows_keeps_error P Q r r' e :
  grows P Q r r' -> In e (errors r) -> In e (errors r').
Proof.
  intros [(es & E & _) _ _ _] H; rewrite E; apply in_or_app; now left.
Qed.

Lemma reportError_In e st : In e (errors (results (reportError e st))).
Proof. simpl; apply in_or_app; right; now left. Qed.

Lemma reportWarning_In w st : In w (warnings (results (reportWarning w st))).
Proof. simpl; apply in_or_app; right; now left. Qed.

Section Firing.

Variables (tl ul : string) (n : nat) (st : ScanState).

(** The state the declaration parser starts from, and the one it
    leaves. *)
Let tracked : ScanState :=
  trackFunctionBlock ul (trackVarEnd ul (trackVarStart ul st)).
Let parsed : ScanState := parseDeclaration tl ul n tracked.
Let inVar : bool := sectionAfterLine (inVarSection st) ul.

Lemma tracked_inVarSection : inVarSection tracked = inVar.
Proof.
  unfold tracked, inVar.
  now rewrite trackFunctionBlock_inVarSection, tracking_inVarSection.
Qed.

Lemma parsed_to_end :
  lineStep inVar tl ul n (results parsed) (results (processLine tl ul n st)).
Proof. now apply processLine_after_declaration. Qed.

Lemma parsed_declares v ty :
  declares inVar tl ul v ty ->
  parsed = checkReserved n v
             (checkNaming n v
                (checkDataType n ty (addDeclared (toUpperCase v) tracked))).
Proof.
  intros (Hin & Hv & Hm); unfold parsed, parseDeclaration.
  now rewrite tracked_inVarSection, Hin, (varMatch_includes_colon _ _ _ Hm), Hv, Hm.
Qed.

Lemma checkReserved_iecCompliance v s :
  iecCompliance (results (checkReserved n v s)) = iecCompliance (results s).
Proof. unfold checkReserved; now split_rule. Qed.

Lemma processLine_reservedWordError v ty :
  declares inVar tl ul v ty ->
  arrayIncludes reservedWords (toUpperCase v) = true ->
  In (reservedWordError v n) (errors (results (processLine tl ul n st))).
Proof.
  intros Hd Hr; eapply lineStep_keeps_error; [apply parsed_to_end|].
  rewrite (parsed_declares v ty Hd); unfold checkReserved; rewrite Hr.
  apply reportError_In.
Qed.

Lemma processLine_nonStandardTypeWarning v ty :
  declares inVar tl ul v ty ->
  arrayIncludes standardDataTypes (toUpperCase ty) = false ->
  In (nonStandardTypeWarning ty n) (warnings (results (processLine tl ul n st))).
Proof.
  intros Hd Hr; eapply lineStep_keeps_warning; [apply parsed_to_end|].
  rewrite (parsed_declares v ty Hd).
  do 2 (eapply grows_In_warning; [apply (ro_grows _)|]).
  unfold checkDataType; rewrite Hr; apply reportWarning_In.
Qed.

Lemma processLine_dataTypeUsage v ty :
  declares inVar tl ul v ty ->
  arrayIncludes standardDataTypes (toUpperCase ty) = true ->
  dataTypeUsage (iecCompliance (results (processLine tl ul n st))) = true.
Proof.
  intros Hd Hr.
  apply (lineStep_complianceLe _ _ _ _ _ _ parsed_to_end).
  rewrite (parsed_declares v ty Hd), checkReserved_iecCompliance.
  apply (lineStep_complianceLe _ _ _ _ _ _ (checkNaming_step inVar tl ul n v ty _ Hd)).
  unfold checkDataType; now rewrite Hr.
Qed.

Lemma processLine_namingWarning v ty :
  declares inVar tl ul v ty ->
  namingPattern v = false ->
  In (namingWarning v n) (warnings (results (processLine tl ul n st)))
  /\ namingConvention (iecCompliance (results (processLine tl ul n st))) = false.
Proof.
  intros Hd Hr; split.
  - eapply lineStep_keeps_warning; [apply parsed_to_end|].
    rewrite (parsed_declares v ty Hd).
    eapply grows_In_warning; [apply (ro_grows _)|].
    unfold checkNaming; rewrite Hr; simpl.
    apply in_or_app; right; now left.
  - apply (lineStep_complianceLe _ _ _ _ _ _ parsed_to_end).
    rewrite (parsed_declares v ty Hd), checkReserved_iecCompliance.
    unfold checkNaming; now rewrite Hr.
Qed.

Lemma processLine_semicolonWarning :
  inVar = false -> statementPattern tl ul = true -> endsWith tl ";" = false ->
  In (semicolonWarning n) (warnings (results (processLine tl ul n st))).
Proof.
  intros Hin Hp He; unfold processLine.
  rewrite countParentheses_results.
  do 6 (eapply grows_In_warning; [apply (ro_grows _)|]).
  rewrite trackUsage_results.
  unfold checkSemicolon.
  rewrite !(ro_keeps_inVarSection _), parseDeclaration_inVarSection.
  fold tracked; rewrite tracked_inVarSection, Hin, He.
  unfold statementPattern in Hp; rewrite Hp; apply reportWarning_In.
Qed.

Lemma processLine_variableDeclaration :
  startsWith ul "VAR" = true ->
  variableDeclaration (iecCompliance (results (processLine tl ul n st))) = true.
Proof.
  intro H.
  apply (lineStep_complianceLe _ _ _ _ _ _ parsed_to_end).
  apply (lineStep_complianceLe _ _ _ _ _ _
           (parseDeclaration_step inVar tl ul n tracked tracked_inVarSection)).
  unfold tracked.
  rewrite trackFunctionBlock_results, trackVarEnd_results.
  unfold trackVarStart; now rewrite H.
Qed.

Lemma processLine_structureCompliance :
  structurePattern ul = true ->
  structureCompliance (iecCompliance (results (processLine tl ul n st))) = true.
Proof.
  intro H; unfold processLine; rewrite countParentheses_results.
  unfold checkStructure; unfold structurePattern in H; now rewrite H.
Qed.

End Firing.

Section SafetyFiring.

Variables (tl ul : string) (n : nat) (st : ScanState).

Lemma ro_safetyLe (rule : ScanState -> ScanState) `{ResultsOnly rule} s :
  safetyLe (safetyChecks (results s)) (safetyChecks (results (rule s))).
Proof. apply (grows_safety _ _ _ _ (ro_grows rule s)). Qed.

Lemma processLine_emergencyPattern :
  emergencyPattern tl = true ->
  emergencyStop (safetyChecks (results (processLine tl ul n st))) = true.
Proof.
  intro H; unfold processLine; rewrite countParentheses_results.
  do 5 apply (ro_safetyLe _).
  unfold checkEmergencyStop; now rewrite H.
Qed.

Lemma processLine_interlockPattern :
  interlockPattern tl = true ->
  safetyInterlocks (safetyChecks (results (processLine tl ul n st))) = true.
Proof.
  intro H; unfold processLine; rewrite countParentheses_results.
  do 4 apply (ro_safetyLe _).
  unfold checkSafetyInterlocks; now rewrite H.
Qed.

Lemma processLine_failSafePattern :
  failSafePattern tl = true ->
  failSafeMechanisms (safetyChecks (results (processLine tl ul n st))) = true.
Proof.
  intro H; unfold processLine; rewrite countParentheses_results.
  do 3 apply (ro_safetyLe _).
  unfold checkFailSafe; now rewrite H.
Qed.

Lemma processLine_watchdogPattern :
  watchdogPattern tl = true ->
  watchdogTimer (safetyChecks (results (processLine tl ul n st))) = true.
Proof.
  intro H; unfold processLine; rewrite countParentheses_results.
  do 2 apply (ro_safetyLe _).
  unfold checkWatchdog; now rewrite H.
Qed.

Lemma processLine_inputValidationPattern :
  inputValidationPattern tl = true ->
  inputValidation (safetyChecks (results (processLine tl ul n st))) = true.
Proof.
  intro H; unfold processLine; rewrite countParentheses_results.
  do 1 apply (ro_safetyLe _).
  unfold checkInputValidation; now rewrite H.
Qed.

End SafetyFiring.

(** ** Where the errors of a report come from *)

Lemma lineErrorOf_line inVar tl ul n e :
  lineErrorOf inVar tl ul n e -> line e = Some n.
Proof.
  intros [(v & ty & _ & _ & ->) | [(_ & _ & _ & ->) | [(_ & _ & ->) |
          [(_ & _ & ->) | (_ & _ & ->)]]]]; reflexivity.
Qed.

Lemma lineWarningOf_line inVar tl ul n w :
  lineWarningOf inVar tl ul n w -> line w = Some n.
Proof.
  intros [(v & ty & _ & _ & ->) | [(v & ty & _ & _ & ->) |
          [(_ & ->) | (_ & _ & _ & ->)]]]; reflexivity.
Qed.

Lemma report_error_cases code e :
  In e (errors (performSTValidation code)) ->
  (e = unmatchedError /\ parenthesisBalance code <> 0%Z)
  \/ someLine (splitLines code)
       (fun l n inVar => lineErrorOf inVar (trim l) (toUpperCase (trim l)) n e).
Proof.
  destruct (finalize_fields code (scan code)) as (E & _).
  fold (performSTValidation code) in E; rewrite E.
  intro H; apply in_app_or in H; destruct H as [H | H].
  - right.
    pose proof (traced_errors _ _ (scan_traced code)) as T.
    rewrite Forall_forall in T; now apply T.
  - left; unfold unmatchedErrors in H.
    destruct (braceCount (scan code) =? 0)%Z eqn:B; simpl in H; [contradiction|].
    destruct H as [<- | []]; split; [reflexivity|].
    rewrite <- scan_braceCount; now apply Z.eqb_neq.
Qed.

Lemma report_warning_cases code w :
  In w (warnings (performSTValidation code)) ->
  (exists v, w = unusedWarning v
             /\ In v (declaredVariables (scan code))
             /\ ~ In v (usedVariables (scan code)))
  \/ someLine (splitLines code)
       (fun l n inVar => lineWarningOf inVar (trim l) (toUpperCase (trim l)) n w).
Proof.
  destruct (finalize_fields code (scan code)) as (_ & _ & W & _).
  fold (performSTValidation code) in W; rewrite W.
  intro H; apply in_app_or in H; destruct H as [H | H].
  - right.
    pose proof (traced_warnings _ _ (scan_traced code)) as T.
    rewrite Forall_forall in T; now apply T.
  - left; apply in_map_iff in H; destruct H as (v & <- & H).
    exists v; split; [reflexivity|].
    unfold unusedVariables in H; apply filter_In in H; destruct H as (Hd & Hu).
    split; [assumption|].
    intro Hin; apply setHas_In in Hin; rewrite Hin in Hu; discriminate.
Qed.

(** A processed line hands its errors and warnings on to the report. *)
Lemma processed_line_error code i l e :
  processedLine (splitLines code) i l ->
  (forall st,
      sectionAfterLine (inVarSection st) (toUpperCase (trim l))
      = sectionAfter (firstn (S i) (splitLines code)) ->
      In e (errors (results
         (processLine (trim l) (toUpperCase (trim l)) (i + 1) st)))) ->
  In e (errors (performSTValidation code)).
Proof.
  intros P H.
  destruct (processed_line_state code i l P) as (st1 & Hin & G & _).
  eapply grows_keeps_error; [exact G | now apply H].
Qed.

Lemma processed_line_warning code i l w :
  processedLine (splitLines code) i l ->
  (forall st,
      sectionAfterLine (inVarSection st) (toUpperCase (trim l))
      = sectionAfter (firstn (S i) (splitLines code)) ->
      In w (warnings (results
         (processLine (trim l) (toUpperCase (trim l)) (i + 1) st)))) ->
  In w (warnings (performSTValidation code)).
Proof.
  intros P H.
  destruct (processed_line_state code i l P) as (st1 & Hin & G & _).
  eapply grows_In_warning; [exact G | now apply H].
Qed.

Lemma processLine_keeps_late_error tl ul n st e :
  In e (errors (results (checkSemicolon tl ul n st))) ->
  In e (errors (results
     (countParentheses tl
        (checkStructure ul
           (checkInputValidation tl
              (checkWatchdog tl
                 (checkFailSafe tl
                    (checkSafetyInterlocks tl
                       (checkEmergencyStop tl
                          (trackUsage tl (checkSemicolon tl ul n st))))))))))).
Proof.
  intro H; rewrite countParentheses_results.
  do 6 (eapply grows_keeps_error; [apply (ro_grows _)|]).
  now rewrite trackUsage_results.
Qed.

Lemma processLine_ifThenError tl ul n st :
  includes ul "IF " = true -> includes ul "THEN" = false ->
  includes tl ":=" = false ->
  In (ifThenError n) (errors (results (processLine tl ul n st))).
Proof.
  intros H1 H2 H3; unfold processLine; apply processLine_keeps_late_error.
  eapply grows_keeps_error; [apply (ro_grows (checkSemicolon tl ul n))|].
  do 4 (eapply grows_keeps_error; [apply (ro_grows _)|]).
  unfold checkIf; rewrite H1, H2, H3; apply reportError_In.
Qed.

Lemma processLine_forToError tl ul n st :
  includes ul "FOR " = true -> includes ul "TO" = false ->
  In (forToError n) (errors (results (processLine tl ul n st))).
Proof.
  intros H1 H2; unfold processLine; apply processLine_keeps_late_error.
  eapply grows_keeps_error; [apply (ro_grows (checkSemicolon tl ul n))|].
  do 3 (eapply grows_keeps_error; [apply (ro_grows _)|]).
  unfold checkFor; rewrite H1, H2; apply reportError_In.
Qed.

Lemma processLine_whileDoError tl ul n st :
  includes ul "WHILE " = true -> includes ul "DO" = false ->
  In (whileDoError n) (errors (results (processLine tl ul n st))).
Proof.
  intros H1 H2; unfold processLine; apply processLine_keeps_late_error.
  eapply grows_keeps_error; [apply (ro_grows (checkSemicolon tl ul n))|].
  do 2 (eapply grows_keeps_error; [apply (ro_grows _)|]).
  unfold checkWhile; rewrite H1, H2; apply reportError_In.
Qed.

Lemma processLine_caseOfError tl ul n st :
  includes ul "CASE " = true -> includes ul "OF" = false ->
  In (caseOfError n) (errors (results (processLine tl ul n st))).
Proof.
  intros H1 H2; unfold processLine; apply processLine_keeps_late_error.
  eapply grows_keeps_error; [apply (ro_grows (checkSemicolon tl ul n))|].
  do 1 (eapply grows_keeps_error; [apply (ro_grows _)|]).
  unfold checkCase; rewrite H1, H2; apply reportError_In.
Qed.

Lemma ifThenError_of inVar tl ul m n :
  lineErrorOf inVar tl ul m (ifThenError n) ->
  m = n /\ includes ul "IF " = true /\ includes ul "THEN" = false
  /\ includes tl ":=" = false.
Proof.
  intros [(v & ty & _ & _ & H) | [(H1 & H2 & H3 & H) | [(_ & _ & H) |
          [(_ & _ & H) | (_ & _ & H)]]]]; try discriminate H.
  injection H as ->; auto.
Qed.

Lemma forToError_of inVar tl ul m n :
  lineErrorOf inVar tl ul m (forToError n) ->
  m = n /\ includes ul "FOR " = true /\ includes ul "TO" = false.
Proof.
  intros [(v & ty & _ & _ & H) | [(_ & _ & _ & H) | [(H1 & H2 & H) |
          [(_ & _ & H) | (_ & _ & H)]]]]; try discriminate H.
  injection H as ->; auto.
Qed.

Lemma whileDoError_of inVar tl ul m n :
  lineErrorOf inVar tl ul m (whileDoError n) ->
  m = n /\ includes ul "WHILE " = true /\ includes ul "DO" = false.
Proof.
  intros [(v & ty & _ & _ & H) | [(_ & _ & _ & H) | [(_ & _ & H) |
          [(H1 & H2 & H) | (_ & _ & H)]]]]; try discriminate H.
  injection H as ->; auto.
Qed.

Lemma caseOfError_of inVar tl ul m n :
  lineErrorOf inVar tl ul m (caseOfError n) ->
  m = n /\ includes ul "CASE " = true /\ includes ul "OF" = false.
Proof.
  intros [(v & ty & _ & _ & H) | [(_ & _ & _ & H) | [(_ & _ & H) |
          [(_ & _ & H) | (H1 & H2 & H)]]]]; try discriminate H.
  injection H as ->; auto.
Qed.

Lemma reservedWordError_of inVar tl ul m n v :
  lineErrorOf inVar tl ul m (reservedWordError v n) ->
  m = n /\ exists v' ty, declares inVar tl ul v' ty
                         /\ arrayIncludes reservedWords (toUpperCase v') = true.
Proof.
  intros [(v' & ty & Hd & Hr & H) | [(_ & _ & _ & H) | [(_ & _ & H) |
          [(_ & _ & H) | (_ & _ & H)]]]]; try discriminate H.
  injection H as _ ->; split; [reflexivity | now exists v', ty].
Qed.

Lemma assignmentWarning_of inVar tl ul m n :
  lineWarningOf inVar tl ul m (assignmentWarning n) ->
  m = n /\ assignmentCondition tl ul = true.
Proof.
  intros [(v & ty & _ & _ & H) | [(v & ty & _ & _ & H) |
          [(H1 & H) | (_ & _ & _ & H)]]]; try discriminate H.
  injection H as ->; auto.
Qed.

Lemma semicolonWarning_of inVar tl ul m n :
  lineWarningOf inVar tl ul m (semicolonWarning n) ->
  m = n /\ inVar = false /\ statementPattern tl ul = true
  /\ endsWith tl ";" = false.
Proof.
  intros [(v & ty & _ & _ & H) | [(v & ty & _ & _ & H) |
          [(_ & H) | (H1 & H2 & H3 & H)]]]; try discriminate H.
  injection H as ->; auto.
Qed.

Lemma nonStandardTypeWarning_of inVar tl ul m n ty :
  lineWarningOf inVar tl ul m (nonStandardTypeWarning ty n) ->
  m = n /\ exists v ty', declares inVar tl ul v ty'
             /\ arrayIncludes standardDataTypes (toUpperCase ty') = false.
Proof.
  intros [(v & ty' & Hd & Hr & H) | [(v & ty' & _ & _ & H) |
          [(_ & H) | (_ & _ & _ & H)]]]; try discriminate H.
  injection H as _ ->; split; [reflexivity | now exists v, ty'].
Qed.

Lemma namingWarning_of inVar tl ul m n v :
  lineWarningOf inVar tl ul m (namingWarning v n) ->
  m = n /\ exists v' ty, declares inVar tl ul v' ty /\ namingPattern v' = false.
Proof.
  intros [(v' & ty & _ & _ & H) | [(v' & ty & Hd & Hr & H) |
          [(_ & H) | (_ & _ & _ & H)]]]; try discriminate H.
  injection H as _ ->; split; [reflexivity | now exists v', ty].
Qed.

(** X1.  Every error of a report is either the document-level
    unmatched-parentheses error, which occurs only when the parenthesis
    balance is not zero, or one of the five line errors (reserved word,
    IF/THEN, FOR/TO, WHILE/DO, CASE/OF), raised by an existing line that
    is not skipped and meets the condition of the rule; the error then
    carries the 1-based number of that line. *)
Theorem error_provenance (code : string) (e : ValidationResult) :
  In e (errors (performSTValidation code)) ->
  (e = unmatchedError /\ parenthesisBalance code <> 0%Z /\ line e = None)
  \/ exists i l,
       processedLine (splitLines code) i l
       /\ lineErrorOf (sectionAfter (firstn (S i) (splitLines code)))
                      (trim l) (toUpperCase (trim l)) (i + 1) e
       /\ line e = Some (i + 1)
       /\ (1 <= i + 1 <= List.length (splitLines code))%nat.
Proof.
  intro H; destruct (report_error_cases code e H) as [(-> & B) | (i & l & P & L)].
  - left; auto.
  - right; exists i, l.
    split; [exact P|]. split; [exact L|].
    split; [eapply lineErrorOf_line; eauto|].
    apply processedLine_bound in P; lia.
Qed.

Lemma error_provenance_witness :
  In (ifThenError 2) (errors (performSTValidation scenarioA))
  /\ exists i l,
       processedLine (splitLines scenarioA) i l
       /\ lineErrorOf (sectionAfter (firstn (S i) (splitLines scenarioA)))
                      (trim l) (toUpperCase (trim l)) (i + 1) (ifThenError 2).
Proof.
  assert (H : In (ifThenError 2) (errors (performSTValidation scenarioA)))
    by (vm_compute; right; left; reflexivity).
  split; [exact H|].
  destruct (error_provenance scenarioA (ifThenError 2) H)
    as [(E & _) | (i & l & P & L & _)]; [discriminate E|].
  exists i, l; split; [exact P | exact L].
Defined.

(** X2.  The four keyword-pair rules are exact.  The report holds the
    FOR error for line [n] exactly when line [n] exists, is not skipped,
    and its upper-cased text holds [FOR ] but not [TO]; likewise for
    IF/THEN (on lines without [:=]), WHILE/DO and CASE/OF. *)
Theorem keyword_pair_errors_exact (code : string) (n : nat) :
  (In (ifThenError n) (errors (performSTValidation code))
   <-> someLine (splitLines code) (fun l m _ =>
         m = n /\ includes (toUpperCase (trim l)) "IF " = true
         /\ includes (toUpperCase (trim l)) "THEN" = false
         /\ includes (trim l) ":=" = false))
  /\ (In (forToError n) (errors (performSTValidation code))
      <-> someLine (splitLines code) (fun l m _ =>
            m = n /\ includes (toUpperCase (trim l)) "FOR " = true
            /\ includes (toUpperCase (trim l)) "TO" = false))
  /\ (In (whileDoError n) (errors (performSTValidation code))
      <-> someLine (splitLines code) (fun l m _ =>
            m = n /\ includes (toUpperCase (trim l)) "WHILE " = true
            /\ includes (toUpperCase (trim l)) "DO" = false))
  /\ (In (caseOfError n) (errors (performSTValidation code))
      <-> someLine (splitLines code) (fun l m _ =>
            m = n /\ includes (toUpperCase (trim l)) "CASE " = true
            /\ includes (toUpperCase (trim l)) "OF" = false)).
Proof.
  repeat split.
  - intro H; destruct (report_error_cases code _ H) as [(E & _) | (i & l & P & L)];
      [discriminate E|].
    exists i, l; split; [exact P | exact (ifThenError_of _ _ _ _ _ L)].
  - intros (i & l & P & <- & H1 & H2 & H3).
    apply (processed_line_error code i l _ P).
    intros st _; now apply processLine_ifThenError.
  - intro H; destruct (report_error_cases code _ H) as [(E & _) | (i & l & P & L)];
      [discriminate E|].
    exists i, l; split; [exact P | exact (forToError_of _ _ _ _ _ L)].
  - intros (i & l & P & <- & H1 & H2).
    apply (processed_line_error code i l _ P).
    intros st _; now apply processLine_forToError.
  - intro H; destruct (report_error_cases code _ H) as [(E & _) | (i & l & P & L)];
      [discriminate E|].
    exists i, l; split; [exact P | exact (whileDoError_of _ _ _ _ _ L)].
  - intros (i & l & P & <- & H1 & H2).
    apply (processed_line_error code i l _ P).
    intros st _; now apply processLine_whileDoError.
  - intro H; destruct (report_error_cases code _ H) as [(E & _) | (i & l & P & L)];
      [discriminate E|].
    exists i, l; split; [exact P | exact (caseOfError_of _ _ _ _ _ L)].
  - intros (i & l & P & <- & H1 & H2).
    apply (processed_line_error code i l _ P).
    intros st _; now apply processLine_caseOfError.
Qed.

(** X3.  Every warning of a report is either the unused-variable warning
    of a name that is declared and never recorded as used, without line
    number, or one of the four line warnings (non-standard data type,
    naming convention, assignment operator, missing semicolon) raised by
    an existing line that is not skipped and meets the condition of the
    rule, with the 1-based number of that line. *)
Theorem warning_provenance (code : string) (w : ValidationResult) :
  In w (warnings (performSTValidation code)) ->
  (exists v, w = unusedWarning v
             /\ In v (declaredVariables (scan code))
             /\ ~ In v (usedVariables (scan code))
             /\ line w = None)
  \/ exists i l,
       processedLine (splitLines code) i l
       /\ lineWarningOf (sectionAfter (firstn (S i) (splitLines code)))
                        (trim l) (toUpperCase (trim l)) (i + 1) w
       /\ line w = Some (i + 1)
       /\ (1 <= i + 1 <= List.length (splitLines code))%nat.
Proof.
  intro H; destruct (report_warning_cases code w H)
    as [(v & -> & Hd & Hu) | (i & l & P & L)].
  - left; exists v; auto.
  - right; exists i, l.
    split; [exact P|]. split; [exact L|].
    split; [eapply lineWarningOf_line; eauto|].
    apply processedLine_bound in P; lia.
Qed.

Lemma warning_provenance_witness :
  In (assignmentWarning 4) (warnings (performSTValidation scenarioC))
  /\ exists i l,
       processedLine (splitLines scenarioC) i l
       /\ lineWarningOf (sectionAfter (firstn (S i) (splitLines scenarioC)))
                        (trim l) (toUpperCase (trim l)) (i + 1)
                        (assignmentWarning 4).
Proof.
  assert (H : In (assignmentWarning 4) (warnings (performSTValidation scenarioC)))
    by (vm_compute; left; reflexivity).
  split; [exact H|].
  destruct (warning_provenance scenarioC (assignmentWarning 4) H)
    as [(v & E & _) | (i & l & P & L & _)]; [discriminate E|].
  exists i, l; split; [exact P | exact L].
Defined.

(** X4.  The assignment-operator rule and the semicolon rule are exact.
    The report holds the assignment warning for line [n] exactly when
    line [n] exists, is not skipped, holds [=], holds none of [:=], [<=],
    [>=], [<>], and its upper-cased text does not hold [IF ].  It holds
    the semicolon warning for line [n] exactly when line [n] exists, is
    not skipped, lies outside a declaration section, holds [:=] or starts
    with [RETURN] or holds [EXIT], and does not end with [;]. *)
Theorem statement_warnings_exact (code : string) (n : nat) :
  (In (assignmentWarning n) (warnings (performSTValidation code))
   <-> someLine (splitLines code) (fun l m _ =>
         m = n /\ assignmentCondition (trim l) (toUpperCase (trim l)) = true))
  /\ (In (semicolonWarning n) (warnings (performSTValidation code))
      <-> someLine (splitLines code) (fun l m inVar =>
            m = n /\ inVar = false
            /\ statementPattern (trim l) (toUpperCase (trim l)) = true
            /\ endsWith (trim l) ";" = false)).
Proof.
  repeat split.
  - intro H; destruct (report_warning_cases code _ H)
      as [(v & E & _) | (i & l & P & L)]; [discriminate E|].
    exists i, l; split; [exact P | exact (assignmentWarning_of _ _ _ _ _ L)].
  - intros (i & l & P & <- & H).
    apply (processed_line_warning code i l _ P).
    intros st _; now apply processLine_assignmentWarning.
  - intro H; destruct (report_warning_cases code _ H)
      as [(v & E & _) | (i & l & P & L)]; [discriminate E|].
    exists i, l; split; [exact P | exact (semicolonWarning_of _ _ _ _ _ L)].
  - intros (i & l & P & <- & H1 & H2 & H3).
    apply (processed_line_warning code i l _ P).
    intros st Hin; apply processLine_semicolonWarning; congruence.
Qed.

(** X5.  The declaration table is exact: a name is in
    [declaredVariables] after the scan exactly when it is the upper-cased
    identifier of some processed line that lies inside a declaration
    section, does not start with [VAR], and matches the declaration
    pattern [identifier : type]. *)
Theorem declared_variables_exact (code x : string) :
  In x (declaredVariables (scan code))
  <-> someLine (splitLines code) (fun l _ inVar =>
        exists v ty, declares inVar (trim l) (toUpperCase (trim l)) v ty
                     /\ x = toUpperCase v).
Proof.
  unfold scan; rewrite forEachLine_declaredVariables; simpl; split.
  - intros [[] | (i & l & P & H)].
    exists i, l; split; [exact P | now apply declaredTarget_declares].
  - intros (i & l & P & H); right.
    exists i, l; split; [exact P | now apply declaredTarget_declares].
Qed.

(** X6.  The diagnostics of the declaration parser are exact.  The report
    holds a reserved-word error for line [n] exactly when line [n] is a
    declaration line whose identifier, upper-cased, is a reserved word; it
    holds a non-standard-type warning for line [n] exactly when line [n]
    is a declaration line whose type token, upper-cased, is not a standard
    data type; it holds a naming warning for line [n] exactly when line
    [n] is a declaration line whose identifier fails the naming
    pattern. *)
Theorem declaration_diagnostics_exact (code : string) (n : nat) :
  ((exists v, In (reservedWordError v n) (errors (performSTValidation code)))
   <-> someLine (splitLines code) (fun l m inVar =>
         m = n /\ exists v ty,
           declares inVar (trim l) (toUpperCase (trim l)) v ty
           /\ arrayIncludes reservedWords (toUpperCase v) = true))
  /\ ((exists ty, In (nonStandardTypeWarning ty n)
                     (warnings (performSTValidation code)))
      <-> someLine (splitLines code) (fun l m inVar =>
            m = n /\ exists v ty,
              declares inVar (trim l) (toUpperCase (trim l)) v ty
              /\ arrayIncludes standardDataTypes (toUpperCase ty) = false))
  /\ ((exists v, In (namingWarning v n) (warnings (performSTValidation code)))
      <-> someLine (splitLines code) (fun l m inVar =>
            m = n /\ exists v ty,
              declares inVar (trim l) (toUpperCase (trim l)) v ty
              /\ namingPattern v = false)).
Proof.
  repeat split.
  - intros (v & H); destruct (report_error_cases code _ H)
      as [(E & _) | (i & l & P & L)]; [discriminate E|].
    exists i, l; split; [exact P | exact (reservedWordError_of _ _ _ _ _ _ L)].
  - intros (i & l & P & <- & v & ty & Hd & Hr); exists v.
    apply (processed_line_error code i l _ P).
    intros st Hin; apply (processLine_reservedWordError _ _ _ _ v ty);
      [now rewrite Hin | exact Hr].
  - intros (ty & H); destruct (report_warning_cases code _ H)
      as [(v & E & _) | (i & l & P & L)]; [discriminate E|].
    exists i, l; split; [exact P | exact (nonStandardTypeWarning_of _ _ _ _ _ _ L)].
  - intros (i & l & P & <- & v & ty & Hd & Hr); exists ty.
    apply (processed_line_warning code i l _ P).
    intros st Hin; apply (processLine_nonStandardTypeWarning _ _ _ _ v ty);
      [now rewrite Hin | exact Hr].
  - intros (v & H); destruct (report_warning_cases code _ H)
      as [(v' & E & _) | (i & l & P & L)]; [discriminate E|].
    exists i, l; split; [exact P | exact (namingWarning_of _ _ _ _ _ _ L)].
  - intros (i & l & P & <- & v & ty & Hd & Hr); exists v.
    apply (processed_line_warning code i l _ P).
    intros st Hin; apply (processLine_namingWarning _ _ _ _ v ty);
      [now rewrite Hin | exact Hr].
Qed.

(** ** Flags *)

Lemma processed_line_safety code i l :
  processedLine (splitLines code) i l ->
  exists st1,
    safetyLe
      (safetyChecks
         (results (processLine (trim l) (toUpperCase (trim l)) (i + 1) st1)))
      (safetyChecks (performSTValidation code)).
Proof.
  intro P; destruct (processed_line_state code i l P) as (st1 & _ & G & _).
  exists st1; exact (grows_safety _ _ _ _ G).
Qed.

Lemma report_traced code :
  safetyChecks (performSTValidation code) = safetyChecks (results (scan code))
  /\ iecCompliance (performSTValidation code) = iecCompliance (results (scan code)).
Proof.
  destruct (finalize_fields code (scan code)) as (_ & _ & _ & S & _).
  split; [exact S | apply finalize_iecCompliance].
Qed.

(** X7.  The safety audit is exact: each of the five flags of the report
    is true exactly when some processed line matches the pattern of its
    keyword family. *)
Theorem safety_flags_exact (code : string) :
  (emergencyStop (safetyChecks (performSTValidation code)) = true
   <-> someLine (splitLines code) (fun l _ _ => emergencyPattern (trim l) = true))
  /\ (safetyInterlocks (safetyChecks (performSTValidation code)) = true
      <-> someLine (splitLines code) (fun l _ _ => interlockPattern (trim l) = true))
  /\ (failSafeMechanisms (safetyChecks (performSTValidation code)) = true
      <-> someLine (splitLines code) (fun l _ _ => failSafePattern (trim l) = true))
  /\ (watchdogTimer (safetyChecks (performSTValidation code)) = true
      <-> someLine (splitLines code) (fun l _ _ => watchdogPattern (trim l) = true))
  /\ (inputValidation (safetyChecks (performSTValidation code)) = true
      <-> someLine (splitLines code)
            (fun l _ _ => inputValidationPattern (trim l) = true)).
Proof.
  destruct (report_traced code) as (S & _).
  pose proof (scan_traced code) as T.
  repeat split.
  - rewrite S; apply (traced_emergencyStop _ _ T).
  - intros (i & l & P & H).
    destruct (processed_line_safety code i l P) as (st1 & L).
    now apply L, processLine_emergencyPattern.
  - rewrite S; apply (traced_safetyInterlocks _ _ T).
  - intros (i & l & P & H).
    destruct (processed_line_safety code i l P) as (st1 & L).
    now apply L, processLine_interlockPattern.
  - rewrite S; apply (traced_failSafeMechanisms _ _ T).
  - intros (i & l & P & H).
    destruct (processed_line_safety code i l P) as (st1 & L).
    now apply L, processLine_failSafePattern.
  - rewrite S; apply (traced_watchdogTimer _ _ T).
  - intros (i & l & P & H).
    destruct (processed_line_safety code i l P) as (st1 & L).
    now apply L, processLine_watchdogPattern.
  - rewrite S; apply (traced_inputValidation _ _ T).
  - intros (i & l & P & H).
    destruct (processed_line_safety code i l P) as (st1 & L).
    now apply L, processLine_inputValidationPattern.
Qed.

(** X8.  The compliance audit is exact: [variableDeclaration] is true
    exactly when some processed line, upper-cased, starts with [VAR];
    [dataTypeUsage] exactly when some declaration line has a standard
    type token; [structureCompliance] exactly when some processed line
    holds one of [END_IF], [END_FOR], [END_WHILE], [END_CASE]; and
    [namingConvention] is false exactly when some declaration line has an
    identifier that fails the naming pattern. *)
Theorem compliance_flags_exact (code : string) :
  (variableDeclaration (iecCompliance (performSTValidation code)) = true
   <-> someLine (splitLines code)
         (fun l _ _ => startsWith (toUpperCase (trim l)) "VAR" = true))
  /\ (dataTypeUsage (iecCompliance (performSTValidation code)) = true
      <-> someLine (splitLines code) (fun l _ inVar =>
            exists v ty, declares inVar (trim l) (toUpperCase (trim l)) v ty
              /\ arrayIncludes standardDataTypes (toUpperCase ty) = true))
  /\ (structureCompliance (iecCompliance (performSTValidation code)) = true
      <-> someLine (splitLines code)
            (fun l _ _ => structurePattern (toUpperCase (trim l)) = true))
  /\ (namingConvention (iecCompliance (performSTValidation code)) = false
      <-> someLine (splitLines code) (fun l _ inVar =>
            exists v ty, declares inVar (trim l) (toUpperCase (trim l)) v ty
              /\ namingPattern v = false)).
Proof.
  destruct (report_traced code) as (_ & C).
  pose proof (scan_traced code) as T.
  repeat split.
  - rewrite C; apply (traced_variableDeclaration _ _ T).
  - intros (i & l & P & H).
    destruct (processed_line_state code i l P) as (st1 & _ & _ & L).
    now apply L, processLine_variableDeclaration.
  - rewrite C; apply (traced_dataTypeUsage _ _ T).
  - intros (i & l & P & v & ty & Hd & H).
    destruct (processed_line_state code i l P) as (st1 & Hin & _ & L).
    apply L, (processLine_dataTypeUsage _ _ _ _ v ty); [now rewrite Hin | exact H].
  - rewrite C; apply (traced_structureCompliance _ _ T).
  - intros (i & l & P & H).
    destruct (processed_line_state code i l P) as (st1 & _ & _ & L).
    now apply L, processLine_structureCompliance.
  - rewrite C; apply (traced_namingConvention _ _ T).
  - intros (i & l & P & v & ty & Hd & H).
    destruct (processed_line_state code i l P) as (st1 & Hin & _ & L).
    apply L, (processLine_namingWarning _ _ _ _ v ty); [now rewrite Hin | exact H].
Qed.

(** ** Identifiers *)

Lemma varMatch_identifier s v ty :
  varMatch s = Some (v, ty) ->
  v = fst (span isWordChar s) /\ isEmpty v = false.
Proof.
  unfold varMatch; destruct (span isWordChar s) as (w, r1); simpl.
  destruct (isEmpty w) eqn:E; [discriminate|].
  destruct (dropWhile isWhiteSpace r1) as [|c r2]; [discriminate|].
  destruct (Ascii.eqb c ":"); [|discriminate].
  destruct (span isWordChar (dropWhile isWhiteSpace r2)) as (t, _).
  destruct (isEmpty t); [discriminate|].
  intro H; injection H as <- _; auto.
Qed.

Lemma wordChar_not_letter c :
  isWordChar c = true -> isLetter c = false ->
  isDigit c = true \/ c = "_"%char.
Proof.
  unfold isWordChar; intros H L; rewrite L in H; simpl in H.
  destruct (isDigit c); [now left | right]; simpl in H.
  unfold codeBetween in H; apply andb_prop in H; destruct H as (H1 & H2).
  apply Nat.leb_le in H1, H2.
  rewrite <- (ascii_nat_embedding c).
  now replace (nat_of_ascii c) with 95 by lia.
Qed.

(** X9.  An identifier captured by the declaration pattern is a non-empty
    run of word characters, so the naming-convention check looks at its
    first character only: it fails exactly when that character is not a
    letter, that is, when the identifier starts with a digit or an
    underscore. *)
Theorem naming_check_first_character (tl v ty : string) :
  varMatch tl = Some (v, ty) ->
  exists c r,
    v = String c r
    /\ allChars isWordChar v = true
    /\ namingPattern v = isLetter c
    /\ (namingPattern v = false -> isDigit c = true \/ c = "_"%char).
Proof.
  intro H; destruct (varMatch_identifier _ _ _ H) as (Hv & Hne).
  pose proof (span_allChars isWordChar tl) as A; rewrite <- Hv in A.
  destruct v as [|c r]; [discriminate|].
  exists c, r; simpl in A |- *.
  apply andb_prop in A; destruct A as (Ac & Ar).
  rewrite Ac, Ar, !andb_true_r.
  split; [reflexivity|]. split; [reflexivity|]. split; [reflexivity|].
  intro L; now apply wordChar_not_letter.
Qed.

Lemma naming_check_first_character_witness :
  varMatch "_tmp : INT;" = Some ("_tmp", "INT")
  /\ exists c r, "_tmp" = String c r /\ namingPattern "_tmp" = isLetter c.
Proof.
  assert (H : varMatch "_tmp : INT;" = Some ("_tmp", "INT")) by reflexivity.
  split; [exact H|].
  destruct (naming_check_first_character _ _ _ H) as (c & r & E & _ & N & _).
  exists c, r; split; [exact E | exact N].
Defined.

Lemma toUpperCase_app a b :
  toUpperCase (a ++ b) = (toUpperCase a ++ toUpperCase b)%string.
Proof.
  induction a as [|c a IH]; simpl; [reflexivity|].
  destruct (Ascii.eqb c sharpS); simpl; now rewrite IH.
Qed.

Lemma startsWith_app_l a b p :
  startsWith a p = true -> startsWith (a ++ b)%string p = true.
Proof.
  revert p; induction a as [|c a IH]; intros [|d p]; simpl; auto.
  - now destruct b.
  - discriminate.
  - intro H; apply andb_prop in H; destruct H as (H1 & H2).
    now rewrite H1, IH.
Qed.

Lemma varMatch_prefix s v ty :
  varMatch s = Some (v, ty) -> exists r, s = (v ++ r)%string.
Proof.
  intro H; destruct (varMatch_identifier _ _ _ H) as (-> & _).
  exists (snd (span isWordChar s)); apply span_app.
Qed.

(** X10.  No name in [declaredVariables] starts with [VAR]: a line whose
    upper-cased text starts with [VAR] is taken for a section opener and
    is never parsed as a declaration, so a variable named, say,
    [var_speed] is never recorded. *)
Theorem declared_names_never_start_with_VAR (code x : string) :
  In x (declaredVariables (scan code)) -> startsWith x "VAR" = false.
Proof.
  unfold scan; rewrite forEachLine_declaredVariables; simpl.
  intros [[] | (i & l & P & H)].
  apply declaredTarget_declares in H.
  destruct H as (v & ty & (_ & Hv & Hm) & ->).
  destruct (varMatch_prefix _ _ _ Hm) as (r & E).
  destruct (startsWith (toUpperCase v) "VAR") eqn:S; [|reflexivity].
  rewrite E, toUpperCase_app, (startsWith_app_l _ _ _ S) in Hv; discriminate.
Qed.

Lemma declared_names_never_start_with_VAR_witness :
  declaredVariables (scan varNameExample) = ["SPEED"]
  /\ startsWith "SPEED" "VAR" = false.
Proof.
  assert (E : declaredVariables (scan varNameExample) = ["SPEED"])
    by (vm_compute; reflexivity).
  split; [exact E|].
  apply (declared_names_never_start_with_VAR varNameExample).
  rewrite E; left; reflexivity.
Defined.

(** ** Unused variables, suggestions and scores *)

Lemma setAdd_NoDup s x : NoDup s -> NoDup (setAdd s x).
Proof.
  intro H; unfold setAdd; destruct (setHas s x) eqn:E; [assumption|].
  apply NoDup_app; repeat split; auto.
  - repeat constructor; intros [].
  - intros y Hy [<- | []].
    apply setHas_In in Hy; congruence.
Qed.

Lemma lineCallback_NoDup st rawLine index :
  NoDup (declaredVariables st) /\ NoDup (usedVariables st) ->
  NoDup (declaredVariables (lineCallback st rawLine index))
  /\ NoDup (usedVariables (lineCallback st rawLine index)).
Proof.
  intros (Hd & Hu); unfold lineCallback; destruct (skipLine _); [now split|].
  rewrite processLine_declaredVariables, processLine_usedVariables.
  destruct (declaredTarget _ _ _), (recordedTarget _);
    split; auto using setAdd_NoDup.
Qed.

Lemma forEachLine_NoDup lines :
  forall index st,
    NoDup (declaredVariables st) /\ NoDup (usedVariables st) ->
    NoDup (declaredVariables (forEachLine lines index st))
    /\ NoDup (usedVariables (forEachLine lines index st)).
Proof.
  induction lines as [|l ls IH]; intros index st H; simpl; [assumption|].
  now apply IH, lineCallback_NoDup.
Qed.

Lemma scan_NoDup code :
  NoDup (declaredVariables (scan code)) /\ NoDup (usedVariables (scan code)).
Proof. apply forEachLine_NoDup; split; constructor. Qed.

Lemma length_append (a b : string) :
  String.length (a ++ b) = String.length a + String.length b.
Proof. induction a as [|c a IH]; simpl; [reflexivity | now rewrite IH]. Qed.

Lemma append_inv_tail (a b s : string) :
  (a ++ s)%string = (b ++ s)%string -> a = b.
Proof.
  revert b; induction a as [|c a IH]; intros [|d b] H; simpl in H.
  - reflexivity.
  - apply (f_equal String.length) in H; simpl in H.
    rewrite length_append in H; lia.
  - apply (f_equal String.length) in H; simpl in H.
    rewrite length_append in H; lia.
  - injection H as -> H; now rewrite (IH b H).
Qed.

Lemma unusedWarning_inj v v' : unusedWarning v = unusedWarning v' -> v = v'.
Proof.
  unfold unusedWarning, mkResult; intro H; injection H as H.
  now apply append_inv_tail in H.
Qed.

Lemma NoDup_map_unusedWarning vs : NoDup vs -> NoDup (map unusedWarning vs).
Proof.
  induction 1 as [|v vs Hv _ IH]; simpl; constructor; auto.
  intro H; apply in_map_iff in H; destruct H as (v' & E & H).
  apply unusedWarning_inj in E; now subst.
Qed.

(** X11.  The unused-variable warnings close the list of warnings: the
    warnings of a report are the line warnings, each with its line
    number, followed by one warning without line number for every
    declared name that was never recorded as used, in declaration order.
    [declaredVariables] holds no name twice, so no such warning is
    repeated, however often a name is declared. *)
Theorem unused_warnings_once (code : string) :
  NoDup (declaredVariables (scan code))
  /\ NoDup (unusedVariables (scan code))
  /\ (forall v, In v (unusedVariables (scan code))
                <-> In v (declaredVariables (scan code))
                    /\ ~ In v (usedVariables (scan code)))
  /\ NoDup (map unusedWarning (unusedVariables (scan code)))
  /\ exists ws,
       warnings (performSTValidation code)
       = ws ++ map unusedWarning (unusedVariables (scan code))
       /\ Forall (fun w => line w <> None) ws.
Proof.
  destruct (scan_NoDup code) as (Hd & _).
  assert (Hu : NoDup (unusedVariables (scan code)))
    by (unfold unusedVariables; now apply NoDup_filter).
  split; [exact Hd|]. split; [exact Hu|]. split; [|split].
  - intro v; unfold unusedVariables; rewrite filter_In.
    split; intros (H1 & H2); split; auto.
    + intro Hin; apply setHas_In in Hin; rewrite Hin in H2; discriminate.
    + destruct (setHas (usedVariables (scan code)) v) eqn:E; [|reflexivity].
      now apply setHas_In in E.
  - now apply NoDup_map_unusedWarning.
  - destruct (finalize_fields code (scan code)) as (_ & _ & W & _).
    exists (warnings (results (scan code))); split; [exact W|].
    pose proof (traced_warnings _ _ (scan_traced code)) as T.
    eapply Forall_impl; [|exact T].
    intros w (i & l & _ & L); rewrite (lineWarningOf_line _ _ _ _ _ L); discriminate.
Qed.

Lemma scan_no_suggestion code : suggestions (results (scan code)) = [].
Proof.
  destruct (scan_grows code) as [_ _ (ss & U & F) _].
  rewrite U; destruct F as [|s ss []]; reflexivity.
Qed.

(** X12.  The suggestions of a report are exact: the comment suggestion
    is present exactly when the source holds neither the comment opener
    nor [//] anywhere, the emergency-stop suggestion exactly when
    [emergencyStop] is false, the decomposition suggestion exactly when
    the source has more than 100 lines; a report holds no other
    suggestion and at most three. *)
Theorem suggestions_exact (code : string) :
  (In commentSuggestion (suggestions (performSTValidation code))
   <-> includes code commentOpen = false /\ includes code "//" = false)
  /\ (In emergencyStopSuggestion (suggestions (performSTValidation code))
      <-> emergencyStop (safetyChecks (performSTValidation code)) = false)
  /\ (In largeProgramSuggestion (suggestions (performSTValidation code))
      <-> (100 < List.length (splitLines code))%nat)
  /\ (forall s, In s (suggestions (performSTValidation code)) ->
                s = commentSuggestion \/ s = emergencyStopSuggestion
                \/ s = largeProgramSuggestion)
  /\ (List.length (suggestions (performSTValidation code)) <= 3)%nat.
Proof.
  destruct (finalize_fields code (scan code)) as (_ & _ & _ & S & U).
  fold (performSTValidation code) in S, U.
  rewrite U, S, scan_no_suggestion; unfold finalSuggestions; simpl.
  destruct (includes code commentOpen), (includes code "//"),
    (emergencyStop (safetyChecks (results (scan code))));
    destruct (Nat.ltb_spec 100 (List.length (splitLines code))) as [L | L];
    simpl;
    (split; [|split; [|split; [|split]]]);
    try (simpl; lia);
    try (intros s Hs; intuition (subst; auto); fail);
    try (split; intro Hs; intuition (try discriminate; try lia); fail).
Qed.

(** X13.  What the score formulas imply.  The clamp of [safetyScore]
    never cuts: the score is 20 times the number of true flags and is 100
    exactly when all five are true.  An invalid report has
    [syntaxScore] at most 85; [syntaxScore] is 100 exactly when the
    report has neither errors nor warnings, and 0 exactly when 15 times
    the errors plus 5 times the warnings reaches 100. *)
Theorem score_consequences (code : string) :
  let r := performSTValidation code in
  safetyScore r = (20 * countTrue (safetyChecks r))%Z
  /\ (safetyScore r = 100%Z
      <-> emergencyStop (safetyChecks r) = true
          /\ safetyInterlocks (safetyChecks r) = true
          /\ failSafeMechanisms (safetyChecks r) = true
          /\ watchdogTimer (safetyChecks r) = true
          /\ inputValidation (safetyChecks r) = true)
  /\ (isValid r = false -> (syntaxScore r <= 85)%Z)
  /\ (syntaxScore r = 100%Z <-> errors r = [] /\ warnings r = [])
  /\ (syntaxScore r = 0%Z
      <-> (100 <= 15 * Z.of_nat (List.length (errors r))
                  + 5 * Z.of_nat (List.length (warnings r)))%Z).
Proof.
  cbv zeta.
  destruct (finalize_scores code (scan code)) as (Sy & _ & Sa).
  destruct (performSTValidation_grows code) as [(es & E & _ & V) _ _ _].
  fold (performSTValidation code) in Sy, Sa.
  set (r := performSTValidation code) in *.
  pose proof (countTrue_bounds (safetyChecks r)) as B.
  split; [lia|]. split; [|split; [|split]].
  - rewrite Sa; unfold countTrue in *.
    destruct (safetyChecks r) as [[] [] [] [] []]; simpl in *;
      split; intro H; try lia; try (repeat split; reflexivity);
      try (destruct H as (? & ? & ? & ? & ?); discriminate).
  - intro Hv; rewrite V in Hv.
    destruct es as [|e es]; [discriminate Hv|].
    assert (1 <= List.length (errors r))%nat
      by (rewrite E, length_app; simpl; lia).
    lia.
  - rewrite Sy; split.
    + intro H.
      assert (L1 : List.length (errors r) = 0) by lia.
      assert (L2 : List.length (warnings r) = 0) by lia.
      split; now apply length_zero_iff_nil.
    + intros (-> & ->); reflexivity.
  - rewrite Sy; lia.
Qed.

Lemma score_consequences_witness :
  isValid (performSTValidation scenarioB) = false
  /\ (syntaxScore (performSTValidation scenarioB) <= 85)%Z.
Proof.
  assert (H : isValid (performSTValidation scenarioB) = false)
    by (vm_compute; reflexivity).
  split; [exact H|].
  pose proof (score_consequences scenarioB) as C; cbv zeta in C.
  destruct C as (_ & _ & C & _); exact (C H).
Defined.

(** ** Lines that look alike to the scanner *)

Lemma lineCallback_alike st a b index :
  alikeLines a b -> lineCallback st a index = lineCallback st b index.
Proof.
  unfold lineCallback; intros [E | (Ha & Hb)].
  - now rewrite E.
  - now rewrite Ha, Hb.
Qed.

Lemma forEachLine_alike ls1 ls2 :
  Forall2 alikeLines ls1 ls2 ->
  forall index st, forEachLine ls1 index st = forEachLine ls2 index st.
Proof.
  induction 1 as [|a b ls1 ls2 Hab _ IH]; intros index st; simpl; [reflexivity|].
  now rewrite (lineCallback_alike st a b index Hab), IH.
Qed.

(** X14.  Indentation, trailing white space and the text of skipped lines
    never matter: two sources whose lines are, one by one, equal after
    trimming or both skipped, leave the scan in the same state and yield
    reports with the same validity, errors, warnings, audits and
    scores. *)
Theorem alike_sources_same_report (code1 code2 : string) :
  Forall2 alikeLines (splitLines code1) (splitLines code2) ->
  scan code1 = scan code2
  /\ isValid (performSTValidation code1) = isValid (performSTValidation code2)
  /\ errors (performSTValidation code1) = errors (performSTValidation code2)
  /\ warnings (performSTValidation code1) = warnings (performSTValidation code2)
  /\ safetyChecks (performSTValidation code1)
     = safetyChecks (performSTValidation code2)
  /\ iecCompliance (performSTValidation code1)
     = iecCompliance (performSTValidation code2)
  /\ syntaxScore (performSTValidation code1)
     = syntaxScore (performSTValidation code2)
  /\ logicScore (performSTValidation code1)
     = logicScore (performSTValidation code2)
  /\ safetyScore (performSTValidation code1)
     = safetyScore (performSTValidation code2).
Proof.
  intro H.
  assert (S : scan code1 = scan code2)
    by (unfold scan; now apply forEachLine_alike).
  destruct (finalize_fields code1 (scan code1)) as (E1 & V1 & W1 & S1 & _).
  destruct (finalize_fields code2 (scan code2)) as (E2 & V2 & W2 & S2 & _).
  destruct (finalize_scores code1 (scan code1)) as (Sy1 & Lo1 & Sa1).
  destruct (finalize_scores code2 (scan code2)) as (Sy2 & Lo2 & Sa2).
  pose proof (performSTValidation_no_semantics code1) as N1.
  pose proof (performSTValidation_no_semantics code2) as N2.
  pose proof (finalize_iecCompliance code1 (scan code1)) as C1.
  pose proof (finalize_iecCompliance code2 (scan code2)) as C2.
  fold (performSTValidation code1) in *; fold (performSTValidation code2) in *.
  rewrite Sy1, Sy2, Lo1, Lo2, Sa1, Sa2, N1, N2, C1, C2, E1, E2, V1, V2,
    W1, W2, S1, S2, S.
  repeat split.
Qed.

Lemma alike_sources_same_report_witness :
  Forall2 alikeLines (splitLines bareExample) (splitLines indentedExample)
  /\ errors (performSTValidation bareExample)
     = errors (performSTValidation indentedExample).
Proof.
  assert (H : Forall2 alikeLines (splitLines bareExample)
                      (splitLines indentedExample)).
  { vm_compute splitLines.
    constructor; [left; vm_compute; reflexivity|].
    constructor; [right; split; vm_compute; reflexivity | constructor]. }
  split; [exact H|].
  destruct (alike_sources_same_report _ _ H) as (_ & _ & E & _); exact E.
Defined.

(** ** The validation panel *)

Lemma trimEnd_nonempty c r :
  isWhiteSpace c = false -> trimEnd (String c r) <> EmptyString.
Proof.
  intro H; simpl; destruct (trimEnd r); [rewrite H|]; discriminate.
Qed.

Lemma trimStart_cases s :
  (trimStart s = EmptyString /\ allChars isWhiteSpace s = true)
  \/ (exists c r, trimStart s = String c r /\ isWhiteSpace c = false
                  /\ allChars isWhiteSpace s = false).
Proof.
  induction s as [|c s IH]; simpl; [now left|].
  destruct (isWhiteSpace c) eqn:C; simpl; [exact IH|].
  right; now exists c, s.
Qed.

Lemma trim_empty_iff s :
  trim s = EmptyString <-> allChars isWhiteSpace s = true.
Proof.
  split; [|apply trim_whiteSpace].
  unfold trim; destruct (trimStart_cases s) as [(_ & A) | (c & r & -> & C & _)];
    [trivial|].
  intro H; now apply trimEnd_nonempty in H.
Qed.

Lemma isEmpty_iff s : isEmpty s = true <-> s = EmptyString.
Proof. destruct s; simpl; split; congruence. Qed.

Lemma handleValidateCode_mutate g code :
  handleValidateCode g = mutate code
  <-> g = Some code /\ isEmpty code = false /\ isEmpty (trim code) = false.
Proof.
  unfold handleValidateCode; destruct g as [g|]; [|split; [discriminate|]].
  - destruct (isEmpty g) eqn:E1, (isEmpty (trim g)) eqn:E2; simpl; split;
      try discriminate.
    + intros (H & H1 & _); injection H as ->; congruence.
    + intros (H & H1 & _); injection H as ->; congruence.
    + intros (H & _ & H2); injection H as ->; congruence.
    + intro H; injection H as ->; auto.
    + intros (H & _); now injection H as ->.
  - intros (H & _); discriminate.
Qed.

Lemma positive_length s : (0 <? String.length s)%nat = negb (isEmpty s).
Proof. now destruct s. Qed.

(** X15.  The handler of the validate button and the flag that enables
    the button agree: [handleValidateCode] hands the code to the
    validator exactly when [hasGeneratedCode] is true, and shows the
    [No Code to Validate] toast otherwise.  Code that reaches the
    validator through the panel therefore always holds a character that
    is not white space. *)
Theorem validate_handler_guard (generatedCode : option string) :
  (forall code,
      handleValidateCode generatedCode = mutate code
      <-> generatedCode = Some code /\ hasGeneratedCode generatedCode = true)
  /\ (handleValidateCode generatedCode = showToast noCodeToast
      <-> hasGeneratedCode generatedCode = false)
  /\ (forall code,
        handleValidateCode generatedCode = mutate code ->
        allChars isWhiteSpace code = false).
Proof.
  split; [|split].
  - intro code; rewrite handleValidateCode_mutate; split.
    + intros (-> & H1 & H2); split; [reflexivity|]; simpl.
      now rewrite H1, positive_length, H2.
    + intros (-> & H); simpl in H; split; [reflexivity|].
      destruct (isEmpty code); [discriminate|].
      rewrite positive_length in H; split; [reflexivity|].
      now destruct (isEmpty (trim code)).
  - unfold handleValidateCode, hasGeneratedCode.
    destruct generatedCode as [g|]; [|now split].
    rewrite positive_length.
    destruct (isEmpty g), (isEmpty (trim g)); simpl; split; congruence.
  - intros code H; apply handleValidateCode_mutate in H.
    destruct H as (_ & _ & H).
    destruct (allChars isWhiteSpace code) eqn:A; [|reflexivity].
    apply trim_empty_iff in A; rewrite A in H; discriminate.
Qed.

Lemma validate_handler_guard_witness :
  handleValidateCode (Some scenarioB) = mutate scenarioB
  /\ allChars isWhiteSpace scenarioB = false.
Proof.
  assert (H : handleValidateCode (Some scenarioB) = mutate scenarioB)
    by (vm_compute; reflexivity).
  split; [exact H|].
  exact (proj2 (proj2 (validate_handler_guard (Some scenarioB))) scenarioB H).
Defined.

(** X16.  The toast shown after a validation tells the truth about the
    report: it is the default [validation passed] toast exactly when the
    report has no error, and otherwise the destructive toast whose text
    counts the errors and warnings, with at least one error in the
    count. *)
Theorem success_toast_reflects_errors (code : string) :
  let r := performSTValidation code in
  (errors r = [] ->
   toastVariant (onSuccessToast r) = variantDefault
   /\ toastDescription (onSuccessToast r) = "Structured Text validation passed")
  /\ (errors r <> [] ->
      toastVariant (onSuccessToast r) = variantDestructive
      /\ toastDescription (onSuccessToast r)
         = ("Found " ++ numberToString (List.length (errors r))
            ++ " errors and " ++ numberToString (List.length (warnings r))
            ++ " warnings")%string
      /\ (1 <= List.length (errors r))%nat)
  /\ (toastVariant (onSuccessToast r) = variantDestructive <-> errors r <> []).
Proof.
  cbv zeta.
  destruct (performSTValidation_grows code) as [(es & E & _ & V) _ _ _].
  set (r := performSTValidation code) in *.
  assert (Hv : isValid r = isNil (errors r)) by (rewrite V, E; now destruct es).
  unfold onSuccessToast; rewrite Hv.
  destruct (errors r) as [|e l]; simpl; repeat split;
    try congruence; try discriminate; try lia.
Qed.

Lemma success_toast_reflects_errors_witness :
  errors (performSTValidation scenarioB) <> []
  /\ toastDescription (onSuccessToast (performSTValidation scenarioB))
     = "Found 1 errors and 0 warnings".
Proof.
  assert (H : errors (performSTValidation scenarioB) <> [])
    by (vm_compute; discriminate).
  split; [exact H|].
  pose proof (success_toast_reflects_errors scenarioB) as T; cbv zeta in T.
  destruct T as (_ & T & _); destruct (T H) as (_ & D & _).
  rewrite D; vm_compute; reflexivity.
Defined.

(** ** The template list *)

Lemma startsWith_iff s p :
  startsWith s p = true <-> exists y, s = (p ++ y)%string.
Proof.
  revert s; induction p as [|b p IH]; intros s.
  - split; [intros _; now exists s | intros _; now destruct s].
  - destruct s as [|a s]; simpl.
    + split; [discriminate | intros (y & H); discriminate].
    + rewrite andb_true_iff, Ascii.eqb_eq, IH; split.
      * intros (-> & y & ->); now exists y.
      * intros (y & H); injection H as -> ->; split; [reflexivity | now exists y].
Qed.

Lemma includes_iff s p :
  includes s p = true <-> exists x y, s = (x ++ p ++ y)%string.
Proof.
  induction s as [|c s IH].
  - cbn [includes]; rewrite orb_false_r, startsWith_iff; split.
    + intros (y & H); now exists EmptyString, y.
    + intros ([|c x] & y & H); [now exists y | discriminate].
  - cbn [includes]; rewrite orb_true_iff, startsWith_iff, IH; split.
    + intros [(y & H) | (x & y & H)].
      * now exists EmptyString, y.
      * exists (String c x), y; simpl; now rewrite H.
    + intros ([|d x] & y & H); [left; now exists y|].
      right; injection H as -> ->; now exists x, y.
Qed.

Lemma includes_trans s b a :
  includes s b = true -> includes b a = true -> includes s a = true.
Proof.
  rewrite !includes_iff; intros (x & y & ->) (x' & y' & ->).
  exists (x ++ x')%string, (y' ++ y)%string.
  now rewrite !append_assoc.
Qed.

Lemma toLowerCase_app a b :
  toLowerCase (a ++ b) = (toLowerCase a ++ toLowerCase b)%string.
Proof. induction a as [|c a IH]; simpl; [reflexivity | now rewrite IH]. Qed.

Lemma includes_toLowerCase b a :
  includes b a = true -> includes (toLowerCase b) (toLowerCase a) = true.
Proof.
  rewrite !includes_iff; intros (x & y & ->).
  exists (toLowerCase x), (toLowerCase y); now rewrite !toLowerCase_app.
Qed.

Lemma includes_empty s : includes s EmptyString = true.
Proof. now destruct s. Qed.

Lemma lowerChar_upperChar c : lowerChar (upperChar c) = lowerChar c.
Proof. destruct c as [[] [] [] [] [] [] [] []]; vm_compute; reflexivity. Qed.

Lemma lowerChar_idem c : lowerChar (lowerChar c) = lowerChar c.
Proof. destruct c as [[] [] [] [] [] [] [] []]; vm_compute; reflexivity. Qed.

Lemma is7Bit_not_sharpS c : is7Bit c = true -> Ascii.eqb c sharpS = false.
Proof.
  destruct c as [[] [] [] [] [] [] [] []]; vm_compute; congruence.
Qed.

Lemma toLowerCase_toUpperCase s :
  allChars is7Bit s = true -> toLowerCase (toUpperCase s) = toLowerCase s.
Proof.
  induction s as [|c s IH]; simpl; [reflexivity|].
  intro H; apply andb_prop in H; destruct H as (Hc & Hs).
  rewrite (is7Bit_not_sharpS _ Hc); simpl.
  now rewrite lowerChar_upperChar, IH.
Qed.

Lemma toLowerCase_idem s : toLowerCase (toLowerCase s) = toLowerCase s.
Proof.
  induction s as [|c s IH]; simpl; [reflexivity|].
  now rewrite lowerChar_idem, IH.
Qed.

Lemma filter_all {A : Type} (f : A -> bool) (l : list A) :
  (forall x, In x l -> f x = true) -> filter f l = l.
Proof.
  induction l as [|x l IH]; simpl; intro H; [reflexivity|].
  rewrite (H x (or_introl eq_refl)), IH; [reflexivity|].
  intros y Hy; apply H; now right.
Qed.

Lemma filter_filter_implied {A : Type} (f g : A -> bool) (l : list A) :
  (forall x, f x = true -> g x = true) -> filter f (filter g l) = filter f l.
Proof.
  intro H; induction l as [|x l IH]; simpl; [reflexivity|].
  destruct (g x) eqn:G; simpl.
  - now rewrite IH.
  - rewrite IH; destruct (f x) eqn:F; [|reflexivity].
    apply H in F; congruence.
Qed.

Section TemplateList.

Context {VariableRecord : Type}.

Implicit Types (allTemplates : list (Template VariableRecord))
  (template : Template VariableRecord).

Lemma matchesSearch_empty template : matchesSearch EmptyString template = true.
Proof. unfold matchesSearch; simpl; now rewrite includes_empty. Qed.

Lemma matchesSearch_lower term1 term2 template :
  toLowerCase term1 = toLowerCase term2 ->
  matchesSearch term1 template = matchesSearch term2 template.
Proof. unfold matchesSearch; now intros ->. Qed.

Lemma matchesSearch_narrows term1 term2 template :
  includes term2 term1 = true ->
  matchesSearch term2 template = true -> matchesSearch term1 template = true.
Proof.
  intro I; apply includes_toLowerCase in I.
  unfold matchesSearch; rewrite !orb_true_iff; intros [H | H].
  - left; exact (includes_trans _ _ _ H I).
  - right; destruct (templateDescription template); [|discriminate].
    exact (includes_trans _ _ _ H I).
Qed.

Lemma filteredTemplates_without_search allTemplates selectedCategory :
  filteredTemplates allTemplates EmptyString selectedCategory
  = if String.eqb selectedCategory "all" then allTemplates
    else filter (fun template =>
                   String.eqb (templateCategory template) selectedCategory)
                allTemplates.
Proof.
  unfold filteredTemplates, matchesCategory.
  destruct (String.eqb selectedCategory "all").
  - apply filter_all; intros t _; now rewrite matchesSearch_empty.
  - apply filter_ext; intro t; now rewrite matchesSearch_empty.
Qed.

(** X17.  With the search box empty the panel lists the templates by
    category alone: all of them, in the order received, under
    [All Templates] (the state the panel starts in), and under another
    category those of that category, also the ones without a
    description. *)
Theorem template_list_without_search allTemplates selectedCategory :
  filteredTemplates allTemplates EmptyString "all" = allTemplates
  /\ filteredTemplates allTemplates EmptyString selectedCategory
     = if String.eqb selectedCategory "all" then allTemplates
       else filter (fun template =>
                      String.eqb (templateCategory template) selectedCategory)
                   allTemplates.
Proof.
  split; [|apply filteredTemplates_without_search].
  now rewrite filteredTemplates_without_search.
Qed.

(** X18.  The search ignores the case of the search term: the term in
    lower case lists the same templates as the term itself, and so does
    a term of 7-bit characters in upper case. *)
Theorem template_search_ignores_case allTemplates searchTerm selectedCategory :
  filteredTemplates allTemplates (toLowerCase searchTerm) selectedCategory
  = filteredTemplates allTemplates searchTerm selectedCategory
  /\ (allChars is7Bit searchTerm = true ->
      filteredTemplates allTemplates (toUpperCase searchTerm) selectedCategory
      = filteredTemplates allTemplates searchTerm selectedCategory).
Proof.
  split; [|intro H]; apply filter_ext; intro t; f_equal;
    apply matchesSearch_lower.
  - apply toLowerCase_idem.
  - now apply toLowerCase_toUpperCase.
Qed.

(** X19.  A longer search term narrows the list: when the term [term1]
    occurs in [term2], the templates listed for [term2] are those among
    the templates listed for [term1] that match [term2], so every one of
    them was listed for [term1], in the same order. *)
Theorem template_search_narrows allTemplates term1 term2 selectedCategory :
  includes term2 term1 = true ->
  filteredTemplates allTemplates term2 selectedCategory
  = filteredTemplates
      (filteredTemplates allTemplates term1 selectedCategory)
      term2 selectedCategory
  /\ incl (filteredTemplates allTemplates term2 selectedCategory)
          (filteredTemplates allTemplates term1 selectedCategory).
Proof.
  intro I.
  assert (E : filteredTemplates allTemplates term2 selectedCategory
              = filteredTemplates
                  (filteredTemplates allTemplates term1 selectedCategory)
                  term2 selectedCategory).
  { unfold filteredTemplates; symmetry; apply filter_filter_implied.
    intros t; rewrite !andb_true_iff; intros (S & C); split; [|exact C].
    exact (matchesSearch_narrows _ _ _ I S). }
  split; [exact E|].
  rewrite E; intros t H; unfold filteredTemplates at 1 in H.
  now apply filter_In in H.
Qed.

End TemplateList.

Lemma template_search_ignores_case_witness :
  allChars is7Bit "Motor" = true
  /\ filteredTemplates searchExample "MOTOR" "all"
     = filteredTemplates searchExample "Motor" "all".
Proof.
  assert (H : allChars is7Bit "Motor" = true) by (vm_compute; reflexivity).
  split; [exact H|].
  exact (proj2 (template_search_ignores_case searchExample "Motor" "all") H).
Defined.

Lemma template_search_narrows_witness :
  includes "motor start" "motor" = true
  /\ incl (filteredTemplates searchExample "motor start" "all")
          (filteredTemplates searchExample "motor" "all").
Proof.
  assert (I : includes "motor start" "motor" = true) by (vm_compute; reflexivity).
  split; [exact I|].
  exact (proj2 (template_search_narrows searchExample "motor" "motor start" "all" I)).
Defined.

(** ** The in-memory store *)

Section MapFacts.

Context {V : Type}.

Implicit Types (m : JsMap V) (k : string) (v : V).

Lemma mapGet_mapSet m k v : mapGet (mapSet m k v) k = Some v.
Proof.
  induction m as [|[k' v'] m IH]; simpl.
  - now rewrite String.eqb_refl.
  - destruct (String.eqb k' k) eqn:E; simpl.
    + now rewrite String.eqb_refl.
    + now rewrite E.
Qed.

Lemma mapGet_mapSet_other m k k' v :
  k <> k' -> mapGet (mapSet m k v) k' = mapGet m k'.
Proof.
  intro N; induction m as [|[k1 v1] m IH]; simpl.
  - apply String.eqb_neq in N; now rewrite N.
  - destruct (String.eqb k1 k) eqn:E; simpl.
    + apply String.eqb_eq in E; subst k1.
      apply String.eqb_neq in N; now rewrite N.
    + now rewrite IH.
Qed.

Lemma mapGet_absent m k : mapGet m k = None <-> ~ In k (mapKeys m).
Proof.
  induction m as [|[k' v'] m IH]; simpl; [tauto|].
  destruct (String.eqb k' k) eqn:E.
  - apply String.eqb_eq in E; split; [discriminate | tauto].
  - apply String.eqb_neq in E; rewrite IH; tauto.
Qed.

Lemma mapGet_In m k v : mapGet m k = Some v -> In (k, v) m.
Proof.
  induction m as [|[k' v'] m IH]; simpl; [discriminate|].
  destruct (String.eqb k' k) eqn:E; [|auto].
  apply String.eqb_eq in E; intro H; injection H as ->; subst; now left.
Qed.

Lemma In_mapGet m k v : NoDup (mapKeys m) -> In (k, v) m -> mapGet m k = Some v.
Proof.
  induction m as [|[k' v'] m IH]; simpl; [tauto|].
  intros N [H | H]; inversion N as [|? ? N1 N2]; subst.
  - injection H as -> ->; now rewrite String.eqb_refl.
  - destruct (String.eqb k' k) eqn:E; [|auto].
    apply String.eqb_eq in E; subst k'.
    exfalso; apply N1; unfold mapKeys.
    now apply (in_map fst) in H.
Qed.

Lemma mapSet_absent m k v : mapGet m k = None -> mapSet m k v = m ++ [(k, v)].
Proof.
  induction m as [|[k' v'] m IH]; simpl; [reflexivity|].
  destruct (String.eqb k' k); [discriminate|].
  intro H; now rewrite IH.
Qed.

Lemma mapKeys_mapSet m k v e :
  mapGet m k = Some e -> mapKeys (mapSet m k v) = mapKeys m.
Proof.
  induction m as [|[k' v'] m IH]; simpl; [discriminate|].
  destruct (String.eqb k' k) eqn:E; simpl.
  - apply String.eqb_eq in E; now subst.
  - intro H; now rewrite IH.
Qed.

Lemma In_mapSet m k v e : In e (mapSet m k v) -> e = (k, v) \/ In e m.
Proof.
  induction m as [|[k' v'] m IH]; simpl; [intros [H | []]; auto|].
  destruct (String.eqb k' k); simpl; intros [H | H]; auto.
  destruct (IH H); auto.
Qed.

Lemma In_mapKeys_mapSet m k v k' :
  In k' (mapKeys (mapSet m k v)) -> k' = k \/ In k' (mapKeys m).
Proof.
  unfold mapKeys; rewrite !in_map_iff; intros ([k1 v1] & <- & H).
  apply In_mapSet in H; destruct H as [H | H].
  - injection H as -> ->; now left.
  - right; now exists (k1, v1).
Qed.

Lemma NoDup_mapSet m k v : NoDup (mapKeys m) -> NoDup (mapKeys (mapSet m k v)).
Proof.
  induction m as [|[k' v'] m IH]; simpl; intro N.
  - constructor; [tauto | constructor].
  - inversion N as [|? ? N1 N2]; subst.
    destruct (String.eqb k' k) eqn:E; simpl.
    + apply String.eqb_eq in E; subst; now constructor.
    + constructor; [|auto].
      intro H; apply In_mapKeys_mapSet in H; destruct H as [-> | H]; [|tauto].
      now rewrite String.eqb_refl in E.
Qed.

Lemma mapDelete_cons m k k' v' :
  mapDelete ((k', v') :: m) k
  = if String.eqb k' k then (true, m)
    else (fst (mapDelete m k), (k', v') :: snd (mapDelete m k)).
Proof. simpl; now destruct (String.eqb k' k), (mapDelete m k). Qed.

Lemma mapDelete_deleted m k :
  fst (mapDelete m k) = match mapGet m k with Some _ => true | None => false end.
Proof.
  induction m as [|[k' v'] m IH]; [reflexivity|].
  rewrite mapDelete_cons; simpl; now destruct (String.eqb k' k).
Qed.

Lemma mapDelete_absent m k : mapGet m k = None -> snd (mapDelete m k) = m.
Proof.
  induction m as [|[k' v'] m IH]; [reflexivity|].
  rewrite mapDelete_cons; simpl; destruct (String.eqb k' k); [discriminate|].
  intro H; simpl; now rewrite IH.
Qed.

Lemma mapDelete_filter m k :
  NoDup (mapKeys m) ->
  snd (mapDelete m k) = filter (fun e => negb (String.eqb (fst e) k)) m.
Proof.
  induction m as [|[k' v'] m IH]; [reflexivity|].
  rewrite mapDelete_cons; simpl; intro N; inversion N as [|? ? N1 N2]; subst.
  destruct (String.eqb k' k) eqn:E; simpl; [|now rewrite IH].
  apply String.eqb_eq in E; subst k'.
  symmetry; apply filter_all; intros [k1 v1] H; simpl.
  destruct (String.eqb k1 k) eqn:E; [|reflexivity].
  apply String.eqb_eq in E; subst k1.
  exfalso; apply N1; now apply (in_map fst) in H.
Qed.

Lemma mapGet_mapDelete m k :
  NoDup (mapKeys m) -> mapGet (snd (mapDelete m k)) k = None.
Proof.
  intro N; rewrite mapDelete_filter by assumption.
  apply mapGet_absent; unfold mapKeys; rewrite in_map_iff.
  intros ([k1 v1] & E & H); simpl in E; subst k1.
  apply filter_In in H; destruct H as (_ & H); simpl in H.
  now rewrite String.eqb_refl in H.
Qed.

Lemma mapGet_mapDelete_other m k k' :
  k <> k' -> mapGet (snd (mapDelete m k)) k' = mapGet m k'.
Proof.
  intro N; induction m as [|[k1 v1] m IH]; [reflexivity|].
  rewrite mapDelete_cons; simpl; destruct (String.eqb k1 k) eqn:E; simpl.
  - apply String.eqb_eq in E; subst k1.
    apply String.eqb_neq in N; now rewrite N.
  - now rewrite IH.
Qed.

Lemma In_mapDelete m k e : In e (snd (mapDelete m k)) -> In e m.
Proof.
  induction m as [|[k1 v1] m IH]; [trivial|].
  rewrite mapDelete_cons; destruct (String.eqb k1 k); simpl; [auto|].
  intros [H | H]; auto.
Qed.

Lemma NoDup_mapDelete m k :
  NoDup (mapKeys m) -> NoDup (mapKeys (snd (mapDelete m k))).
Proof.
  induction m as [|[k1 v1] m IH]; [trivial|].
  rewrite mapDelete_cons; intro N; inversion N as [|? ? N1 N2]; subst.
  destruct (String.eqb k1 k); simpl; [assumption|].
  constructor; [|auto].
  intro H; apply N1; unfold mapKeys in *; rewrite in_map_iff in *.
  destruct H as (e & E & H); exists e; split; [exact E|].
  exact (In_mapDelete _ _ _ H).
Qed.

Variable idOf : V -> string.

Lemma keyedBy_nil : keyedBy idOf [].
Proof. split; [constructor | intros k v []]. Qed.

Lemma keyedBy_mapSet m k v :
  keyedBy idOf m -> idOf v = k -> keyedBy idOf (mapSet m k v).
Proof.
  intros (N & K) E; split; [now apply NoDup_mapSet|].
  intros k' v' H; apply In_mapSet in H; destruct H as [H | H]; [|auto].
  now injection H as -> ->.
Qed.

Lemma keyedBy_mapDelete m k : keyedBy idOf m -> keyedBy idOf (snd (mapDelete m k)).
Proof.
  intros (N & K); split; [now apply NoDup_mapDelete|].
  intros k' v' H; apply K; exact (In_mapDelete _ _ _ H).
Qed.

Lemma keyedBy_values m v :
  keyedBy idOf m -> In v (mapValues m) -> mapGet m (idOf v) = Some v.
Proof.
  intros (N & K) H; unfold mapValues in H; rewrite in_map_iff in H.
  destruct H as ([k v'] & E & H); simpl in E; subst v'.
  rewrite (K _ _ H); now apply In_mapGet.
Qed.

Lemma keyedBy_ids m : keyedBy idOf m -> map idOf (mapValues m) = mapKeys m.
Proof.
  intros (_ & K); unfold mapValues, mapKeys; rewrite map_map.
  apply map_ext_in; intros [k v] H; simpl; exact (K _ _ H).
Qed.

Lemma keyedBy_delete_values m k :
  keyedBy idOf m ->
  mapValues (snd (mapDelete m k))
  = filter (fun v => negb (String.eqb (idOf v) k)) (mapValues m).
Proof.
  intros (N & K); rewrite mapDelete_filter by assumption; clear N.
  induction m as [|[k1 v1] m IH]; [reflexivity|].
  simpl; rewrite (K k1 v1 (or_introl eq_refl)).
  destruct (String.eqb k1 k); simpl; rewrite IH; auto.
  - intros k' v' H; apply K; now right.
  - intros k' v' H; apply K; now right.
Qed.

End MapFacts.

Section StoreFacts.

Context {Date VariableRecord : Type}.

Implicit Types (st : MemStorage Date VariableRecord)
  (req : Request Date VariableRecord).

Lemma setProjects_same st : setProjects (projects st) st = st.
Proof. now destruct st. Qed.

Lemma deleteProject_eq id st :
  deleteProject id st
  = (fst (mapDelete (projects st) id),
     setProjects (snd (mapDelete (projects st) id)) st).
Proof. unfold deleteProject; now destruct (mapDelete (projects st) id). Qed.

Lemma registerRoutes_delete id st :
  registerRoutes (DeleteProject id) st
  = match getProject st id with
    | Some _ => (statusJson 204 emptyBody,
                 setProjects (snd (mapDelete (projects st) id)) st)
    | None => (statusJson 404 (jsonMessage "Project not found"), st)
    end.
Proof.
  unfold registerRoutes, getProject; rewrite deleteProject_eq, mapDelete_deleted.
  destruct (mapGet (projects st) id) eqn:G; [reflexivity|].
  now rewrite mapDelete_absent, setProjects_same.
Qed.

Lemma registerRoutes_put now id updates st :
  registerRoutes (PutProject now id (parsedData updates)) st
  = match getProject st id with
    | Some existing =>
        (json (jsonProject (updatedProject now existing updates)),
         setProjects
           (mapSet (projects st) id (updatedProject now existing updates)) st)
    | None => (statusJson 404 (jsonMessage "Project not found"), st)
    end.
Proof.
  unfold registerRoutes, updateProject, getProject.
  now destruct (mapGet (projects st) id).
Qed.

Lemma registerRoutes_invariant req st :
  storageInvariant st -> storageInvariant (snd (registerRoutes req st)).
Proof.
  intros (P & T); destruct req as [|id|uuid now [m|ins]|now id [m|upd]|id|[c|]|id|uuid [m|ins]];
    try (split; assumption).
  - simpl; now destruct (getProject st id).
  - split; [|exact T]; simpl; now apply keyedBy_mapSet.
  - rewrite registerRoutes_put; unfold getProject.
    destruct (mapGet (projects st) id) as [existing|] eqn:G; [|now split].
    split; [|exact T]; simpl; apply keyedBy_mapSet; [exact P|].
    simpl; destruct P as (_ & K); apply K; now apply mapGet_In.
  - rewrite registerRoutes_delete; destruct (getProject st id); [|now split].
    split; [|exact T]; simpl; now apply keyedBy_mapDelete.
  - simpl; now destruct (isEmpty c).
  - simpl; now destruct (getTemplate st id).
  - split; [exact P|]; simpl; now apply keyedBy_mapSet.
Qed.

Lemma serve_cons req reqs st :
  serve (req :: reqs) st
  = (fst (registerRoutes req st) :: fst (serve reqs (snd (registerRoutes req st))),
     snd (serve reqs (snd (registerRoutes req st)))).
Proof.
  change (serve (req :: reqs) st)
    with (let (response, st') := registerRoutes req st in
          let (responses, st'') := serve reqs st' in
          (response :: responses, st'')).
  destruct (registerRoutes req st) as [r st']; simpl.
  now destruct (serve reqs st').
Qed.

Lemma serve_invariant reqs st :
  storageInvariant st -> storageInvariant (snd (serve reqs st)).
Proof.
  revert st; induction reqs as [|req reqs IH]; intros st I; [exact I|].
  rewrite serve_cons; simpl; apply IH; now apply registerRoutes_invariant.
Qed.

Lemma emptyStorage_invariant : storageInvariant (@emptyStorage Date VariableRecord).
Proof. split; apply keyedBy_nil. Qed.

Lemma forEachTemplate_invariant randomUUID k l st :
  storageInvariant st -> storageInvariant (forEachTemplate randomUUID k l st).
Proof.
  revert k st; induction l as [|t l IH]; intros k st I; [exact I|].
  simpl; apply IH; destruct I as (P & T); split; [exact P|].
  simpl; now apply keyedBy_mapSet.
Qed.

(** The stored templates all satisfy [Q]. *)
Lemma forEachTemplate_templates (Q : Template VariableRecord -> Prop)
    randomUUID k l st :
  (forall id t, In t l -> Q (fst (createTemplate id t st))) ->
  (forall t, In t (getAllTemplates st) -> Q t) ->
  forall t, In t (getAllTemplates (forEachTemplate randomUUID k l st)) -> Q t.
Proof.
  revert k st; induction l as [|t0 l IH]; intros k st C A; [exact A|].
  simpl; apply IH.
  - intros id t H; exact (C id t (or_intror H)).
  - intros t H; unfold getAllTemplates, mapValues in H; simpl in H.
    rewrite in_map_iff in H; destruct H as ([k1 v1] & E & H); simpl in E; subst v1.
    apply In_mapSet in H; destruct H as [H | H].
    + injection H as _ ->; exact (C (randomUUID k) t0 (or_introl eq_refl)).
    + apply A; unfold getAllTemplates, mapValues.
      now apply (in_map snd) in H.
Qed.

Lemma registerRoutes_templates (Q : Template VariableRecord -> Prop) req st :
  (forall id ins, Q (fst (createTemplate id ins st))) ->
  (forall t, In t (getAllTemplates st) -> Q t) ->
  forall t, In t (getAllTemplates (snd (registerRoutes req st))) -> Q t.
Proof.
  intros C A.
  destruct req as [|id|uuid now [m|ins]|now id [m|upd]|id|[c|]|id|uuid [m|ins]];
    try exact A.
  - simpl; now destruct (getProject st id).
  - rewrite registerRoutes_put; now destruct (getProject st id).
  - rewrite registerRoutes_delete; now destruct (getProject st id).
  - simpl; now destruct (isEmpty c).
  - simpl; now destruct (getTemplate st id).
  - intros t H; unfold getAllTemplates, mapValues in H; simpl in H.
    rewrite in_map_iff in H; destruct H as ([k1 v1] & E & H); simpl in E; subst v1.
    apply In_mapSet in H; destruct H as [H | H].
    + injection H as _ ->; exact (C uuid ins).
    + apply A; unfold getAllTemplates, mapValues.
      now apply (in_map snd) in H.
Qed.

Lemma serve_templates (Q : Template VariableRecord -> Prop) reqs st :
  (forall id ins st', Q (fst (createTemplate id ins st'))) ->
  (forall t, In t (getAllTemplates st) -> Q t) ->
  forall t, In t (getAllTemplates (snd (serve reqs st))) -> Q t.
Proof.
  intro C; revert st; induction reqs as [|req reqs IH]; intros st A; [exact A|].
  rewrite serve_cons; simpl; apply IH.
  apply registerRoutes_templates; [intros; apply C | exact A].
Qed.

Lemma stringOrNull_nonempty x : stringOrNull x <> Some EmptyString.
Proof.
  destruct x as [| |s]; simpl; try discriminate.
  destruct s; simpl; discriminate.
Qed.

Lemma boolOrNull_true x : boolOrNull x <> Some false.
Proof. destruct x as [| |[]]; simpl; discriminate. Qed.

End StoreFacts.

(** X20.  The category filter of the server and that of the panel
    agree: for a category other than [all], the templates the route
    [GET /api/templates?category=c] answers with are those the panel
    lists, with an empty search box, out of the answer of
    [GET /api/templates].  For [all] they differ: the panel lists every
    template, the server those whose category is literally [all]. *)
Theorem category_filter_server_and_panel {Date VariableRecord : Type}
    (st : MemStorage Date VariableRecord) (category : string) :
  isEmpty category = false ->
  fst (registerRoutes (GetTemplates None) st)
  = json (jsonTemplates (getAllTemplates st))
  /\ (category <> "all" ->
      fst (registerRoutes (GetTemplates (Some category)) st)
      = json (jsonTemplates
                (filteredTemplates (getAllTemplates st) EmptyString category)))
  /\ fst (registerRoutes (GetTemplates (Some "all")) st)
     = json (jsonTemplates
               (filter (fun t => String.eqb (templateCategory t) "all")
                       (filteredTemplates (getAllTemplates st) EmptyString "all"))).
Proof.
  intro E; split; [reflexivity|]; split.
  - intro N; simpl; rewrite E; simpl; do 2 f_equal.
    rewrite filteredTemplates_without_search.
    apply String.eqb_neq in N; now rewrite N.
  - simpl; do 2 f_equal.
    now rewrite filteredTemplates_without_search.
Qed.

Lemma category_filter_server_and_panel_witness :
  isEmpty "conveyor" = false
  /\ fst (registerRoutes (GetTemplates (Some "conveyor")) storeExample)
     = json (jsonTemplates
               (filteredTemplates (getAllTemplates storeExample)
                                  EmptyString "conveyor")).
Proof.
  assert (E : isEmpty "conveyor" = false) by reflexivity.
  assert (N : "conveyor" <> "all") by discriminate.
  split; [exact E|].
  exact (proj1 (proj2 (category_filter_server_and_panel
                         storeExample "conveyor" E)) N).
Defined.

Section Served.

Context {Number Date : Type}.

Variable randomUUID : nat -> string.

Variable reqs : list (Request Date (PlcVariable Number)).

Lemma served_invariant :
  storageInvariant (snd (serve reqs (newMemStorage randomUUID))).
Proof.
  apply serve_invariant, forEachTemplate_invariant, emptyStorage_invariant.
Qed.

(** X21.  Whatever requests the server has answered since it started,
    every stored project and template is filed under the id it carries:
    a lookup by id returns a record with that id, every listed record
    is found again under its own id, and no two listed records share an
    id. *)
Theorem stored_records_keep_their_id :
  let st := snd (serve reqs (newMemStorage randomUUID)) in
  (forall id p, getProject st id = Some p -> projectId p = id)
  /\ (forall p, In p (getAllProjects st) -> getProject st (projectId p) = Some p)
  /\ NoDup (map projectId (getAllProjects st))
  /\ (forall id t, getTemplate st id = Some t -> templateId t = id)
  /\ (forall t, In t (getAllTemplates st) -> getTemplate st (templateId t) = Some t)
  /\ NoDup (map templateId (getAllTemplates st)).
Proof.
  cbv zeta; destruct served_invariant as (P & T).
  set (st := snd (serve reqs (newMemStorage randomUUID))) in *.
  repeat split.
  - intros id p G; destruct P as (_ & K); apply K; now apply mapGet_In.
  - intros p H; now apply keyedBy_values.
  - unfold getAllProjects; rewrite (keyedBy_ids _ _ P); exact (proj1 P).
  - intros id t G; destruct T as (_ & K); apply K; now apply mapGet_In.
  - intros t H; now apply (keyedBy_values templateId).
  - unfold getAllTemplates; rewrite (keyedBy_ids _ _ T); exact (proj1 T).
Qed.

(** X22.  No stored template carries a falsy optional field: whatever
    was posted, [isBuiltIn] is [true] or [null], never [false], and the
    description and the language are [null] or a non-empty string. *)
Theorem stored_templates_hold_no_falsy_field :
  forall t,
    In t (getAllTemplates (snd (serve reqs (newMemStorage randomUUID)))) ->
    templateIsBuiltIn t <> Some false
    /\ templateDescription t <> Some EmptyString
    /\ templateLanguage t <> Some EmptyString.
Proof.
  apply serve_templates.
  - intros id ins st'; simpl; repeat split;
      [apply boolOrNull_true | apply stringOrNull_nonempty ..].
  - apply forEachTemplate_templates.
    + intros id t _; simpl; repeat split;
        [apply boolOrNull_true | apply stringOrNull_nonempty ..].
    + intros t [].
Qed.

End Served.

Lemma stored_records_keep_their_id_witness :
  exists p,
    getProject
      (snd (serve [PostProject "p1" tt (parsedData insertExample)] storeExample))
      "p1" = Some p
    /\ projectId p = "p1".
Proof.
  eexists; split; [vm_compute; reflexivity|].
  apply (proj1 (stored_records_keep_their_id
                  (Number := unit) (Date := unit) numberToString
                  [PostProject "p1" tt (parsedData insertExample)]) "p1").
  vm_compute; reflexivity.
Defined.

Lemma stored_templates_hold_no_falsy_field_witness :
  exists t, In t (getAllTemplates (snd (serve [] storeExample)))
            /\ templateIsBuiltIn t <> Some false.
Proof.
  assert (H : In (fst (createTemplate (Date := unit) "0" motorStartStop emptyStorage))
                 (getAllTemplates (snd (serve [] storeExample))))
    by (vm_compute; left; reflexivity).
  eexists; split; [exact H|].
  exact (proj1 (stored_templates_hold_no_falsy_field numberToString [] _ H)).
Defined.

Section Projects.

Context {Date VariableRecord : Type}.

Implicit Types (st : MemStorage Date VariableRecord).

(** X23.  A posted project can be read back: the route answers 201 with
    a project that carries the drawn id, both time stamps set to the
    time of the request, and no empty string in its description, code
    or language ([null] instead); the store then answers
    [GET /api/projects/:id] for that id with the same project, every
    other id as before, and lists the project last when the id is
    new. *)
Theorem posted_project_is_read_back uuid (now : Date) insertProject st :
  let posted := registerRoutes (PostProject uuid now (parsedData insertProject)) st in
  exists project,
    fst posted = statusJson 201 (jsonProject project)
    /\ projectId project = uuid
    /\ projectName project = insertName insertProject
    /\ projectCreatedAt project = Some now
    /\ projectUpdatedAt project = Some now
    /\ projectDescription project <> Some EmptyString
    /\ projectCode project <> Some EmptyString
    /\ projectLanguage project <> Some EmptyString
    /\ fst (registerRoutes (GetProject uuid) (snd posted)) = json (jsonProject project)
    /\ (forall id, id <> uuid -> getProject (snd posted) id = getProject st id)
    /\ (getProject st uuid = None ->
        getAllProjects (snd posted) = getAllProjects st ++ [project])
    /\ getAllTemplates (snd posted) = getAllTemplates st.
Proof.
  cbv zeta; eexists; split; [reflexivity|].
  repeat split; try apply stringOrNull_nonempty.
  - simpl; unfold getProject; simpl; now rewrite mapGet_mapSet.
  - intros id N; unfold getProject; simpl; apply mapGet_mapSet_other; congruence.
  - unfold getProject, getAllProjects, mapValues; simpl; intro G.
    now rewrite mapSet_absent, map_app.
Qed.

(** X24.  [PUT /api/projects/:id] on an id that is not stored answers
    404 and changes nothing.  On a stored project it answers with the
    updated project, which keeps its id, its creation time and its
    place in the list, takes the time of the request as update time,
    and is what the id now reads back; a string sent for the
    description is stored as sent, also the empty one; a missing
    description keeps the stored one; no other project and no template
    changes. *)
Theorem put_project_effect (now : Date) id updates st :
  let put := registerRoutes (PutProject now id (parsedData updates)) st in
  (getProject st id = None ->
   put = (statusJson 404 (jsonMessage "Project not found"), st))
  /\ (forall existing,
        getProject st id = Some existing ->
        exists updated,
          fst put = json (jsonProject updated)
          /\ projectId updated = projectId existing
          /\ projectCreatedAt updated = projectCreatedAt existing
          /\ projectUpdatedAt updated = Some now
          /\ (forall s, updatesDescription updates = Defined s ->
                        projectDescription updated = Some s)
          /\ (updatesDescription updates = Undefined ->
              projectDescription updated = projectDescription existing)
          /\ getProject (snd put) id = Some updated
          /\ (forall id', id' <> id -> getProject (snd put) id' = getProject st id')
          /\ mapKeys (projects (snd put)) = mapKeys (projects st)
          /\ List.length (getAllProjects (snd put)) = List.length (getAllProjects st)
          /\ getAllTemplates (snd put) = getAllTemplates st).
Proof.
  cbv zeta; rewrite registerRoutes_put; split.
  - now intros ->.
  - intros existing G; rewrite G; eexists; split; [reflexivity|].
    assert (K : mapKeys (mapSet (projects st) id (updatedProject now existing updates))
                = mapKeys (projects st)) by exact (mapKeys_mapSet _ _ _ _ G).
    repeat split.
    + intros s E; simpl; now rewrite E.
    + intros E; simpl; now rewrite E.
    + unfold getProject; simpl; apply mapGet_mapSet.
    + intros id' N; unfold getProject; simpl; apply mapGet_mapSet_other; congruence.
    + exact K.
    + unfold getAllProjects, mapValues; simpl.
      rewrite !length_map; apply (f_equal (@List.length _)) in K.
      unfold mapKeys in K; now rewrite !length_map in K.
Qed.

(** X25.  [DELETE /api/projects/:id] answers 204 when the id is stored
    and 404 when it is not.  Either way the id reads back as missing
    afterwards, every other id reads back as before, the list of
    projects is the old list without the projects of that id, the
    templates are untouched, and a second request for the same id
    answers 404. *)
Theorem delete_project_effect id st :
  storageInvariant st ->
  let deleted := registerRoutes (DeleteProject id) st in
  (responseStatus (fst deleted) = 204 <-> getProject st id <> None)
  /\ (responseStatus (fst deleted) = 404 <-> getProject st id = None)
  /\ getProject (snd deleted) id = None
  /\ (forall id', id' <> id -> getProject (snd deleted) id' = getProject st id')
  /\ getAllProjects (snd deleted)
     = filter (fun p => negb (String.eqb (projectId p) id)) (getAllProjects st)
  /\ getAllTemplates (snd deleted) = getAllTemplates st
  /\ registerRoutes (DeleteProject id) (snd deleted)
     = (statusJson 404 (jsonMessage "Project not found"), snd deleted).
Proof.
  intros (P & T); cbv zeta.
  assert (G : getProject (snd (registerRoutes (DeleteProject id) st)) id = None).
  { rewrite registerRoutes_delete; destruct (getProject st id) eqn:E; [|exact E].
    unfold getProject; simpl; apply mapGet_mapDelete, P. }
  assert (L : getAllProjects (snd (registerRoutes (DeleteProject id) st))
              = filter (fun p => negb (String.eqb (projectId p) id)) (getAllProjects st)).
  { rewrite registerRoutes_delete; unfold getAllProjects.
    rewrite <- (keyedBy_delete_values projectId _ _ P).
    destruct (getProject st id) eqn:E; [reflexivity|].
    simpl; now rewrite mapDelete_absent. }
  split; [|split; [|split; [exact G|split; [|split; [exact L|split]]]]].
  - rewrite registerRoutes_delete; destruct (getProject st id); simpl;
      split; congruence.
  - rewrite registerRoutes_delete; destruct (getProject st id); simpl;
      split; congruence.
  - intros id' N; rewrite registerRoutes_delete.
    destruct (getProject st id); [|reflexivity].
    unfold getProject; simpl; apply mapGet_mapDelete_other; congruence.
  - rewrite registerRoutes_delete; now destruct (getProject st id).
  - rewrite (registerRoutes_delete id (snd _)); now rewrite G.
Qed.

(** X26.  A request to the project and template routes that is
    answered with a status of 400 or more changes nothing in the
    store. *)
Theorem rejected_requests_change_nothing
    (req : Request Date VariableRecord) st :
  (400 <= responseStatus (fst (registerRoutes req st)))%nat ->
  snd (registerRoutes req st) = st.
Proof.
  destruct req as [|id|uuid now [m|ins]|now id [m|upd]|id|[c|]|id|uuid [m|ins]];
    try reflexivity.
  - simpl; now destruct (getProject st id).
  - simpl; lia.
  - rewrite registerRoutes_put; destruct (getProject st id); simpl; [lia | trivial].
  - rewrite registerRoutes_delete; destruct (getProject st id); simpl; [lia | trivial].
  - simpl; now destruct (isEmpty c).
  - simpl; now destruct (getTemplate st id).
  - simpl; lia.
Qed.

End Projects.

Lemma posted_project_is_read_back_witness :
  getProject storeExample "p1" = None
  /\ exists project,
       getAllProjects
         (snd (registerRoutes (PostProject "p1" tt (parsedData insertExample))
                              storeExample))
       = getAllProjects storeExample ++ [project]
       /\ projectDescription project = None.
Proof.
  assert (G : getProject storeExample "p1" = None) by (vm_compute; reflexivity).
  split; [exact G|].
  destruct (posted_project_is_read_back "p1" tt insertExample storeExample)
    as (project & E & _ & _ & _ & _ & _ & _ & _ & _ & _ & L & _).
  exists project; split; [exact (L G)|].
  injection E as <-; reflexivity.
Defined.

Lemma put_project_effect_witness :
  registerRoutes (PutProject tt "7" (parsedData updatesExample)) storeExample
  = (statusJson 404 (jsonMessage "Project not found"), storeExample).
Proof.
  assert (G : getProject storeExample "7" = None) by (vm_compute; reflexivity).
  exact (proj1 (put_project_effect tt "7" updatesExample storeExample) G).
Defined.

Lemma delete_project_effect_witness :
  storageInvariant storeExample
  /\ getProject (snd (registerRoutes (DeleteProject "7") storeExample)) "7" = None.
Proof.
  assert (I : storageInvariant storeExample)
    by exact (forEachTemplate_invariant _ _ _ _ emptyStorage_invariant).
  split; [exact I|].
  exact (proj1 (proj2 (proj2 (delete_project_effect "7" storeExample I)))).
Defined.

Lemma rejected_requests_change_nothing_witness :
  snd (registerRoutes (DeleteProject "7") storeExample) = storeExample.
Proof.
  assert (H : responseStatus (fst (registerRoutes (DeleteProject "7") storeExample))
              = 404%nat) by (vm_compute; reflexivity).
  apply rejected_requests_change_nothing; rewrite H; lia.
Defined.

(** ** The built-in templates and the validator *)

(** What the validator reports on the code of a built-in template. *)
Lemma builtIn_code_report (code : string) :
  In code [motorStartStopCode; tankLevelControlCode; conveyorSystemCode] ->
  let r := performSTValidation code in
  isValid r = true
  /\ errors r = []
  /\ iecCompliance r
     = {| variableDeclaration := true; dataTypeUsage := true;
          structureCompliance := true; namingConvention := true |}
  /\ (exists v, In (unusedWarning v) (warnings r)
                /\ includes (toUpperCase code) ("IF " ++ v) = true)
  /\ handleValidateCode (Some code) = mutate code
  /\ toastDescription (onSuccessToast r) = "Structured Text validation passed".
Proof.
  intros [<- | [<- | [<- | []]]]; cbv zeta.
  - split; [vm_compute; reflexivity|].
    split; [vm_compute; reflexivity|].
    split; [vm_compute; reflexivity|].
    split; [|split; vm_compute; reflexivity].
    exists "START_BUTTON"; split; [vm_compute; left; reflexivity|].
    vm_compute; reflexivity.
  - split; [vm_compute; reflexivity|].
    split; [vm_compute; reflexivity|].
    split; [vm_compute; reflexivity|].
    split; [|split; vm_compute; reflexivity].
    exists "TANK_LEVEL"; split; [vm_compute; left; reflexivity|].
    vm_compute; reflexivity.
  - split; [vm_compute; reflexivity|].
    split; [vm_compute; reflexivity|].
    split; [vm_compute; reflexivity|].
    split; [|split; vm_compute; reflexivity].
    exists "CONVEYOR_START"; split; [vm_compute; left; reflexivity|].
    vm_compute; reflexivity.
Qed.

(** X27.  The store starts with the built-in templates, and the
    validator accepts the code of each of them: no error, [isValid], and
    all four IEC 61131-3 flags set, so that the validate button on that
    code ends in the [validation passed] toast.  Each of them
    nevertheless draws a [declared but never used] warning for a
    variable that its code tests in an [IF] condition.  When the three drawn ids differ, the store
    lists the three templates in the order of the source. *)
Theorem built_in_templates_pass_validation {Number Date : Type}
    (randomUUID : nat -> string) :
  let st : MemStorage Date (PlcVariable Number) := newMemStorage randomUUID in
  (forall t,
      In t (getAllTemplates st) ->
      let r := performSTValidation (templateCode t) in
      isValid r = true
      /\ errors r = []
      /\ iecCompliance r
         = {| variableDeclaration := true; dataTypeUsage := true;
              structureCompliance := true; namingConvention := true |}
      /\ (exists v, In (unusedWarning v) (warnings r)
                    /\ includes (toUpperCase (templateCode t)) ("IF " ++ v) = true)
      /\ handleValidateCode (Some (templateCode t)) = mutate (templateCode t)
      /\ toastDescription (onSuccessToast r) = "Structured Text validation passed")
  /\ getAllProjects st = []
  /\ (NoDup [randomUUID 0%nat; randomUUID 1%nat; randomUUID 2%nat] ->
      map templateName (getAllTemplates st)
      = ["Motor Start/Stop"; "Tank Level Control"; "Conveyor System"]
      /\ map templateId (getAllTemplates st)
         = [randomUUID 0%nat; randomUUID 1%nat; randomUUID 2%nat]).
Proof.
  cbv zeta; split; [|split].
  - intros t H.
    assert (C : In (templateCode t)
                   [motorStartStopCode; tankLevelControlCode; conveyorSystemCode]).
    { revert t H; unfold newMemStorage, seedTemplates.
      apply (forEachTemplate_templates
               (fun t => In (templateCode t)
                            [motorStartStopCode; tankLevelControlCode;
                             conveyorSystemCode])).
      - intros id t [<- | [<- | [<- | []]]]; simpl; auto.
      - intros t []. }
    exact (builtIn_code_report _ C).
  - reflexivity.
  - intro N.
    assert (N01 : String.eqb (randomUUID 0%nat) (randomUUID 1%nat) = false).
    { apply String.eqb_neq; intro E; inversion N as [|? ? N1 _]; subst.
      apply N1; rewrite E; now left. }
    assert (N02 : String.eqb (randomUUID 0%nat) (randomUUID 2%nat) = false).
    { apply String.eqb_neq; intro E; inversion N as [|? ? N1 _]; subst.
      apply N1; rewrite E; right; now left. }
    assert (N12 : String.eqb (randomUUID 1%nat) (randomUUID 2%nat) = false).
    { apply String.eqb_neq; intro E; inversion N as [|? ? _ N2]; subst.
      inversion N2 as [|? ? N1 _]; subst; apply N1; rewrite E; now left. }
    unfold newMemStorage, seedTemplates, getAllTemplates, mapValues; simpl.
    rewrite N01; simpl; rewrite N02, N12; simpl; split; reflexivity.
Qed.

Lemma built_in_templates_pass_validation_witness :
  NoDup [numberToString 0; numberToString 1; numberToString 2]
  /\ map templateId (getAllTemplates storeExample)
     = [numberToString 0; numberToString 1; numberToString 2].
Proof.
  assert (N : NoDup [numberToString 0; numberToString 1; numberToString 2]).
  { repeat constructor; simpl; intuition discriminate. }
  split; [exact N|].
  exact (proj2 (proj2 (proj2 (built_in_templates_pass_validation
                                (Number := unit) (Date := unit) numberToString)) N)).
Defined.
